(** * vessel-tracker: dead-reckoning prediction and track conformance

    A shallow embedding of [main.py] and [vessel_data_script.py].

    The geodesy kernel ([predict_position], [haversine],
    [is_point_within_circle]) and the two batch operations
    ([predict_future_positions], [check_within_radius]) are written once,
    over an interface [PyFloat] that gathers what the source asks of Python's
    [float] and of the [math] module.  Two semantics implement the interface:

    - [Binary64.sem m]: IEEE-754 binary64 numbers (the kernel's primitive
      floats), with CPython's wrappers around the platform's C math library
      [m].  This is what the program runs on.
    - [Exact.sem]: real numbers with exact arithmetic and a NaN for missing
      data.  This is what the formulas mean.

    A property that fails on binary64 fails on the program; a property proved
    on the exact semantics is a property of the formulas. *)

From Stdlib Require Import ZArith List String Bool Lia.
From Stdlib Require Import Reals Lra.
From Stdlib Require Import Floats.
Import ListNotations.

Set Implicit Arguments.

(** ** Exceptions *)

(** The Python exceptions the modelled code can raise. *)
Inductive exn : Type :=
| ValueError      (* math domain error; column length mismatch *)
| OverflowError   (* float ** float out of range *)
| TypeError       (* a string where a number is needed *)
| KeyError.       (* missing column *)

Inductive result (A : Type) : Type :=
| Ok (a : A)
| Raise (e : exn).

Arguments Ok {A} a.
Arguments Raise {A} e.

Definition bind {A B : Type} (c : result A) (k : A -> result B) : result B :=
  match c with
  | Ok a => k a
  | Raise e => Raise e
  end.

Notation "x <- c ;; k" := (bind c (fun x => k))
  (at level 61, c at next level, right associativity).
Notation "' pat <- c ;; k" := (bind c (fun x => match x with pat => k end))
  (at level 61, pat pattern, c at next level, right associativity).

(** ** What the source asks of [float] and [math] *)

Class PyFloat (F : Type) : Type := {
  (** [float('nan')], which pandas also uses for a missing cell *)
  nan : F;
  (** an [int] literal used in float arithmetic *)
  of_int : Z -> F;
  (** the literal [3440.065] *)
  lit_3440_065 : F;
  fadd : F -> F -> F;
  fsub : F -> F -> F;
  fmul : F -> F -> F;
  (** [x / y]; every divisor in the source is a non-zero constant *)
  fdiv : F -> F -> F;
  (** [x ** 2] *)
  fsquare : F -> result F;
  (** [x <= y] *)
  fle : F -> F -> bool;
  (** [x == y] *)
  feq : F -> F -> bool;
  (** [math.radians], [math.degrees] *)
  radians : F -> F;
  degrees : F -> F;
  (** [math.sin] and the others; each can raise on a domain error *)
  math_sin : F -> result F;
  math_cos : F -> result F;
  math_asin : F -> result F;
  math_sqrt : F -> result F;
  math_atan2 : F -> F -> result F
}.

Declare Scope py_scope.
Delimit Scope py_scope with py.
Infix "+" := fadd : py_scope.
Infix "-" := fsub : py_scope.
Infix "*" := fmul : py_scope.
Infix "/" := fdiv : py_scope.
Infix "<=?" := fle : py_scope.

(** ** The geodesy kernel (main.py, lines 59-85) *)

Section Geodesy.
Context {F : Type} `{PyFloat F}.
Local Open Scope py_scope.

(** Earth radius in nautical miles. *)
Definition earth_radius_nm : F := lit_3440_065.

(** Earth radius in kilometres, an [int] in the source. *)
Definition earth_radius_km : Z := 6371.

(** [predict_position(latitude, longitude, course, speed, time_minutes)] *)
Definition predict_position (latitude longitude course speed time_minutes : F)
  : result (F * F) :=
  let latitude := radians latitude in
  let longitude := radians longitude in
  let course := radians course in
  let distance_nm := (speed / of_int 60) * time_minutes in
  sin_lat <- math_sin latitude ;;
  cos_d <- math_cos (distance_nm / earth_radius_nm) ;;
  cos_lat <- math_cos latitude ;;
  sin_d <- math_sin (distance_nm / earth_radius_nm) ;;
  cos_crs <- math_cos course ;;
  predicted_latitude <- math_asin (sin_lat * cos_d + cos_lat * sin_d * cos_crs) ;;
  sin_crs <- math_sin course ;;
  sin_d' <- math_sin (distance_nm / earth_radius_nm) ;;
  cos_lat' <- math_cos latitude ;;
  cos_d' <- math_cos (distance_nm / earth_radius_nm) ;;
  sin_lat' <- math_sin latitude ;;
  sin_plat <- math_sin predicted_latitude ;;
  dlon <- math_atan2 (sin_crs * sin_d' * cos_lat') (cos_d' - sin_lat' * sin_plat) ;;
  let predicted_longitude := longitude + dlon in
  Ok (degrees predicted_latitude, degrees predicted_longitude).

(** The quantity [a] of the haversine formula (main.py, line 79). *)
Definition haversine_a (lat1 lon1 lat2 lon2 : F) : result F :=
  let delta_lat := radians (lat2 - lat1) in
  let delta_lon := radians (lon2 - lon1) in
  s1 <- math_sin (delta_lat / of_int 2) ;;
  s1sq <- fsquare s1 ;;
  c1 <- math_cos (radians lat1) ;;
  c2 <- math_cos (radians lat2) ;;
  s2 <- math_sin (delta_lon / of_int 2) ;;
  s2sq <- fsquare s2 ;;
  Ok (s1sq + c1 * c2 * s2sq).

(** [haversine(lat1, lon1, lat2, lon2)], in kilometres. *)
Definition haversine (lat1 lon1 lat2 lon2 : F) : result F :=
  a <- haversine_a lat1 lon1 lat2 lon2 ;;
  sqrt_a <- math_sqrt a ;;
  sqrt_1a <- math_sqrt (of_int 1 - a) ;;
  angle <- math_atan2 sqrt_a sqrt_1a ;;
  Ok (of_int (2 * earth_radius_km) * angle).

(** [is_point_within_circle(center_lat, center_lon, radius_km, point_lat, point_lon)] *)
Definition is_point_within_circle
    (center_lat center_lon radius_km point_lat point_lon : F) : result bool :=
  d <- haversine center_lat center_lon point_lat point_lon ;;
  Ok (d <=? radius_km).

End Geodesy.

(** ** Binary64 semantics: what CPython computes *)

Module Binary64.

Local Open Scope float_scope.

(** The platform's C math library, as far as the program calls it.  Its
    functions are not specified bit for bit; a statement about the program
    holds for every [Libm], or says which values of it are assumed. *)
Record Libm : Type := {
  c_sin : float -> float;
  c_cos : float -> float;
  c_asin : float -> float;
  c_atan2 : float -> float -> float;
  c_pow : float -> float -> float
}.

(** [Py_MATH_PI], the double nearest to pi. *)
Definition Py_MATH_PI : float := 0x1.921fb54442d18p+1.

(** mathmodule.c: [degToRad = Py_MATH_PI / 180.0], [radToDeg = 180.0 / Py_MATH_PI]. *)
Definition degToRad : float := Py_MATH_PI / 180.
Definition radToDeg : float := 180 / Py_MATH_PI.

(** The conversion of a (small) Python [int] to [float]. *)
Definition float_of_Z (z : Z) : float :=
  match z with
  | Z0 => 0
  | Zpos _ => PrimFloat.of_uint63 (Uint63.of_Z z)
  | Zneg p => - PrimFloat.of_uint63 (Uint63.of_Z (Zpos p))
  end.

(** C's [copysign]. *)
Definition copysign (x y : float) : float :=
  if PrimFloat.get_sign y then - PrimFloat.abs x else PrimFloat.abs x.

(** mathmodule.c, [math_1] with [can_overflow = 0]: a NaN out of a number,
    or an infinity out of a finite number, is a ValueError. *)
Definition math_1 (f : float -> float) (x : float) : result float :=
  let r := f x in
  if PrimFloat.is_nan r && negb (PrimFloat.is_nan x) then Raise ValueError
  else if PrimFloat.is_infinity r && PrimFloat.is_finite x then Raise ValueError
  else Ok r.

(** mathmodule.c, [m_atan2]: the special cases CPython settles itself
    before it calls the C library. *)
Definition m_atan2 (m : Libm) (y x : float) : float :=
  if PrimFloat.is_nan x || PrimFloat.is_nan y then PrimFloat.nan
  else if PrimFloat.is_infinity y then
    if PrimFloat.is_infinity x then
      if copysign 1 x =? 1 then copysign (0.25 * Py_MATH_PI) y
      else copysign (0.75 * Py_MATH_PI) y
    else copysign (0.5 * Py_MATH_PI) y
  else if PrimFloat.is_infinity x || (y =? 0) then
    if copysign 1 x =? 1 then copysign 0 y
    else copysign Py_MATH_PI y
  else c_atan2 m y x.

(** mathmodule.c, [math_2]. *)
Definition math_2 (f : float -> float -> float) (x y : float) : result float :=
  let r := f x y in
  if PrimFloat.is_nan r then
    if negb (PrimFloat.is_nan x) && negb (PrimFloat.is_nan y)
    then Raise ValueError else Ok r
  else if PrimFloat.is_infinity r then
    if PrimFloat.is_finite x && PrimFloat.is_finite y
    then Raise OverflowError else Ok r
  else Ok r.

(** floatobject.c, [float_pow] at the exponent [2.0]: NaN, infinities, zero,
    a negative base and [1.0] are settled before the C library's [pow] is
    called on a positive finite base; an infinite result is an
    OverflowError. *)
Definition float_pow_2 (m : Libm) (iv : float) : result float :=
  if PrimFloat.is_nan iv then Ok iv
  else if PrimFloat.is_infinity iv then Ok (PrimFloat.abs iv)
  else if iv =? 0 then Ok 0
  else
    let iv := if iv <? 0 then - iv else iv in
    if iv =? 1 then Ok 1
    else
      let ix := c_pow m iv 2 in
      if PrimFloat.is_infinity ix then Raise OverflowError else Ok ix.

#[global] Instance sem (m : Libm) : PyFloat float := {|
  nan := PrimFloat.nan;
  of_int := float_of_Z;
  lit_3440_065 := 0x1.ae02147ae147bp+11;
  fadd := PrimFloat.add;
  fsub := PrimFloat.sub;
  fmul := PrimFloat.mul;
  fdiv := PrimFloat.div;
  fsquare := float_pow_2 m;
  fle := PrimFloat.leb;
  feq := PrimFloat.eqb;
  radians := fun x => x * degToRad;
  degrees := fun x => x * radToDeg;
  math_sin := math_1 (c_sin m);
  math_cos := math_1 (c_cos m);
  math_asin := math_1 (c_asin m);
  math_sqrt := math_1 PrimFloat.sqrt;
  math_atan2 := math_2 (m_atan2 m)
|}.

(** *** Platforms *)

(** One value of the C library: the function, its arguments, its result. *)
Inductive libm_value : Type :=
| SinAt (x v : float)
| CosAt (x v : float)
| AsinAt (x v : float)
| Atan2At (y x v : float)
| PowAt (x y v : float).

Definition returns (m : Libm) (f : libm_value) : Prop :=
  match f with
  | SinAt x v => c_sin m x = v
  | CosAt x v => c_cos m x = v
  | AsinAt x v => c_asin m x = v
  | Atan2At y x v => c_atan2 m y x = v
  | PowAt x y v => c_pow m x y = v
  end.

Definition agrees (m : Libm) (table : list libm_value) : Prop :=
  Forall (returns m) table.

(** C99 Annex F (F.9.1, F.9.4): the values at zero, which are fixed
    exactly. *)
Definition annex_F : list libm_value :=
  [ SinAt 0 0; SinAt (-0) (-0); CosAt 0 1; CosAt (-0) 1;
    AsinAt 0 0; AsinAt (-0) (-0) ].

(** The correctly rounded values of [sin], [cos] and [pow] at five
    arguments met when the distance from (8 N, 0 E) to (8 S, 180 E) is
    computed; glibc returns them. *)
Definition rounded_samples : list libm_value :=
  [ SinAt (-0x1.1df46a2529d39p-3) (-0x1.1d06c968d9e19p-3);
    PowAt 0x1.1d06c968d9e19p-3 2 0x1.3d581ca184804p-6;
    CosAt 0x1.1df46a2529d39p-3 0x1.fb046a930947ap-1;
    CosAt (-0x1.1df46a2529d39p-3) 0x1.fb046a930947ap-1;
    SinAt 0x1.921fb54442d18p+0 1 ].

(** The values of [sin], [cos], [asin] and [atan2] that glibc returns at the
    arguments met when a vessel at (0 N, 180 E), course 90, 60 knots, is
    projected 10 minutes ahead. *)
Definition eastward_samples : list libm_value :=
  [ CosAt 0x1.7d041c456665dp-9 0x1.ffff723ab77d1p-1;
    SinAt 0x1.7d041c456665dp-9 0x1.7d03f91a9523ap-9;
    CosAt 0x1.921fb54442d18p+0 0x1.1a62633145c07p-54;
    AsinAt 0x1.a448cf8e835ecp-63 0x1.a448cf8e835ecp-63;
    SinAt 0x1.921fb54442d18p+0 1;
    SinAt 0x1.a448cf8e835ecp-63 0x1.a448cf8e835ecp-63;
    Atan2At 0x1.7d03f91a9523ap-9 0x1.ffff723ab77d1p-1 0x1.7d041c456665dp-9 ].

(** The values that glibc returns at the arguments met when a vessel at
    (80 N, 150 E), course 0, 60 knots, is projected 1200 minutes ahead, over
    the pole. *)
Definition polar_samples : list libm_value :=
  [ SinAt 0x1.657184ae74487p+0 0x1.f838b8c811c17p-1;
    CosAt 0x1.6533da810fff7p-2 0x1.e129eede341c5p-1;
    CosAt 0x1.657184ae74487p+0 0x1.63a1a7e0b738cp-3;
    SinAt 0x1.6533da810fff7p-2 0x1.5e00947e96120p-2;
    AsinAt 0x1.f83e127cdb1bfp-1 0x1.6580ef39cd5acp+0;
    SinAt 0x1.6580ef39cd5acp+0 0x1.f83e127cdb1bfp-1 ].

(** The values that glibc returns at the arguments met when a vessel at
    72.534 N, course 0, 20 knots, is projected 3146 minutes ahead: the
    argument of the arcsine is the double above 1, and its arcsine a NaN. *)
Definition overshoot_samples : list libm_value :=
  [ SinAt 0x1.4415c40affb74p+0 0x1.e864f4785bfbap-1;
    CosAt 0x1.3827c47eb95bap-2 0x1.e864f487b7126p-1;
    CosAt 0x1.4415c40affb74p+0 0x1.3357d8fd5f8bfp-2;
    SinAt 0x1.3827c47eb95bap-2 0x1.3357d89bc4361p-2;
    AsinAt 0x1.0000000000001p+0 PrimFloat.nan ].

(** The values that glibc returns at the arguments met when a vessel at
    89.999999 N, at rest, is projected ahead. *)
Definition near_pole_samples : list libm_value :=
  [ SinAt 0x1.921fb4f94cb87p+0 0x1.fffffffffffffp-1;
    CosAt 0x1.921fb4f94cb87p+0 0x1.2bd86451a6263p-26;
    AsinAt 0x1.fffffffffffffp-1 0x1.921fb50442d18p+0;
    SinAt 0x1.921fb50442d18p+0 0x1.fffffffffffffp-1 ].

(** A property of the program on every platform that follows Annex F,
    whatever its C library returns away from zero. *)
Definition on_every_platform (P : Libm -> Prop) : Prop :=
  forall m : Libm, agrees m annex_F -> P m.

(** A property of the program on the platforms whose C library returns the
    values of [table]. *)
Definition on_platforms_with (table : list libm_value) (P : Libm -> Prop) : Prop :=
  forall m : Libm, agrees m table -> P m.

(** A C library that knows the values of a table and nothing else (NaN
    elsewhere): the least platform that agrees with the table. *)
Fixpoint table_sin (table : list libm_value) (x : float) : float :=
  match table with
  | [] => PrimFloat.nan
  | SinAt x' v :: rest => if PrimFloat.Leibniz.eqb x' x then v else table_sin rest x
  | _ :: rest => table_sin rest x
  end.

Fixpoint table_cos (table : list libm_value) (x : float) : float :=
  match table with
  | [] => PrimFloat.nan
  | CosAt x' v :: rest => if PrimFloat.Leibniz.eqb x' x then v else table_cos rest x
  | _ :: rest => table_cos rest x
  end.

Fixpoint table_asin (table : list libm_value) (x : float) : float :=
  match table with
  | [] => PrimFloat.nan
  | AsinAt x' v :: rest => if PrimFloat.Leibniz.eqb x' x then v else table_asin rest x
  | _ :: rest => table_asin rest x
  end.

Fixpoint table_atan2 (table : list libm_value) (y x : float) : float :=
  match table with
  | [] => PrimFloat.nan
  | Atan2At y' x' v :: rest =>
      if PrimFloat.Leibniz.eqb y' y && PrimFloat.Leibniz.eqb x' x then v
      else table_atan2 rest y x
  | _ :: rest => table_atan2 rest y x
  end.

Fixpoint table_pow (table : list libm_value) (x y : float) : float :=
  match table with
  | [] => PrimFloat.nan
  | PowAt x' y' v :: rest =>
      if PrimFloat.Leibniz.eqb x' x && PrimFloat.Leibniz.eqb y' y then v
      else table_pow rest x y
  | _ :: rest => table_pow rest x y
  end.

Definition libm_of_table (table : list libm_value) : Libm := {|
  c_sin := table_sin table;
  c_cos := table_cos table;
  c_asin := table_asin table;
  c_atan2 := table_atan2 table;
  c_pow := table_pow table
|}.

(** The double nearest to pi / 2, the largest value an arcsine can have. *)
Definition pio2 : float := 0x1.921fb54442d18p+0.

(** [sin(radians(d) / 2) ** 2], which [haversine] computes for the difference
    of the latitudes and for the difference of the longitudes. *)
Definition half_sine_squared (m : Libm) (d : float) : result float :=
  s <- math_1 (c_sin m) (d * degToRad / 2) ;;
  float_pow_2 m s.

(** Three properties of every C library in use, which the standard does not
    fix: the sine is odd; the cosine of a finite number does not exceed 1 in
    magnitude; an arcsine is a NaN or does not exceed [pio2] in magnitude. *)
Definition odd_sine (m : Libm) : Prop :=
  forall x : float, c_sin m (- x) = - c_sin m x.

Definition bounded_cosine (m : Libm) : Prop :=
  forall x : float,
    PrimFloat.is_finite x = true -> (PrimFloat.abs (c_cos m x) <=? 1) = true.

Definition bounded_arcsine (m : Libm) : Prop :=
  forall x : float,
    PrimFloat.is_nan (c_asin m x) = true \/
    (PrimFloat.abs (c_asin m x) <=? pio2) = true.

(** The first-order approximations at zero, as a C library: a platform on
    which the values of Annex F and the three properties above hold
    together. *)
Definition first_order_platform : Libm := {|
  c_sin := fun x => x;
  c_cos := fun _ => 1;
  c_asin := fun x => if PrimFloat.abs x <=? pio2 then x else PrimFloat.nan;
  c_atan2 := fun y x => y / x;
  c_pow := fun x _ => x * x
|}.

(** A zero, or a finite number whose exponent (that of its unit in the
    last place) is at most [k]: a number below [2 ^ (k + 53)] in
    magnitude. *)
Definition exponent_at_most (k : Z) (x : float) : Prop :=
  match Prim2SF x with
  | S754_zero _ => True
  | S754_finite _ _ e => (e <= k)%Z
  | _ => False
  end.

(** Two more properties of every C library in use, for every argument: a
    sine and a cosine are a NaN (as they are of an infinity or of a NaN) or
    do not exceed 1 in magnitude. *)
Definition sine_within_unit (m : Libm) : Prop :=
  forall x : float,
    PrimFloat.is_nan (c_sin m x) = true \/
    (PrimFloat.abs (c_sin m x) <=? 1) = true.

Definition cosine_within_unit (m : Libm) : Prop :=
  forall x : float,
    PrimFloat.is_nan (c_cos m x) = true \/
    (PrimFloat.abs (c_cos m x) <=? 1) = true.

(** The first-order platform with its sine kept within the unit: a platform
    on which the values of Annex F and all the properties above hold
    together. *)
Definition unit_platform : Libm := {|
  c_sin := fun x => if PrimFloat.abs x <=? 1 then x else x * 0;
  c_cos := c_cos first_order_platform;
  c_asin := c_asin first_order_platform;
  c_atan2 := c_atan2 first_order_platform;
  c_pow := c_pow first_order_platform
|}.

(** The table library of the values of Annex F, of [rounded_samples] and of
    [eastward_samples]. *)
Definition table_platform : Libm :=
  libm_of_table (annex_F ++ rounded_samples ++ eastward_samples).

End Binary64.

(** ** Exact semantics: what the formulas mean *)

Module Exact.

Local Open Scope R_scope.

(** A real number, or NaN (a missing cell; NaN in, NaN out). *)
Inductive xreal : Type :=
| Real (r : R)
| NaN.

Definition lift1 (f : R -> R) (a : xreal) : xreal :=
  match a with
  | Real x => Real (f x)
  | NaN => NaN
  end.

Definition lift2 (f : R -> R -> R) (a b : xreal) : xreal :=
  match a, b with
  | Real x, Real y => Real (f x y)
  | _, _ => NaN
  end.

(** A comparison with NaN is false. *)
Definition xle (a b : xreal) : bool :=
  match a, b with
  | Real x, Real y => if Rle_dec x y then true else false
  | _, _ => false
  end.

Definition xeq (a b : xreal) : bool :=
  match a, b with
  | Real x, Real y => if Req_dec_T x y then true else false
  | _, _ => false
  end.

(** The two-argument arctangent of C and Python, on real numbers: the angle
    of the point [(x, y)], in [(-PI, PI]], and 0 at the origin. *)
Definition Ratan2 (y x : R) : R :=
  if Rlt_dec 0 x then atan (y / x)
  else if Rlt_dec x 0 then
    if Rle_dec 0 y then atan (y / x) + PI else atan (y / x) - PI
  else
    if Rlt_dec 0 y then PI / 2
    else if Rlt_dec y 0 then - (PI / 2)
    else 0.

(** [math.asin] raises ValueError outside [[-1, 1]]. *)
Definition xasin (a : xreal) : result xreal :=
  match a with
  | Real x =>
      if Rle_dec (-1) x then
        if Rle_dec x 1 then Ok (Real (Ratan.asin x)) else Raise ValueError
      else Raise ValueError
  | NaN => Ok NaN
  end.

(** [math.sqrt] raises ValueError below zero. *)
Definition xsqrt (a : xreal) : result xreal :=
  match a with
  | Real x => if Rle_dec 0 x then Ok (Real (R_sqrt.sqrt x)) else Raise ValueError
  | NaN => Ok NaN
  end.

#[global] Instance sem : PyFloat xreal := {|
  nan := NaN;
  of_int := fun z => Real (IZR z);
  lit_3440_065 := Real (3440065 / 1000);
  fadd := lift2 Rplus;
  fsub := lift2 Rminus;
  fmul := lift2 Rmult;
  fdiv := lift2 Rdiv;
  fsquare := fun a => Ok (lift1 Rsqr a);
  fle := xle;
  feq := xeq;
  radians := lift1 (fun x => x * (PI / 180));
  degrees := lift1 (fun x => x * (180 / PI));
  math_sin := fun a => Ok (lift1 Rtrigo_def.sin a);
  math_cos := fun a => Ok (lift1 Rtrigo_def.cos a);
  math_asin := xasin;
  math_sqrt := xsqrt;
  math_atan2 := fun a b => Ok (lift2 Ratan2 a b)
|}.

(** The values the kernel computes on real numbers, in closed form: the
    argument of the arcsine in [predict_position], and the quantity [a] of
    [haversine]. *)
Definition asin_argument (phi delta theta : R) : R :=
  Rtrigo_def.sin phi * Rtrigo_def.cos delta
  + Rtrigo_def.cos phi * Rtrigo_def.sin delta * Rtrigo_def.cos theta.

Definition hav (lat1 lon1 lat2 lon2 : R) : R :=
  Rsqr (Rtrigo_def.sin ((lat2 - lat1) * (PI / 180) / 2))
  + Rtrigo_def.cos (lat1 * (PI / 180)) * Rtrigo_def.cos (lat2 * (PI / 180))
    * Rsqr (Rtrigo_def.sin ((lon2 - lon1) * (PI / 180) / 2)).

End Exact.

(** ** Data frames *)

(** A cell of a pandas DataFrame. *)
Inductive value (F : Type) : Type :=
| VNum (x : F)
| VStr (s : string)
| VBool (b : bool).

Arguments VNum {F} x.
Arguments VStr {F} s.
Arguments VBool {F} b.

(** A DataFrame with the default RangeIndex [0 .. nrows-1]: the columns in
    their order, each holding one cell per row. *)
Record DataFrame (F : Type) : Type := {
  nrows : nat;
  columns : list (string * list (value F))
}.

Arguments nrows {F} d.
Arguments columns {F} d.

(** One row, as [iterrows] yields it: the cells by column label. *)
Definition Row (F : Type) : Type := list (string * value F).

Section Frames.
Context {F : Type} `{PyFloat F}.

Fixpoint assoc {A : Type} (name : string) (l : list (string * A)) : option A :=
  match l with
  | [] => None
  | (k, v) :: rest => if String.eqb k name then Some v else assoc name rest
  end.

(** [df.empty]: some axis has length 0. *)
Definition empty (df : DataFrame F) : bool :=
  (nrows df =? 0)%nat || (List.length (columns df) =? 0)%nat.

(** [df[name]] *)
Definition getitem (df : DataFrame F) (name : string) : result (list (value F)) :=
  match assoc name (columns df) with
  | Some col => Ok col
  | None => Raise KeyError
  end.

(** [df[names]]: the listed columns, in the listed order. *)
Fixpoint select_columns (cols : list (string * list (value F))) (names : list string)
  : result (list (string * list (value F))) :=
  match names with
  | [] => Ok []
  | name :: rest =>
      match assoc name cols with
      | Some col =>
          picked <- select_columns cols rest ;;
          Ok ((name, col) :: picked)
      | None => Raise KeyError
      end
  end.

Definition select (df : DataFrame F) (names : list string) : result (DataFrame F) :=
  picked <- select_columns (columns df) names ;;
  Ok {| nrows := nrows df; columns := picked |}.

(** A column is replaced where it stands, or added after the last one. *)
Fixpoint set_column (cols : list (string * list (value F))) (name : string)
    (cells : list (value F)) : list (string * list (value F)) :=
  match cols with
  | [] => [(name, cells)]
  | (k, v) :: rest =>
      if String.eqb k name then (k, cells) :: rest
      else (k, v) :: set_column rest name cells
  end.

(** [df[name] = cells] for a Python list: its length must be the index's. *)
Definition setitem_list (df : DataFrame F) (name : string) (cells : list (value F))
  : result (DataFrame F) :=
  if (List.length cells =? nrows df)%nat
  then Ok {| nrows := nrows df; columns := set_column (columns df) name cells |}
  else Raise ValueError.

(** A Series with a RangeIndex, conformed to the RangeIndex [0 .. n-1]:
    label [i] takes the Series' cell at label [i], NaN when it has none. *)
Definition reindex (series : list (value F)) (n : nat) : list (value F) :=
  map (fun i => nth i series (VNum nan)) (seq 0 n).

(** [df[name] = series]: the Series is aligned on the index labels. *)
Definition setitem_series (df : DataFrame F) (name : string) (series : list (value F))
  : DataFrame F :=
  {| nrows := nrows df;
     columns := set_column (columns df) name (reindex series (nrows df)) |}.

Definition row_at (df : DataFrame F) (i : nat) : Row F :=
  map (fun c => (fst c, nth i (snd c) (VNum nan))) (columns df).

(** [df.iterrows()], without the labels. *)
Definition iterrows (df : DataFrame F) : list (Row F) :=
  map (row_at df) (seq 0 (nrows df)).

(** [row[name]] *)
Definition row_get (row : Row F) (name : string) : result (value F) :=
  match assoc name row with
  | Some v => Ok v
  | None => Raise KeyError
  end.

(** A cell used as a number: a [bool] is an [int]; a [str] is a TypeError. *)
Definition as_float (v : value F) : result F :=
  match v with
  | VNum x => Ok x
  | VBool b => Ok (of_int (if b then 1 else 0))
  | VStr _ => Raise TypeError
  end.

(** ** The batch operations (main.py, lines 88-124) *)

(** The body of the loop of [predict_future_positions], for one row. *)
Definition predict_row (row : Row F) (time_minutes : F) : result (F * F) :=
  lat <- row_get row "LATITUDE" ;;
  lon <- row_get row "LONGITUDE" ;;
  cog <- row_get row "COG" ;;
  sog <- row_get row "SOG" ;;
  lat <- as_float lat ;;
  lon <- as_float lon ;;
  cog <- as_float cog ;;
  sog <- as_float sog ;;
  predict_position lat lon cog sog time_minutes.

(** The loop: the two lists grow by one entry per row; the first exception
    ends it. *)
Fixpoint predict_rows (rows : list (Row F)) (time_minutes : F)
  : result (list F * list F) :=
  match rows with
  | [] => Ok ([], [])
  | row :: rest =>
      ' (predicted_lat, predicted_lon) <- predict_row row time_minutes ;;
      ' (predicted_latitudes, predicted_longitudes) <- predict_rows rest time_minutes ;;
      Ok (predicted_lat :: predicted_latitudes, predicted_lon :: predicted_longitudes)
  end.

(** [predict_future_positions(df, time_minutes)] *)
Definition predict_future_positions (df : DataFrame F) (time_minutes : F)
  : result (DataFrame F) :=
  ' (predicted_latitudes, predicted_longitudes) <- predict_rows (iterrows df) time_minutes ;;
  df <- setitem_list df "PREDICTED_LATITUDE" (map VNum predicted_latitudes) ;;
  df <- setitem_list df "PREDICTED_LONGITUDE" (map VNum predicted_longitudes) ;;
  Ok df.

(** The body of the loop of [check_within_radius], for one row. *)
Definition check_row (row : Row F) (radius_km : F) : result bool :=
  predicted_lat <- row_get row "PREDICTED_LATITUDE" ;;
  predicted_lon <- row_get row "PREDICTED_LONGITUDE" ;;
  new_lat <- row_get row "NEW_LATITUDE" ;;
  new_lon <- row_get row "NEW_LONGITUDE" ;;
  predicted_lat <- as_float predicted_lat ;;
  predicted_lon <- as_float predicted_lon ;;
  new_lat <- as_float new_lat ;;
  new_lon <- as_float new_lon ;;
  is_point_within_circle predicted_lat predicted_lon radius_km new_lat new_lon.

Fixpoint check_rows (rows : list (Row F)) (radius_km : F) : result (list bool) :=
  match rows with
  | [] => Ok []
  | row :: rest =>
      within <- check_row row radius_km ;;
      results <- check_rows rest radius_km ;;
      Ok (within :: results)
  end.

(** [check_within_radius(df, radius_km)] *)
Definition check_within_radius (df : DataFrame F) (radius_km : F)
  : result (DataFrame F) :=
  results <- check_rows (iterrows df) radius_km ;;
  setitem_list df "WITHIN_RADIUS" (map VBool results).

End Frames.

(** ** Fetching and the sampling cycle *)

(** What [requests.post(...)] followed by [response.json()] comes to: a
    [requests.exceptions.RequestException] (connection error, timeout, HTTP
    error status, undecodable body), or the decoded body as
    [pd.DataFrame(response_data)] builds it. *)
Inductive api_reply (F : Type) : Type :=
| RequestException (e : string)
| Json (response_data : DataFrame F).

Arguments RequestException {F} e.
Arguments Json {F} response_data.

Section Orchestrator.
Context {F : Type} `{PyFloat F}.

Definition keys_to_include : list string :=
  ["MMSI"; "NAME"; "LATITUDE"; "LONGITUDE"; "COG"; "SOG"; "VESSEL_TYPE"]%string.

(** [get_vessel_data(latitude, longitude, radius)], given the reply to its
    request.  The failure message is printed and returned as a one-row
    frame. *)
Definition get_vessel_data (reply : api_reply F) : result (DataFrame F) :=
  match reply with
  | Json response_data => select response_data keys_to_include
  | RequestException e =>
      Ok {| nrows := 1;
            columns := [("error"%string, [VStr ("API call failed: " ++ e)])] |}
  end.

(** main.py, lines 155-156, and vessel_data_script.py, lines 56-57: the new
    positions are assigned as two columns of the frame of predictions. *)
Definition attach_new_positions (predicted_df new_result : DataFrame F)
  : result (DataFrame F) :=
  new_latitude <- getitem new_result "LATITUDE" ;;
  let predicted_df := setitem_series predicted_df "NEW_LATITUDE" new_latitude in
  new_longitude <- getitem new_result "LONGITUDE" ;;
  let predicted_df := setitem_series predicted_df "NEW_LONGITUDE" new_longitude in
  Ok predicted_df.

(** One iteration of the loop of [retrieve_vessel_data_periodically]
    (vessel_data_script.py, lines 49-76).  [net k] is the reply to the
    [k]-th request and [calls] counts the requests made so far; the frame
    returned is the one saved and kept for the final map, [None] when the
    iteration reports "No vessel data". *)
Definition retrieval_iteration (net : nat -> api_reply F) (calls : nat)
    (radius_km prediction_time_minutes : F)
  : result (option (DataFrame F) * nat) :=
  vessel_data <- get_vessel_data (net calls) ;;
  if negb (empty vessel_data) then
    vessel_data <- predict_future_positions vessel_data prediction_time_minutes ;;
    new_vessel_data <- get_vessel_data (net (S calls)) ;;
    vessel_data <-
      (if negb (empty new_vessel_data) then
         vessel_data <- attach_new_positions vessel_data new_vessel_data ;;
         check_within_radius vessel_data radius_km
       else Ok vessel_data) ;;
    Ok (Some vessel_data, S (S calls))
  else Ok (None, S calls).

(** [retrieve_vessel_data_periodically], by the number of iterations left:
    the frames collected for the final map. *)
Fixpoint retrieve_vessel_data_periodically (net : nat -> api_reply F) (calls : nat)
    (radius_km prediction_time_minutes : F) (total_iterations : nat)
  : result (list (DataFrame F)) :=
  match total_iterations with
  | O => Ok []
  | S remaining =>
      ' (collected, calls) <-
        retrieval_iteration net calls radius_km prediction_time_minutes ;;
      combined_vessel_data <-
        retrieve_vessel_data_periodically net calls radius_km
          prediction_time_minutes remaining ;;
      Ok (match collected with
          | Some vessel_data => vessel_data :: combined_vessel_data
          | None => combined_vessel_data
          end)
  end.

(** The main program of main.py (lines 127-170): the frame handed to
    [visualize_ships], [None] when it stops on "No vessel data retrieved".
    [result] and [predicted_df] name one object there, so the second
    prediction (line 165) works on the frame as it then stands. *)
Definition main_program (net : nat -> api_reply F)
    (radius_km prediction_time_minutes : F)
  : result (option (DataFrame F)) :=
  result_ <- get_vessel_data (net 0%nat) ;;
  if empty result_ then Ok None
  else
    predicted_df <- predict_future_positions result_ prediction_time_minutes ;;
    new_result <- get_vessel_data (net 1%nat) ;;
    predicted_df <-
      (if negb (empty new_result) then
         predicted_df <- attach_new_positions predicted_df new_result ;;
         check_within_radius predicted_df radius_km
       else Ok predicted_df) ;;
    if negb (empty predicted_df) then
      predicted_df <- predict_future_positions predicted_df prediction_time_minutes ;;
      predicted_df <- check_within_radius predicted_df radius_km ;;
      Ok (Some predicted_df)
    else Ok None.

End Orchestrator.

(** ** Observations and sample data *)

(** One vessel record of the feed, with the seven keys the program keeps. *)
Record observation : Type := {
  MMSI : float;
  NAME : string;
  LATITUDE : float;
  LONGITUDE : float;
  COG : float;
  SOG : float;
  VESSEL_TYPE : string
}.

(** [pd.DataFrame(response_data)] for a list of such records. *)
Definition frame_of (response_data : list observation) : DataFrame float :=
  {| nrows := List.length response_data;
     columns :=
       [ ("MMSI", map (fun o => VNum (MMSI o)) response_data);
         ("NAME", map (fun o => VStr (NAME o)) response_data);
         ("LATITUDE", map (fun o => VNum (LATITUDE o)) response_data);
         ("LONGITUDE", map (fun o => VNum (LONGITUDE o)) response_data);
         ("COG", map (fun o => VNum (COG o)) response_data);
         ("SOG", map (fun o => VNum (SOG o)) response_data);
         ("VESSEL_TYPE", map (fun o => VStr (VESSEL_TYPE o)) response_data) ]%string |}.

Module Examples.

Local Open Scope float_scope.
Local Open Scope string_scope.

(** Two vessels at rest on the equator, 111 at 0 E and 222 at 60 E. *)
Definition vessel_111 : observation :=
  {| MMSI := 111; NAME := "ALFA"; LATITUDE := 0; LONGITUDE := 0;
     COG := 0; SOG := 0; VESSEL_TYPE := "Cargo" |}.
Definition vessel_222 : observation :=
  {| MMSI := 222; NAME := "BRAVO"; LATITUDE := 0; LONGITUDE := 60;
     COG := 0; SOG := 0; VESSEL_TYPE := "Tanker" |}.

(** The feed lists them in one order at the first request and in the other
    order at the second. *)
Definition first_fetch : DataFrame float := frame_of [vessel_111; vessel_222].

(** Scenario E: a record with a speed of -1 knot, one with a NaN longitude,
    and an ordinary one, all on the equator. *)
Definition negative_speed : observation :=
  {| MMSI := 301; NAME := "CHARLIE"; LATITUDE := 0; LONGITUDE := 0;
     COG := 0; SOG := -1; VESSEL_TYPE := "Tug" |}.
Definition nan_longitude : observation :=
  {| MMSI := 302; NAME := "DELTA"; LATITUDE := 0; LONGITUDE := PrimFloat.nan;
     COG := 0; SOG := 0; VESSEL_TYPE := "Tug" |}.
Definition ordinary : observation :=
  {| MMSI := 303; NAME := "ECHO"; LATITUDE := 0; LONGITUDE := 60;
     COG := 0; SOG := 0; VESSEL_TYPE := "Tug" |}.
Definition scenario_E : DataFrame float :=
  frame_of [negative_speed; nan_longitude; ordinary].

End Examples.

(** ** Vocabulary of the statements *)

Section Vocabulary.
Context {F : Type} `{PyFloat F}.

(** The frame [df] with the two lists as its predicted-position columns. *)
Definition with_predictions (df : DataFrame F) (lats lons : list F) : DataFrame F :=
  {| nrows := nrows df;
     columns := set_column
                  (set_column (columns df) "PREDICTED_LATITUDE" (map VNum lats))
                  "PREDICTED_LONGITUDE" (map VNum lons) |}.

(** The frame [df] with the list as its WITHIN_RADIUS column. *)
Definition with_verdicts (df : DataFrame F) (results : list bool) : DataFrame F :=
  {| nrows := nrows df;
     columns := set_column (columns df) "WITHIN_RADIUS" (map VBool results) |}.


End Vocabulary.

(** ** Missing data on binary64 *)

(** C99 Annex F (F.9): the sine and the cosine of a NaN are a NaN. *)
Definition nan_in_nan_out (m : Binary64.Libm) : Prop :=
  Binary64.c_sin m PrimFloat.nan = PrimFloat.nan /\
  Binary64.c_cos m PrimFloat.nan = PrimFloat.nan.

(** The first-order platform with a cosine that lets a NaN through. *)
Definition nan_aware_platform : Binary64.Libm := {|
  Binary64.c_sin := fun x => x;
  Binary64.c_cos := fun x => if PrimFloat.is_nan x then PrimFloat.nan else 1%float;
  Binary64.c_asin := Binary64.c_asin Binary64.first_order_platform;
  Binary64.c_atan2 := fun y x => (y / x)%float;
  Binary64.c_pow := fun x _ => (x * x)%float
|}.

(** ** More of pandas *)

Section MoreFrames.
Context {F : Type} `{PyFloat F}.

(** [df.columns]: the labels, in their order. *)
Definition labels (df : DataFrame F) : list string := map fst (columns df).

(** [name in df.columns] *)
Definition label_in (name : string) (df : DataFrame F) : bool :=
  existsb (String.eqb name) (labels df).

(** The labels after [df[name] = ...]: a new label goes last. *)
Definition add_label (names : list string) (name : string) : list string :=
  if existsb (String.eqb name) names then names else names ++ [name].

(** The truth value of a cell, as [if], [or] and [not] take it: a number is
    true unless it equals 0 (so NaN is true), a string unless it is empty. *)
Definition truthy (v : value F) : bool :=
  match v with
  | VBool b => b
  | VNum x => negb (feq x (of_int 0))
  | VStr s => negb (String.eqb s "")
  end.

(** [pd.concat(frames, ignore_index=True)]: the rows of the frames one
    after the other under a fresh RangeIndex; the columns are the union of
    the frames' labels in the order of their first appearance, and a frame
    without a label contributes NaN cells to that column. *)
Definition union_labels (frames : list (DataFrame F)) : list string :=
  fold_left (fun names df => fold_left add_label (labels df) names) frames [].

Definition column_or_nan (df : DataFrame F) (name : string) : list (value F) :=
  match assoc name (columns df) with
  | Some col => col
  | None => repeat (VNum nan) (nrows df)
  end.

Definition concat (frames : list (DataFrame F)) : DataFrame F :=
  {| nrows := fold_right (fun df n => (nrows df + n)%nat) 0%nat frames;
     columns := map (fun name => (name, flat_map (fun df => column_or_nan df name) frames))
                    (union_labels frames) |}.

End MoreFrames.

(** ** The CSV log (main.py, lines 172-182) *)

(** A line of a CSV file: the header with the labels, or the cells of one
    row. *)
Inductive csv_line (F : Type) : Type :=
| CsvHeader (names : list string)
| CsvRecord (cells : list (value F)).

Arguments CsvHeader {F} names.
Arguments CsvRecord {F} cells.

(** The regular files, by path, each as its lines.  Directories are not
    modelled: [os.makedirs] changes no file, and is taken to succeed (as it
    does for the directory "data" of the log, unless the disk refuses). *)
Definition file_system (F : Type) : Type := list (string * list (csv_line F)).

Section CsvLog.
Context {F : Type} `{PyFloat F}.

(** [os.path.isfile(file_path)] *)
Definition isfile (fs : file_system F) (file_path : string) : bool :=
  match assoc file_path fs with
  | Some _ => true
  | None => false
  end.

(** What [df.to_csv(..., header=header, index=False)] writes. *)
Definition to_csv_lines (df : DataFrame F) (header : bool) : list (csv_line F) :=
  (if header then [CsvHeader (labels df)] else [])
  ++ map (fun row => CsvRecord (map snd row)) (iterrows df).

(** Opening in mode ['a']: the lines go after those of the file, which is
    created when there is none. *)
Fixpoint append_lines (fs : file_system F) (file_path : string) (lines : list (csv_line F))
  : file_system F :=
  match fs with
  | [] => [(file_path, lines)]
  | (p, old) :: rest =>
      if String.eqb p file_path then (p, old ++ lines) :: rest
      else (p, old) :: append_lines rest file_path lines
  end.

(** [save_to_csv(vessel_data, file_path)] *)
Definition save_to_csv (fs : file_system F) (vessel_data : DataFrame F) (file_path : string)
  : file_system F :=
  let file_exists := isfile fs file_path in
  append_lines fs file_path (to_csv_lines vessel_data (negb file_exists)).

(** The default of [file_path]. *)
Definition vessel_data_log : string := "data/vessel_data_log.csv".

End CsvLog.

(** ** The map (visualize_ships.py) *)

(** A piece of an f-string: literal text, or a cell to be formatted. *)
Inductive fragment (F : Type) : Type :=
| Lit (text : string)
| Fmt (v : value F).

Arguments Lit {F} text.
Arguments Fmt {F} v.

(** The objects of folium, each as the arguments it is built from. *)
Record Marker (F : Type) : Type := {
  marker_location : value F * value F;
  marker_popup : list (fragment F);
  marker_icon_color : string
}.

Record PolyLine (F : Type) : Type := {
  line_locations : (value F * value F) * (value F * value F);
  line_color : string;
  line_weight : Z;
  line_opacity : Z
}.

Inductive child (F : Type) : Type :=
| MarkerChild (marker : Marker F)
| PolyLineChild (line : PolyLine F).

Arguments MarkerChild {F} marker.
Arguments PolyLineChild {F} line.

(** A GeoJSON feature of the search layer; its coordinates are
    [[lon, lat]]. *)
Record Feature (F : Type) : Type := {
  feature_name : value F;
  feature_vessel_type : value F;
  feature_within_radius : string;
  feature_coordinates : value F * value F
}.

(** The map: its centre and zoom, the features of the GeoJson layer "Ship
    Data" that the Search control looks through by ['name'], and the
    children of the FeatureGroup "Ship Markers". *)
Record Map (F : Type) : Type := {
  map_location : value F * value F;
  map_zoom_start : Z;
  ship_data : list (Feature F);
  search_label : string;
  ship_markers : list (child F)
}.

(** What [visualize_ships] leaves behind: the map saved, the name of the
    file it is saved as, and the path whose directory is then made. *)
Record Visualization (F : Type) : Type := {
  saved_map : Map F;
  saved_as : string;
  directory_made_for : string
}.

Section Visualize.
Context {F : Type} `{PyFloat F}.
Local Open Scope string_scope.

(** folium checks a location when a Map, a Marker or a PolyLine is built and
    raises ValueError when it refuses it (in recent versions, for a
    coordinate that is not a number or is NaN).  The check is the library's:
    [folium_accepts] stands for it.  What folium does with the objects once
    they are built, when the map is saved, is not modelled. *)
Variable folium_accepts : value F * value F -> bool.

(** [create_map(center_lat, center_lon, zoom_start=12)]: a map with nothing
    on it yet. *)
Definition create_map (center_lat center_lon : value F) : result (Map F) :=
  if folium_accepts (center_lat, center_lon)
  then Ok {| map_location := (center_lat, center_lon);
             map_zoom_start := 12;
             ship_data := [];
             search_label := "";
             ship_markers := [] |}
  else Raise ValueError.

(** [folium.Marker(location=..., popup=..., icon=folium.Icon(color=color))] *)
Definition folium_Marker (location : value F * value F) (popup : list (fragment F))
    (color : string) : result (Marker F) :=
  if folium_accepts location
  then Ok {| marker_location := location; marker_popup := popup;
             marker_icon_color := color |}
  else Raise ValueError.

(** [folium.PolyLine(locations=..., color=color, weight=1, opacity=1)] *)
Definition folium_PolyLine (locations : (value F * value F) * (value F * value F))
    (color : string) : result (PolyLine F) :=
  if folium_accepts (fst locations) && folium_accepts (snd locations)
  then Ok {| line_locations := locations; line_color := color;
             line_weight := 1; line_opacity := 1 |}
  else Raise ValueError.

(** [add_ship_marker(marker_cluster, lat, lon, name, vessel_type,
    is_within_radius, predicted_lat, predicted_lon)]: the cluster with the
    marker and the line added, and the marker. *)
Definition add_ship_marker (marker_cluster : list (child F))
    (lat lon name vessel_type is_within_radius predicted_lat predicted_lon : value F)
  : result (list (child F) * Marker F) :=
  let color := if truthy is_within_radius then "green" else "orange" in
  let popup_content :=
    [ Lit " 
    <strong>🚢Ship:</strong> "; Fmt name; Lit "<br>
    <strong>Type:</strong> "; Fmt vessel_type; Lit "<br>
    <strong>Within Radius:</strong> ";
      Lit (if truthy is_within_radius then "Yes✅" else "No❌"); Lit "
    " ] in
  marker <- folium_Marker (lat, lon) popup_content color ;;
  let marker_cluster := (marker_cluster ++ [MarkerChild marker])%list in
  line <- folium_PolyLine ((lat, lon), (predicted_lat, predicted_lon)) color ;;
  let marker_cluster := (marker_cluster ++ [PolyLineChild line])%list in
  Ok (marker_cluster, marker).

(** The body of the loop of [visualize_ships] for one row, on the marker
    cluster and the list of features as they stand. *)
Definition visualize_row (marker_cluster : list (child F)) (features : list (Feature F))
    (row : Row F) : result (list (child F) * list (Feature F)) :=
  lat <- row_get row "LATITUDE" ;;
  lon <- row_get row "LONGITUDE" ;;
  name <- row_get row "NAME" ;;
  vessel_type <- row_get row "VESSEL_TYPE" ;;
  predicted_lat <- row_get row "PREDICTED_LATITUDE" ;;
  predicted_lon <- row_get row "PREDICTED_LONGITUDE" ;;
  is_within_radius <- row_get row "WITHIN_RADIUS" ;;
  if truthy is_within_radius || negb (truthy is_within_radius) then
    let color := if truthy is_within_radius then "green" else "orange" in
    marker <- folium_Marker (lat, lon)
                [ Lit "
                <strong>🚢Ship:</strong> "; Fmt name; Lit "<br>
                <strong>Type:</strong> "; Fmt vessel_type; Lit "<br>
                <strong>Within Radius:</strong> ";
                  Lit (if truthy is_within_radius then "Yes✅" else "No❌"); Lit "
                " ]
                color ;;
    let marker_cluster := (marker_cluster ++ [MarkerChild marker])%list in
    line <- folium_PolyLine ((lat, lon), (predicted_lat, predicted_lon)) color ;;
    let marker_cluster := (marker_cluster ++ [PolyLineChild line])%list in
    let feature :=
      {| feature_name := name;
         feature_vessel_type := vessel_type;
         feature_within_radius := if truthy is_within_radius then "Yes" else "No";
         feature_coordinates := (lon, lat) |} in
    Ok (marker_cluster, (features ++ [feature])%list)
  else Ok (marker_cluster, features).

Fixpoint visualize_rows (marker_cluster : list (child F)) (features : list (Feature F))
    (rows : list (Row F)) : result (list (child F) * list (Feature F)) :=
  match rows with
  | [] => Ok (marker_cluster, features)
  | row :: rest =>
      ' (marker_cluster, features) <- visualize_row marker_cluster features row ;;
      visualize_rows marker_cluster features rest
  end.

(** [visualize_ships(vessel_df, default_location)]; [html_path] is the path
    that the configuration gives for the map.  [Ok v]: the loop is through
    and the map is handed to [save]; the call of [os.makedirs] after it is
    recorded in [v], its outcome is not modelled. *)
Definition visualize_ships (vessel_df : DataFrame F) (default_location : Row F)
    (html_path : string) : result (Visualization F) :=
  center_lat <- row_get default_location "latitude" ;;
  center_lon <- row_get default_location "longitude" ;;
  map_obj <- create_map center_lat center_lon ;;
  ' (marker_cluster, features) <- visualize_rows [] [] (iterrows vessel_df) ;;
  let map_obj :=
    {| map_location := map_location map_obj;
       map_zoom_start := map_zoom_start map_obj;
       ship_data := features;
       search_label := "name";
       ship_markers := marker_cluster |} in
  Ok {| saved_map := map_obj;
        saved_as := "html_path";
        directory_made_for := html_path |}.

End Visualize.

(** ** The sampling script with its effects (vessel_data_script.py, lines 42-88) *)

(** What the loop has done so far: the requests made, the seconds slept
    (one [time.sleep(1)] each), the files, and the frames kept for the
    map. *)
Record script_state (F : Type) : Type := {
  requests : nat;
  seconds_slept : nat;
  files : file_system F;
  combined_vessel_data : list (DataFrame F)
}.

(** How the script ends: it returns, or raises one of the exceptions of the
    sampling cycle, or ZeroDivisionError. *)
Inductive outcome (A : Type) : Type :=
| Returns (a : A)
| Raises (e : exn)
| RaisesZeroDivisionError.

Arguments Returns {A} a.
Arguments Raises {A} e.
Arguments RaisesZeroDivisionError {A}.

Section Script.
Context {F : Type} `{PyFloat F}.

(** [range(n)] for a Python [int]. *)
Definition range (n : Z) : list Z := map Z.of_nat (seq 0 (Z.to_nat n)).

(** [for _ in tqdm(range(n)): time.sleep(1)] *)
Definition sleep_each_second (n : Z) (st : script_state F) : script_state F :=
  {| requests := requests st;
     seconds_slept := seconds_slept st + List.length (range n);
     files := files st;
     combined_vessel_data := combined_vessel_data st |}.

(** Iteration [i] of the loop (lines 46-80): the sampling cycle, then the
    frame saved and kept, then the wait, unless it is the last one. *)
Definition sampling_iteration (net : nat -> api_reply F)
    (radius_km prediction_time_minutes : F) (interval_minutes total_iterations i : Z)
    (st : script_state F) : result (script_state F) :=
  ' (collected, calls) <-
    retrieval_iteration net (requests st) radius_km prediction_time_minutes ;;
  let st :=
    match collected with
    | Some vessel_data =>
        {| requests := calls;
           seconds_slept := seconds_slept st;
           files := save_to_csv (files st) vessel_data vessel_data_log;
           combined_vessel_data := combined_vessel_data st ++ [vessel_data] |}
    | None =>
        {| requests := calls;
           seconds_slept := seconds_slept st;
           files := files st;
           combined_vessel_data := combined_vessel_data st |}
    end in
  Ok (if (i <? total_iterations - 1)%Z
      then sleep_each_second (interval_minutes * 60) st
      else st).

Fixpoint sampling_loop (net : nat -> api_reply F)
    (radius_km prediction_time_minutes : F) (interval_minutes total_iterations : Z)
    (indices : list Z) (st : script_state F) : result (script_state F) :=
  match indices with
  | [] => Ok st
  | i :: rest =>
      st <- sampling_iteration net radius_km prediction_time_minutes
              interval_minutes total_iterations i st ;;
      sampling_loop net radius_km prediction_time_minutes
        interval_minutes total_iterations rest st
  end.

(** [retrieve_vessel_data_periodically(latitude, longitude, radius,
    interval_minutes, total_duration_minutes)] with its effects, from the
    files as they are at the start: the final state, and the map when one
    is made. *)
Definition retrieve_vessel_data_periodically_effects
    (folium_accepts : value F * value F -> bool)
    (net : nat -> api_reply F) (radius_km prediction_time_minutes : F)
    (default_location : Row F) (html_path : string) (fs : file_system F)
    (interval_minutes total_duration_minutes : Z)
  : outcome (script_state F * option (Visualization F)) :=
  if (interval_minutes =? 0)%Z then RaisesZeroDivisionError
  else
    let total_iterations := (total_duration_minutes / interval_minutes)%Z in
    match sampling_loop net radius_km prediction_time_minutes
            interval_minutes total_iterations (range total_iterations)
            {| requests := 0; seconds_slept := 0; files := fs;
               combined_vessel_data := [] |} with
    | Raise e => Raises e
    | Ok st =>
        match combined_vessel_data st with
        | [] => Returns (st, None)
        | _ :: _ =>
            let final_vessel_data := concat (combined_vessel_data st) in
            match visualize_ships folium_accepts final_vessel_data
                    default_location html_path with
            | Ok v => Returns (st, Some v)
            | Raise e => Raises e
            end
        end
    end.

End Script.

(** ** More sample data *)

Module Samples.

Local Open Scope float_scope.
Local Open Scope string_scope.

(** The feed when it always lists the one vessel 111. *)
Definition steady_feed : nat -> api_reply float :=
  fun _ => Json (frame_of [Examples.vessel_111]).

(** The frame of that vessel after one sampling cycle. *)
Definition tracked : DataFrame float :=
  {| nrows := 1;
     columns :=
       [ ("MMSI", [VNum 111]); ("NAME", [VStr "ALFA"]);
         ("LATITUDE", [VNum 0]); ("LONGITUDE", [VNum 0]);
         ("COG", [VNum 0]); ("SOG", [VNum 0]); ("VESSEL_TYPE", [VStr "Cargo"]);
         ("PREDICTED_LATITUDE", [VNum 0]); ("PREDICTED_LONGITUDE", [VNum 0]);
         ("NEW_LATITUDE", [VNum 0]); ("NEW_LONGITUDE", [VNum 0]);
         ("WITHIN_RADIUS", [VBool true]) ] |}.

(** The default of [default_location] in the configuration. *)
Definition default_location : Row float :=
  [("latitude", VNum 0); ("longitude", VNum 0)].

(** A folium that accepts every location. *)
Definition accepts_all : value float * value float -> bool := fun _ => true.

End Samples.

(** * Properties *)

Unset Implicit Arguments.

(** ** The error monad *)

Lemma bind_Ok {A B : Type} (c : result A) (k : A -> result B) (b : B) :
  bind c k = Ok b <-> exists a, c = Ok a /\ k a = Ok b.
Proof.
  destruct c as [a | e]; cbn; split.
  - intros E. exists a. split; [reflexivity | exact E].
  - intros (a' & Ea & Ek). injection Ea as <-. exact Ek.
  - discriminate.
  - intros (a' & Ea & _). discriminate.
Qed.


Lemma Ok_inj {A : Type} (x y : A) : Ok x = Ok y -> x = y.
Proof.
  intros E.
  change (match Ok x with Ok z => z | Raise _ => x end = y).
  rewrite E. reflexivity.
Qed.

(** ** Columns and rows *)

Section FrameFacts.
Context {F : Type} `{PyFloat F}.

Lemma assoc_set_column_same (cols : list (string * list (value F))) name cells :
  assoc name (set_column cols name cells) = Some cells.
Proof.
  induction cols as [| [k v] rest IH]; cbn.
  - rewrite String.eqb_refl. reflexivity.
  - destruct (String.eqb k name) eqn:E; cbn; rewrite E; [reflexivity | exact IH].
Qed.

Lemma assoc_set_column_other (cols : list (string * list (value F))) name name' cells :
  name' <> name ->
  assoc name' (set_column cols name cells) = assoc name' cols.
Proof.
  intros N. induction cols as [| [k v] rest IH]; cbn.
  - destruct (String.eqb name name') eqn:E; [| reflexivity].
    apply String.eqb_eq in E. congruence.
  - destruct (String.eqb k name) eqn:E; cbn.
    + apply String.eqb_eq in E. subst k.
      destruct (String.eqb name name') eqn:E'; [| reflexivity].
      apply String.eqb_eq in E'. congruence.
    + rewrite IH. reflexivity.
Qed.

Lemma iterrows_length (df : DataFrame F) : List.length (iterrows df) = nrows df.
Proof. unfold iterrows. rewrite length_map, length_seq. reflexivity. Qed.

Lemma iterrows_nth (df : DataFrame F) i :
  (i < nrows df)%nat -> nth i (iterrows df) [] = row_at df i.
Proof.
  intros L. unfold iterrows.
  rewrite (nth_indep _ [] (row_at df 0)) by (rewrite length_map, length_seq; exact L).
  rewrite map_nth, seq_nth by exact L. reflexivity.
Qed.

(** The loop of [predict_future_positions] returns exactly when every row
    does, with the rows' results in the rows' order. *)
Lemma predict_rows_Ok (rows : list (Row F)) t lats lons :
  predict_rows rows t = Ok (lats, lons) <->
  List.length lats = List.length rows /\ List.length lons = List.length rows /\
  forall i, (i < List.length rows)%nat ->
    predict_row (nth i rows []) t = Ok (nth i lats nan, nth i lons nan).
Proof.
  revert lats lons. induction rows as [| row rest IH]; intros lats lons; cbn [predict_rows].
  - split.
    + intros E. injection E as <- <-. cbn. repeat split; intros; lia.
    + intros (L1 & L2 & _). destruct lats, lons; try discriminate. reflexivity.
  - rewrite bind_Ok. split.
    + intros ([plat plon] & Er & E). rewrite bind_Ok in E.
      destruct E as ([lats' lons'] & Erest & E). injection E as <- <-.
      apply IH in Erest. destruct Erest as (L1 & L2 & N).
      cbn. repeat split; try lia.
      intros [| i] L; [exact Er | apply N; lia].
    + intros (L1 & L2 & N). destruct lats as [| plat lats']; [discriminate |].
      destruct lons as [| plon lons']; [discriminate |].
      exists (plat, plon). split.
      * apply (N 0%nat). cbn. lia.
      * rewrite bind_Ok. exists (lats', lons'). split; [| reflexivity].
        apply IH. cbn in L1, L2. repeat split; try lia.
        intros i L. apply (N (S i)). cbn. lia.
Qed.

(** A row that raises ends the loop. *)
Lemma predict_rows_Raise (rows : list (Row F)) t i e :
  (i < List.length rows)%nat ->
  predict_row (nth i rows []) t = Raise e ->
  exists e', predict_rows rows t = Raise e'.
Proof.
  revert i. induction rows as [| row rest IH]; intros i L E; cbn in L; [lia |].
  cbn [predict_rows]. destruct i as [| i]; cbn in E.
  - rewrite E. exists e. reflexivity.
  - destruct (predict_row row t) as [[plat plon] |]; cbn; [| eexists; reflexivity].
    destruct (IH i ltac:(lia) E) as (e' & ->). exists e'. reflexivity.
Qed.

Lemma check_rows_Ok (rows : list (Row F)) r results :
  check_rows rows r = Ok results <->
  List.length results = List.length rows /\
  forall i, (i < List.length rows)%nat ->
    check_row (nth i rows []) r = Ok (nth i results false).
Proof.
  revert results. induction rows as [| row rest IH]; intros results; cbn [check_rows].
  - split.
    + intros E. injection E as <-. cbn. split; intros; lia.
    + intros (L & _). destruct results; try discriminate. reflexivity.
  - rewrite bind_Ok. split.
    + intros (w & Er & E). rewrite bind_Ok in E.
      destruct E as (ws & Erest & E). injection E as <-.
      apply IH in Erest. destruct Erest as (L & N).
      cbn. split; try lia.
      intros [| i] Li; [exact Er | apply N; lia].
    + intros (L & N). destruct results as [| w ws]; [discriminate |].
      exists w. split.
      * apply (N 0%nat). cbn. lia.
      * rewrite bind_Ok. exists ws. split; [| reflexivity].
        apply IH. cbn in L. split; try lia.
        intros i Li. apply (N (S i)). cbn. lia.
Qed.

End FrameFacts.

(** ** Comparisons in the two semantics *)

Lemma binary64_eq_le (x y : float) :
  PrimFloat.eqb x y = true -> PrimFloat.leb x y = true.
Proof.
  rewrite FloatAxioms.eqb_spec, FloatAxioms.leb_spec.
  unfold SFeqb, SFleb. destruct (SFcompare _ _) as [[| |] |]; congruence.
Qed.

Lemma exact_eq_le (x y : Exact.xreal) :
  Exact.xeq x y = true -> Exact.xle x y = true.
Proof.
  destruct x as [x |], y as [y |]; cbn; try discriminate.
  destruct (Req_dec_T x y) as [-> | N]; [| discriminate].
  intros _. destruct (Rle_dec y y) as [L | N]; [reflexivity |].
  exfalso. apply N. apply Rle_refl.
Qed.

(** ** The point-in-circle test *)

(** C6.  The point-in-circle test returns true exactly when the great-circle
    distance from the centre to the point is computed and is [<=] the radius,
    and false exactly when it is computed and is not; it raises what the
    distance raises.  A distance equal ([==]) to the radius is inside, in
    binary64 as in exact arithmetic. *)
Theorem is_point_within_circle_iff_distance_le :
  (forall (F : Type) (sem : PyFloat F) (center_lat center_lon radius_km point_lat point_lon : F),
     (forall b,
        is_point_within_circle center_lat center_lon radius_km point_lat point_lon = Ok b <->
        exists d, haversine center_lat center_lon point_lat point_lon = Ok d /\
                  fle d radius_km = b) /\
     (forall e,
        is_point_within_circle center_lat center_lon radius_km point_lat point_lon = Raise e <->
        haversine center_lat center_lon point_lat point_lon = Raise e)) /\
  (forall (m : Binary64.Libm) (d radius_km : float),
     @feq _ (Binary64.sem m) d radius_km = true ->
     @fle _ (Binary64.sem m) d radius_km = true) /\
  (forall d radius_km : Exact.xreal,
     @feq _ Exact.sem d radius_km = true -> @fle _ Exact.sem d radius_km = true).
Proof.
  split; [| split].
  - intros F sem clat clon r plat plon. unfold is_point_within_circle. split.
    + intros b. rewrite bind_Ok. split.
      * intros (d & Ed & E). injection E as <-. exists d. split; [exact Ed | reflexivity].
      * intros (d & Ed & <-). exists d. split; [exact Ed | reflexivity].
    + intros e. destruct (haversine clat clon plat plon) as [d | e']; cbn.
      * split; discriminate.
      * split; intros E; injection E as ->; reflexivity.
  - intros m d r. cbn. apply binary64_eq_le.
  - intros d r. cbn. apply exact_eq_le.
Qed.

(** ** The batch operations *)

Section Batch.
Context {F : Type} `{PyFloat F}.

Lemma predict_future_positions_Ok (df df' : DataFrame F) t :
  predict_future_positions df t = Ok df' <->
  exists lats lons,
    List.length lats = nrows df /\ List.length lons = nrows df /\
    (forall i, (i < nrows df)%nat ->
       predict_row (row_at df i) t = Ok (nth i lats nan, nth i lons nan)) /\
    df' = with_predictions df lats lons.
Proof.
  unfold predict_future_positions. rewrite bind_Ok. split.
  - intros ([lats lons] & Er & E). apply predict_rows_Ok in Er.
    rewrite iterrows_length in Er. destruct Er as (L1 & L2 & N).
    unfold setitem_list in E. rewrite length_map, L1, Nat.eqb_refl in E.
    cbn in E. rewrite length_map, L2, Nat.eqb_refl in E. cbn in E.
    injection E as <-. exists lats, lons. repeat split; try assumption.
    intros i L. rewrite <- (iterrows_nth df i L). apply N. exact L.
  - intros (lats & lons & L1 & L2 & N & ->). exists (lats, lons). split.
    + apply predict_rows_Ok. rewrite iterrows_length. repeat split; try assumption.
      intros i L. rewrite (iterrows_nth df i L). apply N. exact L.
    + unfold setitem_list. rewrite length_map, L1, Nat.eqb_refl.
      cbn. rewrite length_map, L2, Nat.eqb_refl. reflexivity.
Qed.

Lemma predict_future_positions_Raise (df : DataFrame F) t i e :
  (i < nrows df)%nat ->
  predict_row (row_at df i) t = Raise e ->
  exists e', predict_future_positions df t = Raise e'.
Proof.
  intros L E. unfold predict_future_positions.
  destruct (@predict_rows_Raise F _ (iterrows df) t i e) as (e' & ->).
  - rewrite iterrows_length. exact L.
  - rewrite (iterrows_nth df i L). exact E.
  - exists e'. reflexivity.
Qed.

Lemma row_at_set_column_other (df df' : DataFrame F) name name' cells i :
  columns df' = set_column (columns df) name cells ->
  name' <> name ->
  row_get (row_at df' i) name' = row_get (row_at df i) name'.
Proof.
  intros E N. unfold row_get, row_at. rewrite E. clear E.
  induction (columns df) as [| [k v] rest IH]; cbn.
  - destruct (String.eqb name name') eqn:E1; [| reflexivity].
    apply String.eqb_eq in E1. congruence.
  - destruct (String.eqb k name) eqn:E1; cbn.
    + apply String.eqb_eq in E1. subst k.
      destruct (String.eqb name name') eqn:E2; [| reflexivity].
      apply String.eqb_eq in E2. congruence.
    + destruct (String.eqb k name'); [reflexivity | exact IH].
Qed.

Lemma row_at_set_column_same (df df' : DataFrame F) name cells i :
  columns df' = set_column (columns df) name cells ->
  row_get (row_at df' i) name = Ok (nth i cells (VNum nan)).
Proof.
  intros E. unfold row_get, row_at. rewrite E. clear E.
  induction (columns df) as [| [k v] rest IH]; cbn.
  - rewrite String.eqb_refl. reflexivity.
  - destruct (String.eqb k name) eqn:E1; cbn; rewrite E1; [reflexivity | exact IH].
Qed.

Lemma with_predictions_frame (df : DataFrame F) lats lons :
  nrows (with_predictions df lats lons) = nrows df /\
  (forall name i,
     name <> "PREDICTED_LATITUDE"%string -> name <> "PREDICTED_LONGITUDE"%string ->
     row_get (row_at (with_predictions df lats lons) i) name = row_get (row_at df i) name) /\
  (forall name,
     name <> "PREDICTED_LATITUDE"%string -> name <> "PREDICTED_LONGITUDE"%string ->
     getitem (with_predictions df lats lons) name = getitem df name) /\
  (forall i,
     row_get (row_at (with_predictions df lats lons) i) "PREDICTED_LATITUDE" =
       Ok (nth i (map VNum lats) (VNum nan)) /\
     row_get (row_at (with_predictions df lats lons) i) "PREDICTED_LONGITUDE" =
       Ok (nth i (map VNum lons) (VNum nan))).
Proof.
  set (mid := {| nrows := nrows df;
                 columns := set_column (columns df) "PREDICTED_LATITUDE" (map VNum lats) |}).
  assert (Emid : columns mid = set_column (columns df) "PREDICTED_LATITUDE" (map VNum lats))
    by reflexivity.
  assert (Eout : columns (with_predictions df lats lons) =
                 set_column (columns mid) "PREDICTED_LONGITUDE" (map VNum lons))
    by reflexivity.
  split; [reflexivity |]. split; [| split].
  - intros name i N1 N2.
    rewrite (@row_at_set_column_other _ _ _ _ _ i Eout N2).
    apply (@row_at_set_column_other _ _ _ _ _ i Emid N1).
  - intros name N1 N2. unfold getitem. rewrite Eout, Emid.
    rewrite !assoc_set_column_other by assumption. reflexivity.
  - intros i. split.
    + rewrite (@row_at_set_column_other _ _ _ _ _ i Eout) by discriminate.
      apply (@row_at_set_column_same _ _ _ _ i Emid).
    + apply (@row_at_set_column_same _ _ _ _ i Eout).
Qed.

Lemma check_within_radius_Ok (df df' : DataFrame F) r :
  check_within_radius df r = Ok df' <->
  exists results,
    List.length results = nrows df /\
    (forall i, (i < nrows df)%nat ->
       check_row (row_at df i) r = Ok (nth i results false)) /\
    df' = with_verdicts df results.
Proof.
  unfold check_within_radius. rewrite bind_Ok. split.
  - intros (results & Er & E). apply check_rows_Ok in Er.
    rewrite iterrows_length in Er. destruct Er as (L & N).
    unfold setitem_list in E. rewrite length_map, L, Nat.eqb_refl in E.
    apply Ok_inj in E. subst df'. exists results. repeat split; try assumption.
    intros i Li. rewrite <- (iterrows_nth df i Li). apply N. exact Li.
  - intros (results & L & N & ->). exists results. split.
    + apply check_rows_Ok. rewrite iterrows_length. split; [exact L |].
      intros i Li. rewrite (iterrows_nth df i Li). apply N. exact Li.
    + unfold setitem_list. rewrite length_map, L, Nat.eqb_refl. reflexivity.
Qed.

Lemma with_verdicts_frame (df : DataFrame F) results :
  nrows (with_verdicts df results) = nrows df /\
  (forall name i,
     name <> "WITHIN_RADIUS"%string ->
     row_get (row_at (with_verdicts df results) i) name = row_get (row_at df i) name) /\
  (forall i,
     row_get (row_at (with_verdicts df results) i) "WITHIN_RADIUS" =
       Ok (nth i (map VBool results) (VNum nan))).
Proof.
  assert (E : columns (with_verdicts df results) =
              set_column (columns df) "WITHIN_RADIUS" (map VBool results))
    by reflexivity.
  split; [reflexivity |]. split.
  - intros name i N. apply (@row_at_set_column_other _ _ _ _ _ i E N).
  - intros i. apply (@row_at_set_column_same _ _ _ _ i E).
Qed.

End Batch.

(** C9.  The batch prediction is an order-preserving per-record map.  It
    returns exactly when the prediction of every row returns, and then its
    result is the input frame with two columns set: the index is the same,
    every cell under any other label is the cell of the input at the same
    row, and the predicted position at row [i] is [predict_row] of row [i] of
    the input, which reads that row's LATITUDE, LONGITUDE, COG and SOG and
    nothing else.  [check_within_radius] is such a map too, with the one
    column WITHIN_RADIUS. *)
Theorem predict_future_positions_is_a_map :
  forall (F : Type) (sem : PyFloat F) (df : DataFrame F) (time_minutes radius_km : F),
    (forall df',
       predict_future_positions df time_minutes = Ok df' <->
       exists lats lons,
         List.length lats = nrows df /\ List.length lons = nrows df /\
         (forall i, (i < nrows df)%nat ->
            predict_row (row_at df i) time_minutes = Ok (nth i lats nan, nth i lons nan)) /\
         df' = with_predictions df lats lons) /\
    (forall lats lons,
       nrows (with_predictions df lats lons) = nrows df /\
       (forall name i,
          name <> "PREDICTED_LATITUDE"%string -> name <> "PREDICTED_LONGITUDE"%string ->
          row_get (row_at (with_predictions df lats lons) i) name =
          row_get (row_at df i) name) /\
       (forall name,
          name <> "PREDICTED_LATITUDE"%string -> name <> "PREDICTED_LONGITUDE"%string ->
          getitem (with_predictions df lats lons) name = getitem df name) /\
       (forall i,
          row_get (row_at (with_predictions df lats lons) i) "PREDICTED_LATITUDE" =
            Ok (nth i (map VNum lats) (VNum nan)) /\
          row_get (row_at (with_predictions df lats lons) i) "PREDICTED_LONGITUDE" =
            Ok (nth i (map VNum lons) (VNum nan)))) /\
    (forall df',
       check_within_radius df radius_km = Ok df' <->
       exists results,
         List.length results = nrows df /\
         (forall i, (i < nrows df)%nat ->
            check_row (row_at df i) radius_km = Ok (nth i results false)) /\
         df' = with_verdicts df results) /\
    (forall results,
       nrows (with_verdicts df results) = nrows df /\
       (forall name i,
          name <> "WITHIN_RADIUS"%string ->
          row_get (row_at (with_verdicts df results) i) name =
          row_get (row_at df i) name) /\
       (forall i,
          row_get (row_at (with_verdicts df results) i) "WITHIN_RADIUS" =
            Ok (nth i (map VBool results) (VNum nan)))).
Proof.
  intros F sem df t r. split; [| split; [| split]].
  - intros df'. apply predict_future_positions_Ok.
  - intros lats lons. apply with_predictions_frame.
  - intros df'. apply check_within_radius_Ok.
  - intros results. apply with_verdicts_frame.
Qed.

(** ** Exact arithmetic *)

Section ExactFacts.
Import Exact.
Local Open Scope R_scope.

(** A component of the product of two unit vectors: Cauchy-Schwarz in the
    form both formulas need. *)
Lemma unit_product_bound (a b c d e : R) :
  a * a + b * b = 1 -> c * c + d * d = 1 -> -1 <= e <= 1 ->
  -1 <= a * c + b * d * e <= 1.
Proof.
  intros U V E.
  assert (S : (a * c + b * d * e) * (a * c + b * d * e) <= 1).
  { assert (I : (a * a + b * b) * (c * c + d * d)
                - (a * c + b * d * e) * (a * c + b * d * e)
                = (a * d * e - b * c) * (a * d * e - b * c)
                  + (a * a + b * b) * (d * d * (1 - e * e))) by ring.
    rewrite U, V in I.
    assert (P1 : 0 <= (a * d * e - b * c) * (a * d * e - b * c))
      by apply Rle_0_sqr.
    assert (P2 : 0 <= d * d * (1 - e * e)).
    { apply Rmult_le_pos; [apply Rle_0_sqr | nra]. }
    lra. }
  split; nra.
Qed.

Lemma sin_cos_unit (x : R) : sin x * sin x + cos x * cos x = 1.
Proof. pose proof (sin2_cos2 x) as P. unfold Rsqr in P. exact P. Qed.

Lemma cos_unit_interval (x : R) : -1 <= cos x <= 1.
Proof. apply COS_bound. Qed.

Lemma asin_argument_bound phi delta theta : -1 <= asin_argument phi delta theta <= 1.
Proof.
  unfold asin_argument. apply unit_product_bound.
  - apply sin_cos_unit.
  - rewrite Rplus_comm. apply sin_cos_unit.
  - apply cos_unit_interval.
Qed.

(** [predict_position] on real numbers returns, with these values. *)
Lemma exact_predict_position (lat lon crs spd t : R) :
  let phi := lat * (PI / 180) in
  let delta := spd / 60 * t / (3440065 / 1000) in
  let theta := crs * (PI / 180) in
  let plat := asin (asin_argument phi delta theta) in
  predict_position (Real lat) (Real lon) (Real crs) (Real spd) (Real t) =
  Ok (Real (plat * (180 / PI)),
      Real ((lon * (PI / 180) +
             Ratan2 (sin theta * sin delta * cos phi) (cos delta - sin phi * sin plat))
            * (180 / PI))).
Proof.
  intros phi delta theta plat. unfold predict_position. cbn.
  fold phi theta delta. fold (asin_argument phi delta theta).
  destruct (asin_argument_bound phi delta theta) as [L U].
  destruct (Rle_dec (-1) (asin_argument phi delta theta)) as [_ | N]; [| contradiction].
  destruct (Rle_dec (asin_argument phi delta theta) 1) as [_ | N]; [| contradiction].
  cbn. reflexivity.
Qed.

(** *** The predicted latitude *)

Lemma exact_predicted_latitude_range (phi delta theta : R) :
  -90 <= asin (asin_argument phi delta theta) * (180 / PI) <= 90.
Proof.
  pose proof (asin_bound (asin_argument phi delta theta)) as [L U].
  pose proof PI_RGT_0 as P.
  assert (I : 0 < 180 / PI) by (apply Rdiv_lt_0_compat; lra).
  assert (E1 : PI / 2 * (180 / PI) = 90) by (field; lra).
  assert (E2 : - (PI / 2) * (180 / PI) = -90) by (field; lra).
  split.
  - rewrite <- E2. apply Rmult_le_compat_r; lra.
  - rewrite <- E1. apply Rmult_le_compat_r; lra.
Qed.

(** *** The predicted longitude *)

Lemma Ratan2_bound (y x : R) : - PI <= Ratan2 y x <= PI.
Proof.
  pose proof PI_RGT_0 as P. unfold Ratan2.
  pose proof (atan_bound (y / x)) as [L U].
  destruct (Rlt_dec 0 x) as [X | X]; [lra |].
  destruct (Rlt_dec x 0) as [X' | X'].
  - destruct (Rle_dec 0 y) as [Y | Y].
    + assert (Q : y / x <= 0).
      { pose proof (Rinv_lt_0_compat x X') as I. unfold Rdiv. nra. }
      assert (A : atan (y / x) <= 0).
      { rewrite <- atan_0. destruct Q as [Q | Q].
        - apply Rlt_le. apply atan_increasing. exact Q.
        - rewrite Q. apply Rle_refl. }
      lra.
    + assert (Q : 0 < y / x).
      { pose proof (Rinv_lt_0_compat x X') as I. unfold Rdiv. nra. }
      assert (A : 0 < atan (y / x)).
      { rewrite <- atan_0. apply atan_increasing. exact Q. }
      lra.
  - destruct (Rlt_dec 0 y); [lra |]. destruct (Rlt_dec y 0); lra.
Qed.

Lemma Ratan2_of_angle (delta : R) :
  0 < delta < PI / 2 -> Ratan2 (sin delta) (cos delta) = delta.
Proof.
  intros [L U]. unfold Ratan2.
  assert (C : 0 < cos delta) by (apply cos_gt_0; lra).
  destruct (Rlt_dec 0 (cos delta)) as [_ | N]; [| contradiction].
  fold (tan delta). apply atan_tan. lra.
Qed.

Lemma Ratan2_zero_nonneg (x : R) : 0 <= x -> Ratan2 0 x = 0.
Proof.
  intros X. unfold Ratan2.
  destruct (Rlt_dec 0 x) as [P | P].
  - unfold Rdiv. rewrite Rmult_0_l. apply atan_0.
  - destruct (Rlt_dec x 0) as [Q | Q]; [lra |].
    destruct (Rlt_dec 0 0) as [Z | Z]; [lra |]. reflexivity.
Qed.

(** Ten nautical miles due east from (0 N, 180 E) end past 180 E. *)
Lemma exact_longitude_past_180 :
  exists plat plon,
    predict_position (Real 0) (Real 180) (Real 90) (Real 60) (Real 10) =
      Ok (Real plat, Real plon) /\ 180 < plon.
Proof.
  pose proof PI_RGT_0 as P. pose proof PI2_1 as P1.
  eexists. eexists. split; [apply exact_predict_position |].
  set (delta := 60 / 60 * 10 / (3440065 / 1000)).
  assert (D : 0 < delta < PI / 2) by (unfold delta; split; lra).
  replace (0 * (PI / 180)) with 0 by ring.
  replace (90 * (PI / 180)) with (PI / 2) by (field; lra).
  assert (A : asin_argument 0 delta (PI / 2) = 0).
  { unfold asin_argument. rewrite sin_0, cos_0, cos_PI2. ring. }
  rewrite A, asin_0, sin_0, cos_0, sin_PI2.
  replace (1 * sin delta * 1) with (sin delta) by ring.
  replace (cos delta - 0 * 0) with (cos delta) by ring.
  rewrite (Ratan2_of_angle delta D).
  assert (I : 0 < 180 / PI) by (apply Rdiv_lt_0_compat; lra).
  replace ((180 * (PI / 180) + delta) * (180 / PI))
    with (180 + delta * (180 / PI)) by (field; lra).
  assert (0 < delta * (180 / PI)) by (apply Rmult_lt_0_compat; lra).
  lra.
Qed.

Lemma exact_predicted_longitude_range (lon A : R) :
  - PI <= A <= PI ->
  lon - 180 <= (lon * (PI / 180) + A) * (180 / PI) <= lon + 180.
Proof.
  intros [L U]. pose proof PI_RGT_0 as P.
  assert (I : 0 < 180 / PI) by (apply Rdiv_lt_0_compat; lra).
  replace ((lon * (PI / 180) + A) * (180 / PI)) with (lon + A * (180 / PI))
    by (field; lra).
  assert (E1 : PI * (180 / PI) = 180) by (field; lra).
  assert (E2 : - PI * (180 / PI) = -180) by (field; lra).
  assert (A * (180 / PI) <= PI * (180 / PI)) by (apply Rmult_le_compat_r; lra).
  assert (- PI * (180 / PI) <= A * (180 / PI)) by (apply Rmult_le_compat_r; lra).
  lra.
Qed.

(** *** No distance travelled *)

Lemma exact_no_travel (lat lon crs spd t : R) :
  -90 <= lat <= 90 -> spd = 0 \/ t = 0 ->
  predict_position (Real lat) (Real lon) (Real crs) (Real spd) (Real t) =
  Ok (Real lat, Real lon).
Proof.
  intros [L U] Z. pose proof PI_RGT_0 as P.
  rewrite exact_predict_position.
  assert (D : spd / 60 * t / (3440065 / 1000) = 0).
  { destruct Z as [-> | ->]; field. }
  rewrite D. set (phi := lat * (PI / 180)).
  assert (B : - (PI / 2) <= phi <= PI / 2).
  { unfold phi. split.
    - replace (- (PI / 2)) with (-90 * (PI / 180)) by field.
      apply Rmult_le_compat_r; lra.
    - replace (PI / 2) with (90 * (PI / 180)) by field.
      apply Rmult_le_compat_r; lra. }
  assert (A : asin_argument phi 0 (crs * (PI / 180)) = sin phi).
  { unfold asin_argument. rewrite sin_0, cos_0. ring. }
  rewrite A, (asin_sin phi B), sin_0, cos_0.
  replace (sin (crs * (PI / 180)) * 0 * cos phi) with 0 by ring.
  rewrite Ratan2_zero_nonneg.
  - f_equal. f_equal; f_equal; unfold phi; field; lra.
  - pose proof (sin_cos_unit phi) as S.
    assert (0 <= cos phi * cos phi) by apply Rle_0_sqr. lra.
Qed.

(** *** The great-circle distance *)

Lemma sin_half_sqr (x : R) : Rsqr (sin (x / 2)) = (1 - cos x) / 2.
Proof.
  pose proof (cos_2a_sin (x / 2)) as C.
  replace (2 * (x / 2)) with x in C by field.
  unfold Rsqr. lra.
Qed.

(** [a] is half of one minus the product of the two unit vectors. *)
Lemma hav_product (lat1 lon1 lat2 lon2 : R) :
  hav lat1 lon1 lat2 lon2 =
  (1 - (sin (lat1 * (PI / 180)) * sin (lat2 * (PI / 180))
        + cos (lat1 * (PI / 180)) * cos (lat2 * (PI / 180))
          * cos ((lon2 - lon1) * (PI / 180)))) / 2.
Proof.
  unfold hav. rewrite !sin_half_sqr.
  replace ((lat2 - lat1) * (PI / 180)) with (lat2 * (PI / 180) - lat1 * (PI / 180))
    by ring.
  rewrite cos_minus. field.
Qed.

Lemma hav_range (lat1 lon1 lat2 lon2 : R) : 0 <= hav lat1 lon1 lat2 lon2 <= 1.
Proof.
  rewrite hav_product.
  pose proof (@unit_product_bound
                (sin (lat1 * (PI / 180))) (cos (lat1 * (PI / 180)))
                (sin (lat2 * (PI / 180))) (cos (lat2 * (PI / 180)))
                (cos ((lon2 - lon1) * (PI / 180)))
                (sin_cos_unit _) (sin_cos_unit _) (cos_unit_interval _)) as [L U].
  lra.
Qed.

Lemma hav_sym (lat1 lon1 lat2 lon2 : R) :
  hav lat1 lon1 lat2 lon2 = hav lat2 lon2 lat1 lon1.
Proof.
  rewrite !hav_product.
  replace ((lon1 - lon2) * (PI / 180)) with (- ((lon2 - lon1) * (PI / 180))) by ring.
  rewrite cos_neg. field.
Qed.

Lemma hav_same (lat lon : R) : hav lat lon lat lon = 0.
Proof.
  unfold hav. replace ((lat - lat) * (PI / 180) / 2) with 0 by field.
  replace ((lon - lon) * (PI / 180) / 2) with 0 by field.
  rewrite sin_0. unfold Rsqr. ring.
Qed.

Lemma exact_haversine_a (lat1 lon1 lat2 lon2 : R) :
  haversine_a (Real lat1) (Real lon1) (Real lat2) (Real lon2) =
  Ok (Real (hav lat1 lon1 lat2 lon2)).
Proof. reflexivity. Qed.

(** [haversine] on real numbers returns, with this value. *)
Lemma exact_haversine (lat1 lon1 lat2 lon2 : R) :
  haversine (Real lat1) (Real lon1) (Real lat2) (Real lon2) =
  Ok (Real (12742 * Ratan2 (R_sqrt.sqrt (hav lat1 lon1 lat2 lon2))
                           (R_sqrt.sqrt (1 - hav lat1 lon1 lat2 lon2)))).
Proof.
  unfold haversine. rewrite exact_haversine_a. cbn.
  destruct (hav_range lat1 lon1 lat2 lon2) as [L U].
  destruct (Rle_dec 0 (hav lat1 lon1 lat2 lon2)) as [_ | N]; [| contradiction].
  cbn.
  destruct (Rle_dec 0 (1 - hav lat1 lon1 lat2 lon2)) as [_ | N]; [| exfalso; lra].
  cbn. reflexivity.
Qed.
End ExactFacts.

(** ** Binary64 *)

Section Binary64Facts.
Import Binary64.
Local Open Scope float_scope.

Lemma agrees_annex_F (m : Libm) :
  agrees m annex_F ->
  c_sin m 0 = 0 /\ c_sin m (-0) = -0 /\ c_cos m 0 = 1 /\ c_cos m (-0) = 1 /\
  c_asin m 0 = 0 /\ c_asin m (-0) = -0.
Proof.
  intros A. unfold agrees, annex_F in A.
  repeat match goal with
         | H : Forall _ (_ :: _) |- _ => inversion H; clear H; subst
         end.
  cbn [returns] in *. repeat split; assumption.
Qed.

(** The table library returns the values of its table. *)
Lemma table_platform_agrees :
  agrees table_platform annex_F /\
  agrees table_platform rounded_samples /\
  agrees table_platform eastward_samples.
Proof. repeat split; repeat constructor. Qed.

End Binary64Facts.

(** Evaluation where the C library is called at zero only. *)
Ltac at_zero A :=
  let s0 := fresh "s0" in let s0' := fresh "s0'" in
  let c0 := fresh "c0" in let c0' := fresh "c0'" in
  let a0 := fresh "a0" in let a0' := fresh "a0'" in
  destruct (agrees_annex_F _ A) as (s0 & s0' & c0 & c0' & a0 & a0');
  cbn in s0', c0', a0'; cbn;
  unfold predict_position; cbn;
  unfold Binary64.math_1, Binary64.math_2, Binary64.m_atan2;
  repeat (rewrite ?s0, ?s0', ?c0, ?c0', ?a0, ?a0'; cbn).


(** ** Pairing predictions with later observations *)




Section OnTheTablePlatform.


End OnTheTablePlatform.


(** ** Binary64 arithmetic: signs *)

Section SpecFloatFacts.
Local Open Scope Z_scope.

Lemma binary_round_aux_opp (s : bool) (m e : Z) (l : location) :
  binary_round_aux prec emax (negb s) m e l = SFopp (binary_round_aux prec emax s m e l).
Proof.
  unfold binary_round_aux.
  destruct (shr_fexp prec emax m e l) as [mrs' e'].
  destruct (shr_fexp prec emax _ e' loc_Exact) as [mrs'' e''].
  destruct (shr_m mrs'') as [| p | p]; cbn; try reflexivity.
  destruct (Z.leb _ _); reflexivity.
Qed.

Lemma binary_round_opp (s : bool) (m : positive) (e : Z) :
  binary_round prec emax (negb s) m e = SFopp (binary_round prec emax s m e).
Proof.
  unfold binary_round. destruct (shl_align _ _ _) as [mz ez].
  apply binary_round_aux_opp.
Qed.


Lemma SFopp_involutive (x : spec_float) : SFopp (SFopp x) = x.
Proof. destruct x; cbn; rewrite ?negb_involutive; reflexivity. Qed.

Lemma binary_normalize_opp (z e : Z) :
  z <> 0 ->
  binary_normalize prec emax (- z) e false = SFopp (binary_normalize prec emax z e false).
Proof.
  intros N. destruct z as [| p | p]; [contradiction | |]; cbn [Z.opp binary_normalize].
  - apply (binary_round_opp false).
  - rewrite (binary_round_opp false), SFopp_involutive. reflexivity.
Qed.

Lemma SFmul_opp_l (x y : spec_float) :
  SFmul prec emax (SFopp x) y = SFopp (SFmul prec emax x y).
Proof.
  destruct x as [sx | sx | | sx mx ex], y as [sy | sy | | sy my ey]; cbn;
    try reflexivity; try (destruct sx, sy; reflexivity).
  replace (xorb (negb sx) sy) with (negb (xorb sx sy)) by (destruct sx, sy; reflexivity).
  apply binary_round_aux_opp.
Qed.

Lemma SFmul_comm (x y : spec_float) : SFmul prec emax x y = SFmul prec emax y x.
Proof.
  destruct x as [sx | sx | | sx mx ex], y as [sy | sy | | sy my ey]; cbn;
    try reflexivity; try (rewrite xorb_comm; reflexivity).
  rewrite xorb_comm, Pos.mul_comm, Z.add_comm. reflexivity.
Qed.

Lemma SFdiv_opp_l (x y : spec_float) :
  SFdiv prec emax (SFopp x) y = SFopp (SFdiv prec emax x y).
Proof.
  destruct x as [sx | sx | | sx mx ex], y as [sy | sy | | sy my ey]; cbn;
    try reflexivity; try (destruct sx, sy; reflexivity).
  destruct (SFdiv_core_binary prec emax (Z.pos mx) ex (Z.pos my) ey) as [[mz ez] lz].
  replace (xorb (negb sx) sy) with (negb (xorb sx sy)) by (destruct sx, sy; reflexivity).
  apply binary_round_aux_opp.
Qed.

Lemma SFsub_antisym (x y : spec_float) :
  SFsub prec emax y x = SFopp (SFsub prec emax x y) \/
  (SFsub prec emax y x = S754_zero false /\ SFsub prec emax x y = S754_zero false).
Proof.
  destruct x as [sx | sx | | sx mx ex], y as [sy | sy | | sy my ey]; cbn;
    try (left; reflexivity);
    try (destruct sx, sy; cbn; (left; reflexivity) || (right; split; reflexivity)).
  rewrite (Z.min_comm ey ex).
  set (cx := cond_Zopp sx (Z.pos (fst (shl_align mx ex (Z.min ex ey))))).
  set (cy := cond_Zopp sy (Z.pos (fst (shl_align my ey (Z.min ex ey))))).
  destruct (Z.eq_dec (cx - cy) 0) as [E | N].
  - right. replace (cy - cx) with 0 by lia. rewrite E. split; reflexivity.
  - left. replace (cy - cx) with (- (cx - cy)) by lia.
    apply binary_normalize_opp. exact N.
Qed.

End SpecFloatFacts.

Section PrimFloatFacts.
Local Open Scope float_scope.

Lemma Prim2SF_zero : Prim2SF 0 = S754_zero false.
Proof. reflexivity. Qed.

Lemma opp_involutive (x : float) : - - x = x.
Proof. apply Prim2SF_inj. rewrite !opp_spec. apply SFopp_involutive. Qed.

Lemma mul_opp_l (x y : float) : (- x) * y = - (x * y).
Proof.
  apply Prim2SF_inj. rewrite opp_spec, !mul_spec, opp_spec. apply SFmul_opp_l.
Qed.

Lemma div_opp_l (x y : float) : (- x) / y = - (x / y).
Proof.
  apply Prim2SF_inj. rewrite opp_spec, !div_spec, opp_spec. apply SFdiv_opp_l.
Qed.

Lemma mul_comm (x y : float) : x * y = y * x.
Proof. apply Prim2SF_inj. rewrite !mul_spec. apply SFmul_comm. Qed.

(** [y - x] is the opposite of [x - y], or both are [+0]. *)
Lemma sub_antisym (x y : float) : y - x = - (x - y) \/ (y - x = 0 /\ x - y = 0).
Proof.
  destruct (SFsub_antisym (Prim2SF x) (Prim2SF y)) as [E | [E1 E2]].
  - left. apply Prim2SF_inj. rewrite opp_spec, !sub_spec. exact E.
  - right. split; apply Prim2SF_inj; rewrite sub_spec, Prim2SF_zero; assumption.
Qed.

(** The tests of a float, read on its specification. *)
Lemma SFcompare_refl (s : spec_float) :
  s <> S754_nan -> SFcompare s s = Some Eq.
Proof.
  destruct s as [sg | sg | | sg m e]; cbn; intros N; try reflexivity; try contradiction.
  - destruct sg; reflexivity.
  - rewrite Z.compare_refl, Pos.compare_cont_refl. destruct sg; reflexivity.
Qed.

Lemma is_nan_spec (x : float) :
  is_nan x = match Prim2SF x with S754_nan => true | _ => false end.
Proof.
  unfold is_nan. rewrite eqb_spec. unfold SFeqb.
  destruct (Prim2SF x) as [sg | sg | | sg m e] eqn:E;
    try (rewrite SFcompare_refl by discriminate; reflexivity).
  reflexivity.
Qed.

Lemma is_infinity_spec (x : float) :
  is_infinity x = match Prim2SF x with S754_infinity _ => true | _ => false end.
Proof.
  unfold is_infinity. rewrite eqb_spec, abs_spec.
  destruct (Prim2SF x) as [sg | sg | | sg m e]; reflexivity.
Qed.

Lemma is_finite_spec (x : float) :
  is_finite x = match Prim2SF x with S754_zero _ | S754_finite _ _ _ => true | _ => false end.
Proof.
  unfold is_finite. rewrite is_nan_spec, is_infinity_spec.
  destruct (Prim2SF x); reflexivity.
Qed.

Lemma eqb_zero_spec (x : float) :
  (x =? 0) = match Prim2SF x with S754_zero _ => true | _ => false end.
Proof.
  rewrite eqb_spec, Prim2SF_zero.
  destruct (Prim2SF x) as [sg | sg | | sg m e]; try reflexivity; destruct sg; reflexivity.
Qed.

Lemma ltb_zero_spec (x : float) :
  (x <? 0) = match Prim2SF x with
             | S754_infinity sg | S754_finite sg _ _ => sg
             | _ => false
             end.
Proof.
  rewrite ltb_spec, Prim2SF_zero.
  destruct (Prim2SF x) as [sg | sg | | sg m e]; try reflexivity; destruct sg; reflexivity.
Qed.

Lemma is_nan_opp (x : float) : is_nan (- x) = is_nan x.
Proof. rewrite !is_nan_spec, opp_spec. destruct (Prim2SF x); reflexivity. Qed.

Lemma is_infinity_opp (x : float) : is_infinity (- x) = is_infinity x.
Proof. rewrite !is_infinity_spec, opp_spec. destruct (Prim2SF x); reflexivity. Qed.

Lemma is_finite_opp (x : float) : is_finite (- x) = is_finite x.
Proof. unfold is_finite. rewrite is_nan_opp, is_infinity_opp. reflexivity. Qed.

Lemma abs_opp (x : float) : abs (- x) = abs x.
Proof.
  apply Prim2SF_inj. rewrite !abs_spec, opp_spec. destruct (Prim2SF x); reflexivity.
Qed.

Lemma opp_nan (x : float) : is_nan x = true -> - x = x.
Proof.
  rewrite is_nan_spec. intros N. apply Prim2SF_inj. rewrite opp_spec.
  destruct (Prim2SF x); try discriminate. reflexivity.
Qed.

End PrimFloatFacts.

(** ** Binary64 arithmetic: a square that cannot overflow *)

Section SquareOfSmall.
Local Open Scope Z_scope.

Lemma iter_pos_invariant {A : Type} (f : A -> A) (P : A -> Prop) :
  (forall x, P x -> P (f x)) -> forall p x, P x -> P (iter_pos f p x).
Proof.
  intros Hf. induction p as [p IH | p IH |]; intros x Px; cbn.
  - apply IH, IH, Hf, Px.
  - apply IH, IH, Px.
  - apply Hf, Px.
Qed.

Lemma shr_1_bound (M : Z) (mrs : shr_record) :
  0 <= shr_m mrs <= M -> 0 <= shr_m (shr_1 mrs) <= M.
Proof.
  destruct mrs as [mz r s]. cbn [shr_m]. intros B.
  destruct mz as [| [p | p |] | p]; cbn; lia.
Qed.

Lemma shr_bound (M : Z) (mrs : shr_record) (e n : Z) :
  0 <= shr_m mrs <= M ->
  0 <= shr_m (fst (shr mrs e n)) <= M /\ snd (shr mrs e n) <= Z.max e (e + n).
Proof.
  intros B. unfold shr. destruct n as [| p | p]; cbn [fst snd].
  - split; [exact B | lia].
  - split; [| lia]. apply iter_pos_invariant; [apply shr_1_bound | exact B].
  - split; [exact B | lia].
Qed.

Lemma shr_fexp_bound (mz e : Z) (l : location) :
  0 <= mz ->
  0 <= shr_m (fst (shr_fexp prec emax mz e l)) <= mz /\
  snd (shr_fexp prec emax mz e l) <= Z.max e (fexp prec emax (Zdigits2 mz + e)).
Proof.
  intros P. unfold shr_fexp.
  destruct (shr_bound mz (shr_record_of_loc mz l) e
              (fexp prec emax (Zdigits2 mz + e) - e)) as [B1 B2].
  - destruct l as [| []]; cbn; lia.
  - split; [exact B1 | lia].
Qed.

Lemma round_nearest_even_bound (mz : Z) (l : location) :
  mz <= round_nearest_even mz l <= mz + 1.
Proof.
  unfold round_nearest_even. destruct l as [| []]; try lia.
  destruct (Z.even mz); lia.
Qed.

Lemma digits2_pos_size (p : positive) : digits2_pos p = Pos.size p.
Proof. induction p as [p IH | p IH |]; cbn; rewrite ?IH; reflexivity. Qed.

Lemma Zdigits2_log2 (p : positive) : Zdigits2 (Z.pos p) = Z.log2 (Z.pos p) + 1.
Proof.
  cbn [Zdigits2]. rewrite digits2_pos_size.
  destruct p as [p | p |]; cbn; try rewrite Pos2Z.inj_succ; lia.
Qed.

Lemma Zdigits2_mono (x y : Z) : 0 <= x <= y -> Zdigits2 x <= Zdigits2 y.
Proof.
  intros [L U]. destruct x as [| p | p]; [| | lia].
  - destruct y; cbn; lia.
  - destruct y as [| q | q]; try lia.
    rewrite !Zdigits2_log2. apply Z.add_le_mono_r. apply Z.log2_le_mono. exact U.
Qed.

Lemma Zdigits2_succ (x : Z) : 0 <= x -> Zdigits2 (x + 1) <= Zdigits2 x + 1.
Proof.
  intros P. destruct x as [| p | p]; [cbn; lia | | lia].
  change (Z.pos p + 1) with (Z.succ (Z.pos p)).
  destruct (Z.succ (Z.pos p)) as [| q | q] eqn:E; try lia.
  rewrite !Zdigits2_log2, <- E.
  pose proof (Z.log2_succ_le (Z.pos p)). lia.
Qed.

Lemma Zdigits2_square (p : positive) :
  Zdigits2 (Z.pos (p * p)) <= 2 * Zdigits2 (Z.pos p).
Proof.
  rewrite !Zdigits2_log2, Pos2Z.inj_mul.
  pose proof (Z.log2_mul_above (Z.pos p) (Z.pos p)). lia.
Qed.

(** The product of two aligned values of at most 53 digits and exponent at
    most [-52] rounds to a zero or to a finite number. *)
Lemma binary_round_aux_small (sg : bool) (mz : positive) (ez : Z) :
  Zdigits2 (Z.pos mz) <= 53 -> ez <= -52 ->
  match binary_round_aux prec emax sg (Z.pos (mz * mz)) (ez + ez) loc_Exact with
  | S754_zero s | S754_finite s _ _ => s = sg
  | _ => False
  end.
Proof.
  intros D E. unfold binary_round_aux.
  pose proof (Zdigits2_square mz) as D2.
  destruct (shr_fexp_bound (Z.pos (mz * mz)) (ez + ez) loc_Exact) as [B1 B2]; [lia |].
  destruct (shr_fexp prec emax (Z.pos (mz * mz)) (ez + ez) loc_Exact) as [mrs' e'].
  cbn [fst snd] in B1, B2.
  set (M1 := round_nearest_even (shr_m mrs') (loc_of_shr_record mrs')).
  pose proof (round_nearest_even_bound (shr_m mrs') (loc_of_shr_record mrs')) as R.
  fold M1 in R.
  destruct (shr_fexp_bound M1 e' loc_Exact) as [C1 C2]; [lia |].
  destruct (shr_fexp prec emax M1 e' loc_Exact) as [mrs'' e''].
  cbn [fst snd] in C1, C2.
  assert (D1 : Zdigits2 M1 <= Zdigits2 (Z.pos (mz * mz)) + 1).
  { transitivity (Zdigits2 (Z.pos (mz * mz) + 1)).
    - apply Zdigits2_mono. lia.
    - apply Zdigits2_succ. lia. }
  assert (F1 : fexp prec emax (Zdigits2 (Z.pos (mz * mz)) + (ez + ez)) <= -51).
  { unfold fexp, emin, prec, emax. lia. }
  assert (F2 : fexp prec emax (Zdigits2 M1 + e') <= 3).
  { unfold fexp, emin, prec, emax. lia. }
  destruct (shr_m mrs'') as [| p | p]; [reflexivity | | lia].
  assert (L : (e'' <=? emax - prec) = true) by (apply Z.leb_le; unfold emax, prec; lia).
  rewrite L. reflexivity.
Qed.

Local Open Scope float_scope.

Lemma Prim2SF_one : Prim2SF 1 = S754_finite false 4503599627370496 (-52).
Proof. reflexivity. Qed.

(** The square of a double of magnitude at most 1, times [+0], is [+0]. *)
Lemma square_times_zero (c : float) : (abs c <=? 1) = true -> c * c * 0 = 0.
Proof.
  intros B. apply Prim2SF_inj. rewrite !mul_spec, Prim2SF_zero.
  rewrite leb_spec, abs_spec, Prim2SF_one in B.
  pose proof (Prim2SF_valid c) as V.
  destruct (Prim2SF c) as [sg | sg | | sg mz ez]; try discriminate.
  - destruct sg; reflexivity.
  - cbn [SFmul]. unfold SF64mul. cbn [SFmul].
    assert (D : (Zdigits2 (Z.pos mz) <= 53)%Z).
    { cbn [valid_binary] in V. unfold bounded in V.
      apply andb_prop in V. destruct V as [V _].
      unfold canonical_mantissa in V. apply Z.eqb_eq in V.
      unfold fexp, emin, prec, emax in V. cbn [Zdigits2]. lia. }
    assert (E : (ez <= -52)%Z).
    { unfold SFleb in B. cbn [SFabs SFcompare] in B. revert B.
      destruct (Z.compare_spec ez (-52)) as [C | C | C]; intros B;
        [lia | lia | discriminate B]. }
    pose proof (binary_round_aux_small (xorb sg sg) mz ez D E) as S.
    destruct (binary_round_aux prec emax (xorb sg sg) (Z.pos (mz * mz)) (ez + ez) loc_Exact)
      as [s | s | | s mq eq]; try contradiction; subst s;
      cbn; rewrite xorb_nilpotent; reflexivity.
Qed.

(** A finite double minus itself is [+0]. *)
Lemma sub_diag_finite (x : float) : is_finite x = true -> x - x = 0.
Proof.
  rewrite is_finite_spec. intros Fx. apply Prim2SF_inj.
  rewrite sub_spec, Prim2SF_zero.
  destruct (Prim2SF x) as [sg | sg | | sg mz ez]; try discriminate.
  - destruct sg; reflexivity.
  - unfold SF64sub. cbn [SFsub]. rewrite Z.sub_diag. reflexivity.
Qed.

Lemma leb_one_not_nan_inf (c : float) :
  (abs c <=? 1) = true -> is_nan c = false /\ is_infinity c = false.
Proof.
  intros B. rewrite leb_spec, abs_spec, Prim2SF_one in B.
  rewrite is_nan_spec, is_infinity_spec.
  destruct (Prim2SF c); try discriminate; split; reflexivity.
Qed.

End SquareOfSmall.

(** ** Binary64 arithmetic: the cases of a rounding *)

Section RoundingCases.
Local Open Scope Z_scope.

Lemma shr_1_div2 (mrs : shr_record) :
  0 <= shr_m mrs -> shr_m (shr_1 mrs) = shr_m mrs / 2.
Proof.
  destruct mrs as [mz r s]. cbn [shr_m]. intros P.
  rewrite <- Z.div2_div.
  destruct mz as [| [p | p |] | p]; try reflexivity. lia.
Qed.

Lemma pow2_xO (p : positive) : 2 ^ Z.pos p~0 = 2 ^ Z.pos p * 2 ^ Z.pos p.
Proof. rewrite Pos2Z.inj_xO, <- Z.pow_add_r by lia. f_equal. lia. Qed.

Lemma pow2_xI (p : positive) : 2 ^ Z.pos p~1 = 2 * 2 ^ Z.pos p * 2 ^ Z.pos p.
Proof.
  rewrite Pos2Z.inj_xI.
  replace (2 * Z.pos p + 1) with (1 + Z.pos p + Z.pos p) by lia.
  rewrite !Z.pow_add_r by lia. reflexivity.
Qed.

Lemma iter_shr_1_div (p : positive) :
  forall mrs, 0 <= shr_m mrs ->
    0 <= shr_m (iter_pos shr_1 p mrs) <= shr_m mrs / 2 ^ Z.pos p.
Proof.
  induction p as [p IH | p IH |]; intros mrs P; cbn [iter_pos].
  - assert (P1 : 0 <= shr_m (shr_1 mrs))
      by (rewrite shr_1_div2 by exact P; apply Z.div_pos; lia).
    destruct (IH _ P1) as [A1 A2]. destruct (IH _ A1) as [B1 B2].
    split; [exact B1 |].
    assert (T : 0 < 2 ^ Z.pos p) by (apply Z.pow_pos_nonneg; lia).
    rewrite shr_1_div2 in A2 by exact P.
    rewrite pow2_xI, <- !Z.div_div by lia.
    etransitivity; [exact B2 |]. apply Z.div_le_mono; [exact T | exact A2].
  - destruct (IH _ P) as [A1 A2]. destruct (IH _ A1) as [B1 B2].
    split; [exact B1 |].
    assert (T : 0 < 2 ^ Z.pos p) by (apply Z.pow_pos_nonneg; lia).
    rewrite pow2_xO, <- Z.div_div by lia.
    etransitivity; [exact B2 |]. apply Z.div_le_mono; [exact T | exact A2].
  - rewrite shr_1_div2 by exact P. split; [apply Z.div_pos; lia |].
    change (2 ^ 1) with 2. lia.
Qed.

Lemma Zdigits2_upper (x : Z) : 0 <= x -> x < 2 ^ Zdigits2 x.
Proof.
  intros P. destruct x as [| p | p]; [reflexivity | | lia].
  rewrite Zdigits2_log2. pose proof (Z.log2_spec (Z.pos p)) as S.
  change (Z.succ (Z.log2 (Z.pos p))) with (Z.log2 (Z.pos p) + 1) in S. lia.
Qed.

Lemma Zdigits2_le (x k : Z) : 0 <= x -> 0 <= k -> x < 2 ^ k -> Zdigits2 x <= k.
Proof.
  intros P K L. destruct x as [| p | p]; [exact K | | lia].
  rewrite Zdigits2_log2. apply Z.log2_lt_pow2 in L; lia.
Qed.

Lemma shr_fexp_div (mz e : Z) (l : location) :
  0 <= mz ->
  let nn := Z.max 0 (fexp prec emax (Zdigits2 mz + e) - e) in
  0 <= shr_m (fst (shr_fexp prec emax mz e l)) <= mz / 2 ^ nn /\
  snd (shr_fexp prec emax mz e l) = e + nn.
Proof.
  intros P nn. unfold shr_fexp, shr. subst nn.
  assert (M : shr_m (shr_record_of_loc mz l) = mz) by (destruct l as [| []]; reflexivity).
  destruct (fexp prec emax (Zdigits2 mz + e) - e) as [| p | p]; cbn [fst snd].
  - rewrite M, Z.max_id. change (2 ^ 0) with 1. rewrite Z.div_1_r. lia.
  - rewrite Z.max_r by lia. split; [| reflexivity].
    rewrite <- M at 3. apply iter_shr_1_div. lia.
  - rewrite M, Z.max_l by lia. change (2 ^ 0) with 1. rewrite Z.div_1_r. lia.
Qed.

Lemma shr_fexp_keeps (mz e : Z) :
  fexp prec emax (Zdigits2 mz + e) - e <= 0 ->
  shr_fexp prec emax mz e loc_Exact =
  ({| shr_m := mz; shr_r := false; shr_s := false |}, e).
Proof.
  intros L. unfold shr_fexp, shr.
  destruct (fexp prec emax (Zdigits2 mz + e) - e) as [| p | p]; [reflexivity | lia | reflexivity].
Qed.

Lemma shr_fexp_carry (e : Z) :
  SpecFloat.emin prec emax <= e ->
  shr_fexp prec emax (2 ^ 53) e loc_Exact =
  ({| shr_m := 2 ^ 52; shr_r := false; shr_s := false |}, e + 1).
Proof.
  intros L. unfold shr_fexp, shr.
  replace (fexp prec emax (Zdigits2 (2 ^ 53) + e) - e) with 1.
  - reflexivity.
  - change (Zdigits2 (2 ^ 53)) with 54. unfold fexp, SpecFloat.emin, prec, emax in *. lia.
Qed.

(** The four outcomes of rounding the exact value [N * 2^e]: a zero; a
    number at the exponent [E'] of the format, its mantissa at most the
    truncated one plus 1; a carry to the next exponent; an overflow. *)
Lemma binary_round_aux_cases (sg : bool) (N e : Z) :
  0 < N ->
  let nn := Z.max 0 (fexp prec emax (Zdigits2 N + e) - e) in
  let E' := e + nn in
  let r := binary_round_aux prec emax sg N e loc_Exact in
  r = S754_zero sg \/
  (exists mq, r = S754_finite sg mq E' /\ Z.pos mq <= N / 2 ^ nn + 1 /\ E' <= 971) \/
  (r = S754_finite sg 4503599627370496 (E' + 1) /\
   2 ^ 53 <= N / 2 ^ nn + 1 /\ E' + 1 <= 971) \/
  (r = S754_infinity sg /\ 971 <= E').
Proof.
  intros P nn E' r. subst r. unfold binary_round_aux.
  destruct (shr_fexp_div N e loc_Exact ltac:(lia)) as [[B1 B2] B3].
  fold nn in B2, B3.
  destruct (shr_fexp prec emax N e loc_Exact) as [mrs' e'].
  cbn [fst snd] in B1, B2, B3. fold E' in B3. subst e'.
  pose proof (round_nearest_even_bound (shr_m mrs') (loc_of_shr_record mrs')) as R.
  set (M1 := round_nearest_even (shr_m mrs') (loc_of_shr_record mrs')) in *.
  assert (Nn : 0 <= nn) by (subst nn; lia).
  assert (Dn : Zdigits2 N <= nn + 53).
  { subst nn. unfold fexp, SpecFloat.emin, prec, emax. lia. }
  assert (Em : SpecFloat.emin prec emax <= E').
  { subst E' nn. unfold fexp, SpecFloat.emin, prec, emax. lia. }
  assert (Q : N / 2 ^ nn < 2 ^ 53).
  { apply Z.div_lt_upper_bound; [apply Z.pow_pos_nonneg; lia |].
    rewrite <- Z.pow_add_r by lia.
    apply Z.lt_le_trans with (2 ^ Zdigits2 N); [apply Zdigits2_upper; lia |].
    apply Z.pow_le_mono_r; lia. }
  destruct (Z.eq_dec M1 (2 ^ 53)) as [C | C].
  - rewrite C, (shr_fexp_carry E' Em). cbn [shr_m].
    change (2 ^ 52) with 4503599627370496.
    destruct (Z.leb_spec (E' + 1) (emax - prec)) as [L | L]; unfold emax, prec in L.
    + right. right. left. repeat split; lia.
    + right. right. right. split; [reflexivity | lia].
  - assert (U : M1 < 2 ^ 53) by lia.
    rewrite shr_fexp_keeps.
    + cbn [shr_m]. destruct M1 as [| mq | mq] eqn:EM; [left; reflexivity | | lia].
      destruct (Z.leb_spec E' (emax - prec)) as [L | L]; unfold emax, prec in L.
      * right. left. exists mq. repeat split; lia.
      * right. right. right. split; [reflexivity | lia].
    + pose proof (Zdigits2_le M1 53 ltac:(lia) ltac:(lia) U) as D1.
      unfold fexp, SpecFloat.emin, prec, emax in *. lia.
Qed.

Lemma Zdigits2_mul (p q : positive) :
  Zdigits2 (Z.pos (p * q)) <= Zdigits2 (Z.pos p) + Zdigits2 (Z.pos q).
Proof.
  rewrite !Zdigits2_log2, Pos2Z.inj_mul.
  pose proof (Z.log2_mul_above (Z.pos p) (Z.pos q)). lia.
Qed.

Lemma valid_digits (sg : bool) (mz : positive) (ez : Z) :
  SpecFloat.valid_binary prec emax (S754_finite sg mz ez) = true ->
  Zdigits2 (Z.pos mz) <= 53 /\ ez <= 971.
Proof.
  cbn [SpecFloat.valid_binary]. unfold bounded. intros V.
  apply andb_prop in V. destruct V as [V1 V2].
  unfold canonical_mantissa in V1. apply Z.eqb_eq in V1. apply Z.leb_le in V2.
  unfold fexp, SpecFloat.emin, prec, emax in *. cbn [Zdigits2]. lia.
Qed.

Lemma SFleb_positive (m1 : positive) (e1 : Z) (m2 : positive) (e2 : Z) :
  SFleb (S754_finite false m1 e1) (S754_finite false m2 e2) = true <->
  e1 < e2 \/ (e1 = e2 /\ Z.pos m1 <= Z.pos m2).
Proof.
  unfold SFleb. cbn [SFcompare].
  destruct (Z.compare_spec e1 e2) as [C | C | C].
  - rewrite Pos.compare_cont_spec. cbn [Pos.switch_Eq].
    change (Z.pos m1 <= Z.pos m2) with (Pos.compare m1 m2 <> Gt).
    destruct (Pos.compare m1 m2); split; intros H; try discriminate;
      try (right; split; [exact C | discriminate]); try reflexivity.
    destruct H as [H | [_ H]]; [lia | contradiction H; reflexivity].
  - split; [intros _; left; exact C | reflexivity].
  - split; [discriminate | intros [H | [H _]]; lia].
Qed.

End RoundingCases.


(** ** Binary64: the conversions between degrees and radians *)

Section Conversions.
Import Binary64.
Local Open Scope float_scope.

Lemma Prim2SF_degToRad : Prim2SF degToRad = S754_finite false 5030569068109113 (-58).
Proof. reflexivity. Qed.

Lemma Prim2SF_radToDeg : Prim2SF radToDeg = S754_finite false 8063664102031864 (-47).
Proof. reflexivity. Qed.

Lemma Prim2SF_pio2 : Prim2SF pio2 = S754_finite false 7074237752028440 (-52).
Proof. reflexivity. Qed.

Lemma Prim2SF_90 : Prim2SF 90 = S754_finite false 6333186975989760 (-46).
Proof. reflexivity. Qed.

(** The radians of a finite number of degrees are finite. *)
Lemma radians_finite (x : float) :
  is_finite x = true -> is_finite (x * degToRad) = true.
Proof.
  rewrite !is_finite_spec, mul_spec, Prim2SF_degToRad.
  pose proof (Prim2SF_valid x) as V.
  destruct (Prim2SF x) as [sg | sg | | sg mz ez]; try discriminate; intros _.
  - reflexivity.
  - destruct (valid_digits sg mz ez V) as [D E].
    unfold SF64mul. cbn [SFmul].
    pose proof (Zdigits2_mul mz 5030569068109113) as DM.
    change (Zdigits2 (Z.pos 5030569068109113)) with 53%Z in DM.
    destruct (binary_round_aux_cases (xorb sg false) (Z.pos (mz * 5030569068109113))
                (ez + -58) ltac:(lia))
      as [R | [(mq & R & _) | [(R & _) | (R & O)]]]; try (rewrite R; reflexivity).
    exfalso. unfold fexp, SpecFloat.emin, prec, emax in O. lia.
Qed.

(** The degrees of an angle of at most [pio2] in magnitude are at most 90 in
    magnitude. *)
Lemma degrees_bound (r : float) :
  (abs r <=? pio2) = true -> (abs (r * radToDeg) <=? 90) = true.
Proof.
  rewrite !leb_spec, !abs_spec, mul_spec, Prim2SF_radToDeg, Prim2SF_pio2, Prim2SF_90.
  pose proof (Prim2SF_valid r) as V.
  destruct (Prim2SF r) as [sg | sg | | sg mz ez]; try discriminate.
  - intros _. reflexivity.
  - cbn [SFabs]. rewrite SFleb_positive. intros B.
    destruct (valid_digits sg mz ez V) as [D _].
    unfold SF64mul. cbn [SFmul].
    pose proof (Zdigits2_mul mz 8063664102031864) as DM.
    change (Zdigits2 (Z.pos 8063664102031864)) with 53%Z in DM.
    assert (NB : (ez = -52 ->
                  Z.pos (mz * 8063664102031864) / 2 ^ 53 + 1 <= 6333186975989760)%Z).
    { intros Ez. destruct B as [B | [_ B]]; [lia |].
      assert (L : (Z.pos (mz * 8063664102031864) / 2 ^ 53
                   <= 7074237752028440 * 8063664102031864 / 2 ^ 53)%Z).
      { apply (Z.div_le_mono _ _ (2 ^ 53)); [apply Z.pow_pos_nonneg; lia |].
        rewrite Pos2Z.inj_mul.
        apply Z.mul_le_mono_nonneg_r; [lia | exact B]. }
      assert (K : (7074237752028440 * 8063664102031864 / 2 ^ 53
                   = 6333186975989759)%Z) by (vm_compute; reflexivity).
      rewrite K in L. lia. }
    assert (EB : (ez <= -52)%Z) by (destruct B as [B | [B _]]; lia).
    destruct (binary_round_aux_cases (xorb sg false) (Z.pos (mz * 8063664102031864))
                (ez + -47) ltac:(lia))
      as [R | [(mq & R & Q & _) | [(R & Q & _) | (R & O)]]]; rewrite R; cbn [SFabs].
    + reflexivity.
    + apply SFleb_positive.
      unfold fexp, SpecFloat.emin, prec, emax in *.
      destruct (Z.eq_dec ez (-52)) as [Ez | Ez].
      * subst ez. specialize (NB eq_refl).
        destruct (Z.eq_dec (Zdigits2 (Z.pos (mz * 8063664102031864))) 106) as [D6 | D6].
        -- right. rewrite D6 in *.
           match type of Q with
           | context [(_ / 2 ^ ?n)%Z] => replace n with 53%Z in * by (vm_compute; reflexivity)
           end.
           split; [reflexivity | lia].
        -- left. lia.
      * left. lia.
    + apply SFleb_positive.
      unfold fexp, SpecFloat.emin, prec, emax in *.
      destruct (Z.eq_dec ez (-52)) as [Ez | Ez].
      * subst ez. specialize (NB eq_refl).
        destruct (Z.eq_dec (Zdigits2 (Z.pos (mz * 8063664102031864))) 106) as [D6 | D6].
        -- exfalso. rewrite D6 in *.
           match type of Q with
           | context [(_ / 2 ^ ?n)%Z] => replace n with 53%Z in * by (vm_compute; reflexivity)
           end.
           lia.
        -- assert (Zdigits2 (Z.pos (mz * 8063664102031864)) <= 105)%Z by lia.
           destruct (Z.eq_dec (Zdigits2 (Z.pos (mz * 8063664102031864))) 105) as [D5 | D5].
           ++ right. rewrite D5. cbn. split; [reflexivity | lia].
           ++ left. lia.
      * destruct (Z.eq_dec (ez + -47 +
                    Z.max 0 (Z.max (Zdigits2 (Z.pos (mz * 8063664102031864)) + (ez + -47) - 53)
                               (3 - 1024 - 53) - (ez + -47)) + 1) (-46)) as [T | T].
        -- right. split; [exact T | lia].
        -- left. lia.
    + exfalso. unfold fexp, SpecFloat.emin, prec, emax in O. lia.
Qed.

(** A product with a NaN is a NaN. *)
Lemma is_nan_mul_l (x y : float) : is_nan x = true -> is_nan (x * y) = true.
Proof.
  rewrite !is_nan_spec, mul_spec.
  destruct (Prim2SF x); try discriminate. intros _. reflexivity.
Qed.

End Conversions.

(** ** Binary64 arithmetic: what stays a number *)

Section StaysANumber.
Local Open Scope Z_scope.

(** The outcomes of rounding [N * 2^e] from any location: never a NaN, and
    an infinity only from the top exponent. *)
Lemma binary_round_aux_outcomes (sg : bool) (N e : Z) (l : location) :
  0 <= N ->
  let nn := Z.max 0 (fexp prec emax (Zdigits2 N + e) - e) in
  let E' := e + nn in
  let r := binary_round_aux prec emax sg N e l in
  r = S754_zero sg \/
  (exists mq E, r = S754_finite sg mq E /\ E <= E' + 1 /\ E <= 971) \/
  (r = S754_infinity sg /\ 971 <= E').
Proof.
  intros P nn E' r. subst r. unfold binary_round_aux.
  destruct (shr_fexp_div N e l P) as [[B1 B2] B3].
  fold nn in B2, B3.
  destruct (shr_fexp prec emax N e l) as [mrs' e'].
  cbn [fst snd] in B1, B2, B3. fold E' in B3. subst e'.
  pose proof (round_nearest_even_bound (shr_m mrs') (loc_of_shr_record mrs')) as R.
  set (M1 := round_nearest_even (shr_m mrs') (loc_of_shr_record mrs')) in *.
  assert (Nn : 0 <= nn) by (subst nn; lia).
  assert (Dn : Zdigits2 N <= nn + 53).
  { subst nn. unfold fexp, SpecFloat.emin, prec, emax. lia. }
  assert (Em : SpecFloat.emin prec emax <= E').
  { subst E' nn. unfold fexp, SpecFloat.emin, prec, emax. lia. }
  assert (Q : N / 2 ^ nn < 2 ^ 53).
  { apply Z.div_lt_upper_bound; [apply Z.pow_pos_nonneg; lia |].
    rewrite <- Z.pow_add_r by lia.
    apply Z.lt_le_trans with (2 ^ Zdigits2 N); [apply Zdigits2_upper; lia |].
    apply Z.pow_le_mono_r; [lia |].
    destruct N; cbn [Zdigits2] in *; lia. }
  destruct (Z.eq_dec M1 (2 ^ 53)) as [C | C].
  - rewrite C, (shr_fexp_carry E' Em). cbn [shr_m].
    change (2 ^ 52) with 4503599627370496.
    destruct (Z.leb_spec (E' + 1) (emax - prec)) as [L | L]; unfold emax, prec in L.
    + right. left. eexists. eexists. split; [reflexivity | lia].
    + right. right. split; [reflexivity | lia].
  - assert (U : M1 < 2 ^ 53) by lia.
    rewrite shr_fexp_keeps.
    + cbn [shr_m]. destruct M1 as [| mq | mq] eqn:EM; [left; reflexivity | | lia].
      destruct (Z.leb_spec E' (emax - prec)) as [L | L]; unfold emax, prec in L.
      * right. left. eexists. eexists. split; [reflexivity | lia].
      * right. right. split; [reflexivity | lia].
    + pose proof (Zdigits2_le M1 53 ltac:(lia) ltac:(lia) U) as D1.
      unfold fexp, SpecFloat.emin, prec, emax in *. lia.
Qed.

End StaysANumber.

Section UnitRange.
Import Binary64.
Local Open Scope float_scope.

Lemma exponent_finite (k : Z) (x : float) : exponent_at_most k x -> is_finite x = true.
Proof.
  unfold exponent_at_most. rewrite is_finite_spec.
  destruct (Prim2SF x); intros E; try reflexivity; contradiction.
Qed.

Lemma finite_not_nan (x : float) : is_finite x = true -> is_nan x = false.
Proof.
  rewrite is_finite_spec, is_nan_spec. destruct (Prim2SF x); intros E;
    try reflexivity; discriminate.
Qed.

(** A number of magnitude at most 1 has an exponent of at most -52. *)
Lemma unit_exponent (r : float) : (abs r <=? 1) = true -> exponent_at_most (-52) r.
Proof.
  unfold exponent_at_most. rewrite leb_spec, abs_spec, Prim2SF_one.
  destruct (Prim2SF r) as [sg | sg | | sg mz ez]; try discriminate; [intros _; exact I |].
  cbn [SFabs]. rewrite SFleb_positive. lia.
Qed.

(** A product of two numbers of small exponents is a number of small
    exponent: there is no overflow. *)
Lemma mul_exponent (k1 k2 : Z) (x y : float) :
  exponent_at_most k1 x -> exponent_at_most k2 y -> (k1 + k2 + 54 <= 971)%Z ->
  exponent_at_most (Z.max (k1 + k2 + 54) (-1073)) (x * y).
Proof.
  unfold exponent_at_most. rewrite mul_spec.
  pose proof (Prim2SF_valid x) as Vx. pose proof (Prim2SF_valid y) as Vy.
  destruct (Prim2SF x) as [sx | sx | | sx mx ex]; try contradiction;
    destruct (Prim2SF y) as [sy | sy | | sy my ey]; try contradiction;
    intros Ex Ey K; try exact I.
  destruct (valid_digits sx mx ex Vx) as [Dx _].
  destruct (valid_digits sy my ey Vy) as [Dy _].
  unfold SF64mul. cbn [SFmul].
  pose proof (Zdigits2_mul mx my) as DM.
  destruct (binary_round_aux_outcomes (xorb sx sy) (Z.pos (mx * my)) (ex + ey) loc_Exact
              ltac:(lia)) as [R | [(mq & E & R & B1 & B2) | (R & O)]]; rewrite R.
  - exact I.
  - unfold fexp, SpecFloat.emin, prec, emax in B1. lia.
  - unfold fexp, SpecFloat.emin, prec, emax in O. lia.
Qed.

(** A sum of two finite numbers is a number (an infinity at most). *)
Lemma add_finite_not_nan (x y : float) :
  is_finite x = true -> is_finite y = true -> is_nan (x + y) = false.
Proof.
  rewrite !is_finite_spec, is_nan_spec, add_spec.
  destruct (Prim2SF x) as [sx | sx | | sx mx ex]; try discriminate;
    destruct (Prim2SF y) as [sy | sy | | sy my ey]; try discriminate; intros _ _;
    try reflexivity.
  - destruct sx, sy; reflexivity.
  - unfold SF64add. cbn [SFadd]. unfold binary_normalize.
    match goal with
    | |- context [match ?z with Z0 => _ | Zpos _ => _ | Zneg _ => _ end] =>
        destruct z as [| p | p]
    end; [reflexivity | |];
      unfold binary_round;
      match goal with
      | |- context [shl_align ?a ?b ?c] => destruct (shl_align a b c) as [mz ez]
      end;
      match goal with
      | |- context [binary_round_aux _ _ ?sg ?N ?e ?l] =>
          destruct (binary_round_aux_outcomes sg N e l ltac:(lia))
            as [R | [(mq & E & R & _) | (R & _)]]; rewrite R; reflexivity
      end.
Qed.

Lemma mul_finite_not_nan (x y : float) :
  is_finite x = true -> is_finite y = true -> is_nan (x * y) = false.
Proof.
  rewrite !is_finite_spec, is_nan_spec, mul_spec.
  destruct (Prim2SF x) as [sx | sx | | sx mx ex]; try discriminate;
    destruct (Prim2SF y) as [sy | sy | | sy my ey]; try discriminate; intros _ _;
    try reflexivity.
  unfold SF64mul. cbn [SFmul].
  destruct (binary_round_aux_outcomes (xorb sx sy) (Z.pos (mx * my)) (ex + ey) loc_Exact
              ltac:(lia)) as [R | [(mq & E & R & _) | (R & _)]]; rewrite R; reflexivity.
Qed.

Lemma Prim2SF_60 : Prim2SF 60 = S754_finite false 8444249301319680 (-47).
Proof. reflexivity. Qed.

Lemma Prim2SF_3440_065 :
  Prim2SF 0x1.ae02147ae147bp+11 = S754_finite false 7564782935610491 (-41).
Proof. reflexivity. Qed.

(** What a division hands to the rounding: a quotient that is not negative,
    at the exponent chosen for it. *)
Lemma SFdiv_core_binary_quotient (m1 e1 m2 e2 : Z) :
  (0 < m1)%Z -> (0 < m2)%Z ->
  let e' := Z.min (fexp prec emax (Zdigits2 m1 + e1 - (Zdigits2 m2 + e2))) (e1 - e2) in
  exists l,
    SFdiv_core_binary prec emax m1 e1 m2 e2 = ((m1 * 2 ^ (e1 - e2 - e')) / m2, e', l)%Z /\
    (0 <= (m1 * 2 ^ (e1 - e2 - e')) / m2)%Z.
Proof.
  intros P1 P2 e'. unfold SFdiv_core_binary. cbv zeta. fold e'.
  assert (S : (0 <= e1 - e2 - e')%Z) by (subst e'; lia).
  set (m' := match (e1 - e2 - e')%Z with
             | 0%Z => m1
             | Z.pos _ => Z.shiftl m1 (e1 - e2 - e')
             | Z.neg _ => 0%Z
             end).
  assert (M : m' = (m1 * 2 ^ (e1 - e2 - e'))%Z).
  { subst m'. destruct (e1 - e2 - e')%Z as [| p | p] eqn:E.
    - change (2 ^ 0)%Z with 1%Z. lia.
    - apply Z.shiftl_mul_pow2. lia.
    - lia. }
  assert (Q : fst (Z.div_eucl m' m2) = (m' / m2)%Z) by reflexivity.
  destruct (Z.div_eucl m' m2) as [q r]. cbn [fst] in Q. subst q. rewrite M.
  eexists. split; [reflexivity |].
  apply Z.div_pos; [| exact P2].
  apply Z.mul_nonneg_nonneg; [lia |]. apply Z.pow_nonneg. lia.
Qed.

(** A quotient by a finite number that is not zero is a NaN only when the
    dividend is. *)
Lemma div_not_nan (x y : float) (sy : bool) (my : positive) (ey : Z) :
  Prim2SF y = S754_finite sy my ey ->
  is_nan x = false -> is_nan (x / y) = false.
Proof.
  intros Ey. rewrite !is_nan_spec, div_spec, Ey.
  destruct (Prim2SF x) as [sx | sx | | sx mx ex]; try discriminate; intros _;
    try reflexivity.
  unfold SF64div. cbn [SFdiv].
  destruct (SFdiv_core_binary_quotient (Z.pos mx) ex (Z.pos my) ey ltac:(lia) ltac:(lia))
    as (l & -> & Q).
  match goal with
  | |- context [binary_round_aux _ _ ?sg ?N ?e ?l] =>
      destruct (binary_round_aux_outcomes sg N e l Q)
        as [R | [(mq & E & R & _) | (R & _)]]; rewrite R; reflexivity
  end.
Qed.

(** A finite speed in knots is a finite speed in nautical miles a minute. *)
Lemma div_60_finite (x : float) : is_finite x = true -> is_finite (x / 60) = true.
Proof.
  rewrite !is_finite_spec, div_spec, Prim2SF_60.
  pose proof (Prim2SF_valid x) as V.
  destruct (Prim2SF x) as [sx | sx | | sx mx ex]; try discriminate; intros _;
    try reflexivity.
  destruct (valid_digits sx mx ex V) as [D E].
  unfold SF64div. cbn [SFdiv].
  destruct (SFdiv_core_binary_quotient (Z.pos mx) ex 8444249301319680 (-47)
              ltac:(lia) ltac:(lia)) as (l & -> & Q).
  change (Zdigits2 8444249301319680) with 53%Z in *.
  set (e' := Z.min (fexp prec emax (Zdigits2 (Z.pos mx) + ex - (53 + -47))) (ex - -47)) in *.
  set (s := (ex - -47 - e')%Z) in *.
  set (q := (Z.pos mx * 2 ^ s / 8444249301319680)%Z) in *.
  assert (S0 : (0 <= s)%Z) by (subst s e'; lia).
  assert (E1 : (e' <= 965)%Z).
  { subst e'. unfold fexp, SpecFloat.emin, prec, emax. lia. }
  assert (Dq : (Zdigits2 q + e' <= 1019)%Z).
  { assert (T : (0 < 2 ^ s)%Z) by (apply Z.pow_pos_nonneg; lia).
    assert (Dm : (0 < Zdigits2 (Z.pos mx))%Z) by (cbn [Zdigits2]; lia).
    assert (U : (q * 2 ^ 52 < 2 ^ (Zdigits2 (Z.pos mx) + s))%Z).
    { pose proof (Z.mul_div_le (Z.pos mx * 2 ^ s) 8444249301319680 ltac:(lia)) as M.
      fold q in M.
      pose proof (Zdigits2_upper (Z.pos mx) ltac:(lia)) as Um.
      rewrite Z.pow_add_r by lia.
      assert (A : (q * 2 ^ 52 <= 8444249301319680 * q)%Z).
      { change (2 ^ 52)%Z with 4503599627370496%Z. lia. }
      assert (B : (Z.pos mx * 2 ^ s < 2 ^ Zdigits2 (Z.pos mx) * 2 ^ s)%Z).
      { apply Z.mul_lt_mono_pos_r; assumption. }
      lia. }
    destruct (Z_lt_le_dec (Zdigits2 (Z.pos mx) + s) 52) as [Lt | Ge].
    - assert (Q0 : q = 0%Z).
      { assert (W : (2 ^ (Zdigits2 (Z.pos mx) + s) <= 2 ^ 52)%Z)
          by (apply Z.pow_le_mono_r; lia).
        assert (W' : (0 < 2 ^ 52)%Z) by reflexivity. nia. }
      rewrite Q0. cbn [Zdigits2]. lia.
    - assert (U' : (q < 2 ^ (Zdigits2 (Z.pos mx) + s - 52))%Z).
      { apply (Z.mul_lt_mono_pos_r (2 ^ 52)); [reflexivity |].
        rewrite <- Z.pow_add_r by lia.
        replace (Zdigits2 (Z.pos mx) + s - 52 + 52)%Z
          with (Zdigits2 (Z.pos mx) + s)%Z by lia.
        exact U. }
      pose proof (Zdigits2_le q (Zdigits2 (Z.pos mx) + s - 52) Q ltac:(lia) U') as L.
      subst s. lia. }
  destruct (binary_round_aux_outcomes (xorb sx false) q e' l Q)
    as [R | [(mq & E2 & R & _) | (R & O)]]; rewrite R; try reflexivity.
  exfalso. unfold fexp, SpecFloat.emin, prec, emax in O. lia.
Qed.

End UnitRange.

(** ** Binary64: the predicted latitude *)

Section Binary64Latitude.
Import Binary64.
Local Open Scope float_scope.

Variable m : Libm.
Hypothesis sine_is_within_unit : sine_within_unit m.
Hypothesis cosine_is_within_unit : cosine_within_unit m.
Hypothesis arcsine_is_bounded : bounded_arcsine m.

(** What [math_1] returns is the library's value, and a number when the
    argument is a number. *)
Lemma math_1_returns (f : float -> float) (x r : float) :
  math_1 f x = Ok r -> r = f x /\ (is_nan x = false -> is_nan r = false).
Proof.
  unfold math_1. cbv zeta.
  destruct (is_nan (f x)) eqn:N; destruct (is_nan x) eqn:Nx; cbn [andb negb];
    try discriminate;
    destruct (is_infinity (f x) && is_finite x); try discriminate;
    intros E; apply Ok_inj in E; subst r; split; try reflexivity;
    intros; congruence.
Qed.

Lemma sine_returned (x r : float) :
  math_1 (c_sin m) x = Ok r -> is_nan x = false -> exponent_at_most (-52) r.
Proof.
  intros E Nx. destruct (math_1_returns _ _ _ E) as [-> N]. specialize (N Nx).
  apply unit_exponent.
  destruct (sine_is_within_unit x) as [B | B]; [congruence | exact B].
Qed.

Lemma cosine_returned (x r : float) :
  math_1 (c_cos m) x = Ok r -> is_nan x = false -> exponent_at_most (-52) r.
Proof.
  intros E Nx. destruct (math_1_returns _ _ _ E) as [-> N]. specialize (N Nx).
  apply unit_exponent.
  destruct (cosine_is_within_unit x) as [B | B]; [congruence | exact B].
Qed.

(** The travelled arc of finite inputs is a number. *)
Lemma travelled_arc_not_nan (spd t : float) :
  is_finite spd = true -> is_finite t = true ->
  is_nan (spd / 60 * t / 0x1.ae02147ae147bp+11) = false.
Proof.
  intros Fs Ft.
  apply (div_not_nan _ _ _ _ _ Prim2SF_3440_065).
  apply mul_finite_not_nan; [apply div_60_finite; exact Fs | exact Ft].
Qed.

(** The latitude that [predict_position] returns for finite inputs is at
    most 90 in magnitude. *)
Lemma binary64_predicted_latitude_bound (lat lon crs spd t plat plon : float) :
  is_finite lat = true -> is_finite crs = true ->
  is_finite spd = true -> is_finite t = true ->
  predict_position (H := sem m) lat lon crs spd t = Ok (plat, plon) ->
  (abs plat <=? 90) = true.
Proof.
  intros Flat Fcrs Fspd Ft.
  pose proof (finite_not_nan _ (radians_finite lat Flat)) as Nlat.
  pose proof (finite_not_nan _ (radians_finite crs Fcrs)) as Ncrs.
  pose proof (travelled_arc_not_nan spd t Fspd Ft) as Narc.
  unfold predict_position.
  cbn [radians degrees math_sin math_cos math_asin math_atan2 fadd fsub fmul fdiv
       of_int lit_3440_065 sem]. unfold earth_radius_nm.
  cbn [lit_3440_065 sem]. change (float_of_Z 60) with 60.
  destruct (math_1 (c_sin m) (lat * degToRad)) as [sin_lat |] eqn:E1; [| discriminate].
  cbn [bind].
  destruct (math_1 (c_cos m) (spd / 60 * t / 0x1.ae02147ae147bp+11)) as [cos_d |] eqn:E2;
    [| discriminate].
  cbn [bind].
  destruct (math_1 (c_cos m) (lat * degToRad)) as [cos_lat |] eqn:E3; [| discriminate].
  cbn [bind].
  destruct (math_1 (c_sin m) (spd / 60 * t / 0x1.ae02147ae147bp+11)) as [sin_d |] eqn:E4;
    [| discriminate].
  cbn [bind].
  destruct (math_1 (c_cos m) (crs * degToRad)) as [cos_crs |] eqn:E5; [| discriminate].
  cbn [bind].
  destruct (math_1 (c_asin m) (sin_lat * cos_d + cos_lat * sin_d * cos_crs))
    as [predicted_latitude |] eqn:A; [| discriminate].
  cbn [bind].
  repeat match goal with
         | |- context [bind ?c _] => destruct c as [? | ?]; [| discriminate]; cbn [bind]
         end.
  intros E. apply Ok_inj in E.
  assert (P : plat = predicted_latitude * radToDeg).
  { change plat with (fst (plat, plon)). rewrite <- E. reflexivity. }
  subst plat. apply degrees_bound.
  pose proof (sine_returned _ _ E1 Nlat) as X1.
  pose proof (cosine_returned _ _ E2 Narc) as X2.
  pose proof (cosine_returned _ _ E3 Nlat) as X3.
  pose proof (sine_returned _ _ E4 Narc) as X4.
  pose proof (cosine_returned _ _ E5 Ncrs) as X5.
  pose proof (mul_exponent _ _ _ _ X1 X2 ltac:(lia)) as M1.
  pose proof (mul_exponent _ _ _ _ X3 X4 ltac:(lia)) as M2.
  pose proof (mul_exponent _ _ _ _ M2 X5 ltac:(lia)) as M3.
  pose proof (add_finite_not_nan _ _ (exponent_finite _ _ M1) (exponent_finite _ _ M3))
    as Narg.
  destruct (math_1_returns _ _ _ A) as [-> N]. specialize (N Narg).
  destruct (arcsine_is_bounded (sin_lat * cos_d + cos_lat * sin_d * cos_crs)) as [B | B];
    [congruence | exact B].
Qed.

End Binary64Latitude.

(** ** Binary64: the symmetry of the distance *)

Section Binary64Symmetry.
Import Binary64.
Local Open Scope float_scope.

Variable m : Libm.
Hypothesis sine_is_odd : odd_sine m.

Lemma float_pow_2_even (s : float) : float_pow_2 m (- s) = float_pow_2 m s.
Proof.
  unfold float_pow_2.
  rewrite is_nan_opp, is_infinity_opp, abs_opp.
  destruct (is_nan s) eqn:N; [rewrite (opp_nan s N); reflexivity |].
  destruct (is_infinity s) eqn:I; [reflexivity |].
  rewrite !eqb_zero_spec, !ltb_zero_spec, opp_spec.
  rewrite is_nan_spec in N. rewrite is_infinity_spec in I.
  destruct (Prim2SF s) as [sg | sg | | sg mz ez]; try discriminate; cbn; [reflexivity |].
  destruct sg; cbn; rewrite ?opp_involutive; reflexivity.
Qed.

(** [math.sin] of an opposite: the opposite value, or the same exception. *)
Lemma math_sin_opp (x : float) :
  math_1 (c_sin m) (- x) =
  match math_1 (c_sin m) x with
  | Ok r => Ok (- r)
  | Raise e => Raise e
  end.
Proof.
  unfold math_1. cbv zeta. rewrite sine_is_odd.
  rewrite !is_nan_opp, !is_infinity_opp, is_finite_opp.
  destruct (is_nan (c_sin m x) && negb (is_nan x)); [reflexivity |].
  destruct (is_infinity (c_sin m x) && is_finite x); reflexivity.
Qed.

Lemma math_1_raises (f : float -> float) (x : float) (e : exn) :
  math_1 f x = Raise e -> e = ValueError.
Proof.
  unfold math_1. cbv zeta.
  destruct (is_nan (f x) && negb (is_nan x)); [congruence |].
  destruct (is_infinity (f x) && is_finite x); congruence.
Qed.

Lemma half_sine_squared_opp (d : float) :
  half_sine_squared m (- d) = half_sine_squared m d.
Proof.
  unfold half_sine_squared.
  rewrite mul_opp_l, div_opp_l, math_sin_opp.
  destruct (math_1 (c_sin m) (d * degToRad / 2)) as [r | e]; cbn; [| reflexivity].
  apply float_pow_2_even.
Qed.

Lemma half_sine_squared_swap (x y : float) :
  half_sine_squared m (y - x) = half_sine_squared m (x - y).
Proof.
  destruct (sub_antisym x y) as [E | [E1 E2]].
  - rewrite E. apply half_sine_squared_opp.
  - rewrite E1, E2. reflexivity.
Qed.

Lemma haversine_a_unfold (lat1 lon1 lat2 lon2 : float) :
  haversine_a (H := sem m) lat1 lon1 lat2 lon2 =
  (s1sq <- half_sine_squared m (lat2 - lat1) ;;
   c1 <- math_1 (c_cos m) (lat1 * degToRad) ;;
   c2 <- math_1 (c_cos m) (lat2 * degToRad) ;;
   s2sq <- half_sine_squared m (lon2 - lon1) ;;
   Ok (s1sq + c1 * c2 * s2sq)).
Proof.
  unfold haversine_a, half_sine_squared. cbn.
  destruct (math_1 (c_sin m) _) as [s1 | e]; cbn; [| reflexivity].
  destruct (float_pow_2 m s1) as [s1sq | e]; cbn; [| reflexivity].
  destruct (math_1 (c_cos m) _) as [c1 | e]; cbn; [| reflexivity].
  destruct (math_1 (c_cos m) _) as [c2 | e]; cbn; [| reflexivity].
  destruct (math_1 (c_sin m) _) as [s2 | e]; cbn; reflexivity.
Qed.

Lemma haversine_a_binary64_sym (lat1 lon1 lat2 lon2 : float) :
  haversine_a (H := sem m) lat1 lon1 lat2 lon2 =
  haversine_a (H := sem m) lat2 lon2 lat1 lon1.
Proof.
  rewrite !haversine_a_unfold.
  rewrite (half_sine_squared_swap lat1 lat2), (half_sine_squared_swap lon1 lon2).
  destruct (half_sine_squared m (lat1 - lat2)) as [s1sq | e]; cbn [bind]; [| reflexivity].
  destruct (math_1 (c_cos m) (lat1 * degToRad)) as [c1 | e1] eqn:E1;
    destruct (math_1 (c_cos m) (lat2 * degToRad)) as [c2 | e2] eqn:E2; cbn [bind];
    try reflexivity.
  - rewrite (mul_comm c2 c1). reflexivity.
  - apply math_1_raises in E1, E2. subst. reflexivity.
Qed.

Lemma haversine_binary64_sym (lat1 lon1 lat2 lon2 : float) :
  haversine (H := sem m) lat1 lon1 lat2 lon2 =
  haversine (H := sem m) lat2 lon2 lat1 lon1.
Proof. unfold haversine. rewrite haversine_a_binary64_sym. reflexivity. Qed.

End Binary64Symmetry.

(** ** Binary64: the distance from a point to itself *)

Section Binary64Zero.
Import Binary64.
Local Open Scope float_scope.

Variable m : Libm.
Hypothesis at_zero_exact : agrees m annex_F.
Hypothesis cosine_is_bounded : bounded_cosine m.

Lemma half_sine_squared_zero : half_sine_squared m 0 = Ok 0.
Proof.
  destruct (agrees_annex_F m at_zero_exact) as (s0 & _).
  unfold half_sine_squared. cbn. unfold math_1. rewrite s0. reflexivity.
Qed.

Lemma math_cos_returns (x : float) :
  is_finite x = true -> math_1 (c_cos m) x = Ok (c_cos m x).
Proof.
  intros Fx.
  destruct (leb_one_not_nan_inf (c_cos m x) (cosine_is_bounded x Fx)) as [N I].
  unfold math_1. cbv zeta. rewrite N, I. reflexivity.
Qed.

Lemma haversine_a_binary64_same (lat lon : float) :
  is_finite lat = true -> is_finite lon = true ->
  haversine_a (H := sem m) lat lon lat lon = Ok 0.
Proof.
  intros Flat Flon. rewrite haversine_a_unfold.
  rewrite (sub_diag_finite lat Flat), (sub_diag_finite lon Flon).
  rewrite half_sine_squared_zero. cbn [bind].
  pose proof (radians_finite lat Flat) as Frad.
  rewrite !(math_cos_returns _ Frad). cbn [bind].
  rewrite (square_times_zero _ (cosine_is_bounded _ Frad)). reflexivity.
Qed.

Lemma haversine_binary64_same (lat lon : float) :
  is_finite lat = true -> is_finite lon = true ->
  haversine (H := sem m) lat lon lat lon = Ok 0.
Proof.
  intros Flat Flon. unfold haversine.
  rewrite (haversine_a_binary64_same lat lon Flat Flon). cbn. reflexivity.
Qed.

End Binary64Zero.

(** ** Invalid input *)

Lemma exact_predict_position_returns (lat lon crs spd t : Exact.xreal) :
  exists p, predict_position lat lon crs spd t = Ok p.
Proof.
  destruct lat as [lat |], crs as [crs |], spd as [spd |], t as [t |];
    try (destruct lon; eexists; reflexivity).
  destruct lon as [lon |].
  - eexists. apply exact_predict_position.
  - unfold predict_position. cbn.
    set (x := (_ + _)%R).
    assert (B : (-1 <= x <= 1)%R).
    { apply (asin_argument_bound (lat * (PI / 180))
               (spd / 60 * t / (3440065 / 1000)) (crs * (PI / 180))). }
    destruct (Rle_dec (-1) x) as [_ | N]; [| exfalso; apply N; apply B].
    destruct (Rle_dec x 1) as [_ | N]; [| exfalso; apply N; apply B].
    eexists. reflexivity.
Qed.

(** On real numbers a negative speed is a projection backwards: the
    prediction at speed [- spd] on a course is the prediction at [spd] on the
    opposite course. *)
Lemma exact_negative_speed (lat lon crs spd t : R) :
  predict_position (Exact.Real lat) (Exact.Real lon) (Exact.Real crs)
    (Exact.Real (- spd)) (Exact.Real t)
  = predict_position (Exact.Real lat) (Exact.Real lon) (Exact.Real (crs + 180))
      (Exact.Real spd) (Exact.Real t).
Proof.
  pose proof PI_RGT_0 as P.
  rewrite !exact_predict_position.
  replace (- spd / 60 * t / (3440065 / 1000))%R
    with (- (spd / 60 * t / (3440065 / 1000)))%R by field.
  replace ((crs + 180) * (PI / 180))%R with (crs * (PI / 180) + PI)%R by field.
  set (delta := (spd / 60 * t / (3440065 / 1000))%R).
  set (theta := (crs * (PI / 180))%R). set (phi := (lat * (PI / 180))%R).
  assert (A : Exact.asin_argument phi (- delta) theta
              = Exact.asin_argument phi delta (theta + PI)).
  { unfold Exact.asin_argument. rewrite sin_neg, cos_neg, neg_cos. ring. }
  rewrite A, sin_neg, cos_neg, neg_sin.
  replace (Rtrigo_def.sin theta * - Rtrigo_def.sin delta * Rtrigo_def.cos phi)%R
    with (- Rtrigo_def.sin theta * Rtrigo_def.sin delta * Rtrigo_def.cos phi)%R by ring.
  reflexivity.
Qed.

(** On real numbers a NaN comes out as a NaN: a missing latitude, course,
    speed or time gives a position of two NaNs, and a missing longitude
    alone a NaN longitude under the latitude of the other inputs. *)
Lemma exact_nan_in_nan_out (lat lon crs spd t : Exact.xreal) :
  (lat = Exact.NaN \/ crs = Exact.NaN \/ spd = Exact.NaN \/ t = Exact.NaN ->
   predict_position lat lon crs spd t = Ok (Exact.NaN, Exact.NaN)) /\
  (forall lat' crs' spd' t' : R,
     lat = Exact.Real lat' -> crs = Exact.Real crs' ->
     spd = Exact.Real spd' -> t = Exact.Real t' -> lon = Exact.NaN ->
     exists plat : R,
       predict_position lat lon crs spd t = Ok (Exact.Real plat, Exact.NaN)).
Proof.
  split.
  - intros N.
    destruct lat as [lat |], crs as [crs |], spd as [spd |], t as [t |];
      try (destruct lon; reflexivity).
    exfalso. destruct N as [N | [N | [N | N]]]; discriminate N.
  - intros lat' crs' spd' t' -> -> -> -> ->.
    unfold predict_position. cbn.
    set (x := (_ + _)%R).
    assert (B : (-1 <= x <= 1)%R).
    { apply (asin_argument_bound (lat' * (PI / 180))
               (spd' / 60 * t' / (3440065 / 1000)) (crs' * (PI / 180))). }
    destruct (Rle_dec (-1) x) as [_ | N]; [| exfalso; apply N; apply B].
    destruct (Rle_dec x 1) as [_ | N]; [| exfalso; apply N; apply B].
    eexists. reflexivity.
Qed.

(** C2, as the code has it.  Nothing validates the input of a prediction.
    In a batch no record is ever excluded: when the batch returns, its frame
    has every row of the input, each with the position that [predict_row]
    returns for it in its two predicted cells and with its other cells
    unchanged; when the prediction of one row raises, the batch raises as a
    whole and no record gets a result.  On real numbers, a NaN included, the
    prediction of a position always returns: a negative speed is projected
    backwards (it is the prediction on the opposite course) and a NaN comes
    out as a NaN.  In binary64 the prediction can raise, though not for an
    input that it refuses: from 72.534 N on course 0 at 20 knots, 3146
    minutes ahead, rounding takes the argument of the arcsine above 1 and
    ValueError (math domain error) is raised. *)
Theorem predict_future_positions_excludes_nothing :
  (forall (F : Type) (sem : PyFloat F) (df : DataFrame F) (time_minutes : F),
     (forall df',
        predict_future_positions df time_minutes = Ok df' ->
        nrows df' = nrows df /\
        forall i, (i < nrows df)%nat ->
          exists plat plon : F,
            predict_row (row_at df i) time_minutes = Ok (plat, plon) /\
            row_get (row_at df' i) "PREDICTED_LATITUDE" = Ok (VNum plat) /\
            row_get (row_at df' i) "PREDICTED_LONGITUDE" = Ok (VNum plon) /\
            forall name,
              name <> "PREDICTED_LATITUDE"%string ->
              name <> "PREDICTED_LONGITUDE"%string ->
              row_get (row_at df' i) name = row_get (row_at df i) name) /\
     (forall i e,
        (i < nrows df)%nat ->
        predict_row (row_at df i) time_minutes = Raise e ->
        exists e', predict_future_positions df time_minutes = Raise e')) /\
  (forall lat lon crs spd t : Exact.xreal,
     exists p, predict_position lat lon crs spd t = Ok p) /\
  (forall lat lon crs spd t : R,
     predict_position (Exact.Real lat) (Exact.Real lon) (Exact.Real crs)
       (Exact.Real (- spd)) (Exact.Real t)
     = predict_position (Exact.Real lat) (Exact.Real lon) (Exact.Real (crs + 180))
         (Exact.Real spd) (Exact.Real t)) /\
  (forall lat lon crs spd t : Exact.xreal,
     lat = Exact.NaN \/ crs = Exact.NaN \/ spd = Exact.NaN \/ t = Exact.NaN ->
     predict_position lat lon crs spd t = Ok (Exact.NaN, Exact.NaN)) /\
  (forall lat crs spd t : R,
     exists plat : R,
       predict_position (Exact.Real lat) Exact.NaN (Exact.Real crs)
         (Exact.Real spd) (Exact.Real t) = Ok (Exact.Real plat, Exact.NaN)) /\
  Binary64.on_platforms_with (Binary64.annex_F ++ Binary64.overshoot_samples) (fun m =>
    predict_position (H := Binary64.sem m)
      0x1.2222d0e560419p+6%float 0%float 0%float 20%float 3146%float
    = Raise ValueError).
Proof.
  split; [| split; [| split; [| split; [| split]]]].
  - intros F sem df t. split.
    + intros df' E. apply predict_future_positions_Ok in E.
      destruct E as (lats & lons & L1 & L2 & P & ->).
      destruct (with_predictions_frame df lats lons) as (N & R & _ & C).
      split; [exact N |].
      intros i Li. exists (nth i lats nan), (nth i lons nan).
      split; [apply P; exact Li |].
      destruct (C i) as [C1 C2]. rewrite C1, C2.
      change (VNum (@nan F sem)) with (@VNum F (@nan F sem)).
      rewrite !(map_nth (@VNum F)).
      split; [reflexivity |]. split; [reflexivity |].
      intros name N1 N2. apply R; assumption.
    + intros i e L E. eapply predict_future_positions_Raise; eassumption.
  - apply exact_predict_position_returns.
  - apply exact_negative_speed.
  - intros lat lon crs spd t N.
    apply (proj1 (exact_nan_in_nan_out lat lon crs spd t)). exact N.
  - intros lat crs spd t.
    apply (proj2 (exact_nan_in_nan_out (Exact.Real lat) Exact.NaN (Exact.Real crs)
                    (Exact.Real spd) (Exact.Real t)) lat crs spd t); reflexivity.
  - intros m A. apply Forall_app in A. destruct A as [A S].
    unfold Binary64.agrees, Binary64.overshoot_samples in S.
    repeat match goal with
           | H : Forall _ (_ :: _) |- _ => inversion H; clear H; subst
           end.
    cbn [Binary64.returns] in *.
    at_zero A.
    repeat match goal with
           | H : _ = _ |- _ => rewrite H; clear H; cbn
           end.
    reflexivity.
Qed.

(** C2, as stated, fails.  A batch of three records, the first with a speed
    of -1 knot and the second with a NaN longitude, predicted 0 minutes
    ahead: no error is raised and all three records get a predicted
    position, the one of the second a NaN. *)
Lemma invalid_records_are_predicted :
  Binary64.on_every_platform (fun m =>
    predict_future_positions (H := Binary64.sem m) Examples.scenario_E 0%float =
    Ok (with_predictions Examples.scenario_E
          [0; 0; 0]%float [0; PrimFloat.nan; 0x1.dffffffffffffp+5]%float)).
Proof.
  intros m A. unfold predict_future_positions. at_zero A. reflexivity.
Qed.

(** ** A failed request *)

(** C3.  When every request fails, [get_vessel_data] returns a frame of one
    row and one column, which is not [empty]; the sampling cycle goes on to
    predict from it and raises KeyError at its first row, in the periodic
    retrieval as in the main program. *)
Theorem request_failure_is_not_empty :
  forall (F : Type) (sem : PyFloat F) (e : string) (radius_km time_minutes : F)
         (calls remaining : nat),
    (exists df : DataFrame F,
       get_vessel_data (RequestException e) = Ok df /\
       empty df = false /\ nrows df = 1%nat) /\
    retrieval_iteration (fun _ => RequestException e) calls radius_km time_minutes
      = Raise KeyError /\
    retrieve_vessel_data_periodically (fun _ => RequestException e) calls
      radius_km time_minutes (S remaining) = Raise KeyError /\
    main_program (fun _ => RequestException e) radius_km time_minutes
      = Raise KeyError.
Proof.
  intros F sem e r t calls remaining. split; [| split; [| split]].
  - eexists. split; [reflexivity |]. split; reflexivity.
  - reflexivity.
  - reflexivity.
  - reflexivity.
Qed.

(** ** The predicted longitude *)

(** C4, as the code has it.  The predicted longitude is the input longitude
    plus an angle, and is not brought back into [-180, 180].  In exact
    arithmetic the angle is of at most half a turn, and the predicted
    longitude lies within 180 degrees of the input longitude.  In binary64
    rounding can take it beyond that too: from (80 N, 150 E) on course 0 at
    60 knots, 1200 minutes ahead (over the pole), with the values glibc
    returns, the predicted longitude is 330.00000000000006, above
    150 + 180. *)
Theorem predicted_longitude_within_half_turn :
  (forall lat lon crs spd t : R,
     exists plat plon,
       predict_position (Exact.Real lat) (Exact.Real lon) (Exact.Real crs)
         (Exact.Real spd) (Exact.Real t) = Ok (Exact.Real plat, Exact.Real plon) /\
       (lon - 180 <= plon <= lon + 180)%R) /\
  Binary64.on_platforms_with (Binary64.annex_F ++ Binary64.polar_samples) (fun m =>
    predict_position (H := Binary64.sem m) 80%float 150%float 0%float 60%float 1200%float
      = Ok (0x1.400dcd2155a7fp+6, 0x1.4a00000000001p+8)%float /\
    PrimFloat.ltb (150 + 180)%float 0x1.4a00000000001p+8%float = true).
Proof.
  split.
  - intros lat lon crs spd t. eexists. eexists.
    split; [apply exact_predict_position |].
    apply exact_predicted_longitude_range. apply Ratan2_bound.
  - intros m A. apply Forall_app in A. destruct A as [A S].
    unfold Binary64.agrees, Binary64.polar_samples in S.
    repeat match goal with
           | H : Forall _ (_ :: _) |- _ => inversion H; clear H; subst
           end.
    cbn [Binary64.returns] in *.
    split; [| reflexivity].
    at_zero A.
    repeat match goal with
           | H : _ = _ |- _ => rewrite H; clear H; cbn
           end.
    reflexivity.
Qed.

(** C4, as stated, fails.  At (0 N, 180 E), course 90, 60 knots, 10
    minutes, every input is in its range and the predicted longitude is
    beyond 180: on real numbers, and in binary64, where it is
    180.16655435148198 with the values glibc returns. *)
Lemma predicted_longitude_exceeds_180 :
  ~ (forall lat lon crs spd t plat plon : R,
       (-90 <= lat <= 90)%R -> (-180 <= lon <= 180)%R -> (0 <= crs < 360)%R ->
       (0 <= spd)%R -> (0 <= t)%R ->
       predict_position (Exact.Real lat) (Exact.Real lon) (Exact.Real crs)
         (Exact.Real spd) (Exact.Real t) = Ok (Exact.Real plat, Exact.Real plon) ->
       (-180 <= plon <= 180)%R) /\
  Binary64.on_platforms_with (Binary64.annex_F ++ Binary64.eastward_samples) (fun m =>
    predict_position (H := Binary64.sem m) 0%float 180%float 90%float 60%float 10%float
      = Ok (0x1.784217da16198p-57, 0x1.6855469ca93e4p+7)%float /\
    PrimFloat.ltb 180%float 0x1.6855469ca93e4p+7%float = true).
Proof.
  split.
  - intros C. destruct exact_longitude_past_180 as (plat & plon & E & L).
    specialize (C 0 180 90 60 10 plat plon)%R.
    assert (B : (-180 <= plon <= 180)%R) by (apply C; try lra; exact E).
    lra.
  - intros m A. apply Forall_app in A. destruct A as [A S].
    unfold Binary64.agrees, Binary64.eastward_samples in S.
    repeat match goal with
           | H : Forall _ (_ :: _) |- _ => inversion H; clear H; subst
           end.
    cbn [Binary64.returns] in *.
    split; [| reflexivity].
    at_zero A.
    repeat match goal with
           | H : _ = _ |- _ => rewrite H; clear H; cbn
           end.
    reflexivity.
Qed.

(** ** No distance travelled *)

(** C5, as the code has it.  In exact arithmetic, for a latitude in
    [-90, 90], any longitude and any course, with a speed of 0 or 0 minutes,
    the predicted position is the input position.  In binary64 it is not
    always: on every platform that follows Annex F, longitude 60 comes back
    as 59.99999999999999, from the rounding of the conversions to radians
    and back; and with the values glibc returns, latitude 89.999999 comes
    back as 89.99999914622636, from the arcsine of the sine near the pole,
    although the conversion of that latitude to radians and back is
    exact. *)
Theorem no_travel_is_identity_exact :
  (forall lat lon crs spd t : R,
     (-90 <= lat <= 90)%R -> spd = 0%R \/ t = 0%R ->
     predict_position (Exact.Real lat) (Exact.Real lon) (Exact.Real crs)
       (Exact.Real spd) (Exact.Real t) = Ok (Exact.Real lat, Exact.Real lon)) /\
  Binary64.on_every_platform (fun m =>
    predict_position (H := Binary64.sem m) 0%float 60%float 0%float 0%float 10%float
      = Ok (0%float, 0x1.dffffffffffffp+5%float) /\
    PrimFloat.ltb 0x1.dffffffffffffp+5%float 60%float = true) /\
  Binary64.on_platforms_with (Binary64.annex_F ++ Binary64.near_pole_samples) (fun m =>
    predict_position (H := Binary64.sem m)
      0x1.67ffffbce4218p+6%float 0%float 0%float 0%float 10%float
      = Ok (0x1.67ffffc6b447dp+6%float, 0%float) /\
    PrimFloat.ltb 0x1.67ffffbce4218p+6%float 0x1.67ffffc6b447dp+6%float = true /\
    @degrees _ (Binary64.sem m) (@radians _ (Binary64.sem m) 0x1.67ffffbce4218p+6%float)
      = 0x1.67ffffbce4218p+6%float).
Proof.
  split; [exact exact_no_travel | split].
  - intros m A. split; [| reflexivity]. at_zero A. reflexivity.
  - intros m A. apply Forall_app in A. destruct A as [A S].
    unfold Binary64.agrees, Binary64.near_pole_samples in S.
    repeat match goal with
           | H : Forall _ (_ :: _) |- _ => inversion H; clear H; subst
           end.
    cbn [Binary64.returns] in *.
    split; [| split; reflexivity].
    at_zero A.
    repeat match goal with
           | H : _ = _ |- _ => rewrite H; clear H; cbn
           end.
    reflexivity.
Qed.

Lemma no_travel_is_identity_exact_witness :
  predict_position (Exact.Real 45) (Exact.Real 60) (Exact.Real 90)
    (Exact.Real 0) (Exact.Real 10) = Ok (Exact.Real 45, Exact.Real 60).
Proof.
  apply (proj1 no_travel_is_identity_exact 45 60 90 0 10)%R; [lra | left; reflexivity].
Defined.

(** C5, as stated, fails on binary64.  On the equator at 60 E, course 0, a
    speed of 0: the predicted longitude is 59.99999999999999, the double
    below 60, from the rounding of the conversions to radians and back. *)
Lemma no_travel_moves_longitude_binary64 :
  Binary64.on_every_platform (fun m =>
    exists predicted_lon,
      predict_position (H := Binary64.sem m) 0%float 60%float 0%float 0%float 10%float
        = Ok (0%float, predicted_lon) /\
      PrimFloat.eqb predicted_lon 60%float = false /\
      PrimFloat.ltb predicted_lon 60%float = true).
Proof.
  intros m A. exists 0x1.dffffffffffffp+5%float. split.
  - at_zero A. reflexivity.
  - split; reflexivity.
Qed.

(** ** The great-circle distance *)

(** The platform hypotheses below hold together on some platform. *)
Lemma first_order_platform_fits :
  Binary64.agrees Binary64.first_order_platform Binary64.annex_F /\
  Binary64.odd_sine Binary64.first_order_platform /\
  Binary64.bounded_cosine Binary64.first_order_platform /\
  Binary64.bounded_arcsine Binary64.first_order_platform.
Proof.
  split; [repeat constructor |]. split; [| split].
  - intros x. reflexivity.
  - intros x _. reflexivity.
  - intros x. cbn.
    destruct (PrimFloat.leb (PrimFloat.abs x) Binary64.pio2) eqn:E.
    + right. exact E.
    + left. reflexivity.
Qed.

(** In binary64 a latitude that [predict_position] returns is the library's
    arcsine converted to degrees: a NaN, or at most 90 in magnitude when the
    arcsine is bounded. *)
Lemma binary64_predicted_latitude_range (m : Binary64.Libm)
    (lat lon crs spd t plat plon : float) :
  Binary64.bounded_arcsine m ->
  predict_position (H := Binary64.sem m) lat lon crs spd t = Ok (plat, plon) ->
  PrimFloat.is_nan plat = true \/
  PrimFloat.leb (PrimFloat.abs plat) 90%float = true.
Proof.
  intros B. unfold predict_position.
  repeat match goal with
         | |- context [bind ?c _] =>
             match c with
             | math_asin ?x => destruct c as [r | e] eqn:A; [| discriminate]
             | _ => destruct c as [? | ?]; [| discriminate]
             end; cbn [bind]
         end.
  intros E. apply Ok_inj in E.
  assert (P : plat = (r * Binary64.radToDeg)%float).
  { change plat with (fst (plat, plon)). rewrite <- E. reflexivity. }
  assert (R : exists x : float, r = Binary64.c_asin m x).
  { cbn [math_asin Binary64.sem] in A. unfold Binary64.math_1 in A. cbv zeta in A.
    match type of A with
    | context [Binary64.c_asin m ?x] => exists x
    end.
    revert A.
    repeat match goal with
           | |- context [if ?b then _ else _] => destruct b
           end; intros A; try discriminate.
    symmetry. apply Ok_inj. exact A. }
  destruct R as [x ->]. subst plat.
  destruct (B x) as [N | L].
  - left. apply is_nan_mul_l. exact N.
  - right. apply degrees_bound. exact L.
Qed.

(** C7.  The great-circle distance is the same from [a] to [b] as from [b]
    to [a], and is 0 from a point to itself.  On real numbers it always
    returns and both hold.  In binary64, on every platform whose sine is odd,
    the two directions give the same result (the same double, or the same
    exception) for all doubles; and on every platform that follows Annex F
    and whose cosine of a finite number does not exceed 1 in magnitude, the
    distance from a point of finite coordinates to itself is [0.0]. *)
Theorem haversine_symmetric_and_zero :
  (forall lat1 lon1 lat2 lon2 : R,
     haversine (Exact.Real lat1) (Exact.Real lon1) (Exact.Real lat2) (Exact.Real lon2) =
     haversine (Exact.Real lat2) (Exact.Real lon2) (Exact.Real lat1) (Exact.Real lon1) /\
     (exists d : R,
        haversine (Exact.Real lat1) (Exact.Real lon1) (Exact.Real lat2) (Exact.Real lon2) =
        Ok (Exact.Real d)) /\
     haversine (Exact.Real lat1) (Exact.Real lon1) (Exact.Real lat1) (Exact.Real lon1) =
     Ok (Exact.Real 0)) /\
  (forall m : Binary64.Libm,
     Binary64.odd_sine m ->
     forall lat1 lon1 lat2 lon2 : float,
       haversine (H := Binary64.sem m) lat1 lon1 lat2 lon2 =
       haversine (H := Binary64.sem m) lat2 lon2 lat1 lon1) /\
  (forall m : Binary64.Libm,
     Binary64.agrees m Binary64.annex_F ->
     Binary64.bounded_cosine m ->
     forall lat lon : float,
       PrimFloat.is_finite lat = true -> PrimFloat.is_finite lon = true ->
       haversine (H := Binary64.sem m) lat lon lat lon = Ok 0%float).
Proof.
  split; [| split].
  - intros lat1 lon1 lat2 lon2. split; [| split].
    + rewrite !exact_haversine, (hav_sym lat1 lon1 lat2 lon2). reflexivity.
    + eexists. apply exact_haversine.
    + rewrite exact_haversine, hav_same.
      replace (1 - 0)%R with 1%R by ring.
      rewrite sqrt_0, sqrt_1, (Ratan2_zero_nonneg 1%R) by lra.
      do 2 f_equal. ring.
  - intros m O lat1 lon1 lat2 lon2. apply haversine_binary64_sym. exact O.
  - intros m A B lat lon Flat Flon. apply haversine_binary64_same; assumption.
Qed.

(** C8, in exact arithmetic.  For every pair of coordinates the quantity
    [a] and [1 - a] lie in [0, 1], and neither square root raises. *)
Theorem haversine_sqrt_arguments_exact :
  forall lat1 lon1 lat2 lon2 : R,
    exists a : R,
      haversine_a (Exact.Real lat1) (Exact.Real lon1) (Exact.Real lat2) (Exact.Real lon2) =
        Ok (Exact.Real a) /\
      (0 <= a <= 1)%R /\ (0 <= 1 - a <= 1)%R /\
      math_sqrt (Exact.Real a) = Ok (Exact.Real (R_sqrt.sqrt a)) /\
      math_sqrt (fsub (of_int 1) (Exact.Real a)) = Ok (Exact.Real (R_sqrt.sqrt (1 - a))).
Proof.
  intros lat1 lon1 lat2 lon2. exists (Exact.hav lat1 lon1 lat2 lon2).
  destruct (hav_range lat1 lon1 lat2 lon2) as [L U].
  split; [apply exact_haversine_a |]. split; [lra |]. split; [lra |]. cbn. split.
  - destruct (Rle_dec 0 (Exact.hav lat1 lon1 lat2 lon2)) as [_ | N];
      [reflexivity | contradiction].
  - destruct (Rle_dec 0 (1 - Exact.hav lat1 lon1 lat2 lon2)) as [_ | N];
      [reflexivity | exfalso; lra].
Qed.

(** C8, as stated, fails on binary64.  From (8 N, 0 E) to (8 S, 180 E),
    with [sin], [cos] and [pow] correctly rounded at the five arguments met,
    [a] is the double above 1, [1 - a] is negative, and its square root
    raises ValueError: the distance is not computed. *)
Lemma haversine_sqrt_domain_error_binary64 :
  Binary64.on_platforms_with Binary64.rounded_samples (fun m =>
    haversine_a (H := Binary64.sem m) 8%float 0%float (-8)%float 180%float
      = Ok 0x1.0000000000001p+0%float /\
    PrimFloat.ltb 1%float 0x1.0000000000001p+0%float = true /\
    math_sqrt (PyFloat := Binary64.sem m) (1 - 0x1.0000000000001p+0)%float
      = Raise ValueError /\
    haversine (H := Binary64.sem m) 8%float 0%float (-8)%float 180%float
      = Raise ValueError).
Proof.
  intros m A. unfold Binary64.agrees, Binary64.rounded_samples in A.
  repeat match goal with
         | H : Forall _ (_ :: _) |- _ => inversion H; clear H; subst
         end.
  cbn [Binary64.returns] in *.
  assert (E : haversine_a (H := Binary64.sem m) 8%float 0%float (-8)%float 180%float
              = Ok 0x1.0000000000001p+0%float).
  { unfold haversine_a. cbn.
    unfold Binary64.math_1, Binary64.float_pow_2.
    repeat match goal with
           | H : _ = _ |- _ => rewrite H; clear H; cbn
           end.
    reflexivity. }
  split; [exact E |]. split; [reflexivity |]. split; [reflexivity |].
  unfold haversine. rewrite E. reflexivity.
Qed.

(** ** The predicted latitude *)

(** The platform hypotheses of the latitude bound hold together, with those
    above, on some platform. *)
Lemma unit_platform_fits :
  Binary64.agrees Binary64.unit_platform Binary64.annex_F /\
  Binary64.odd_sine Binary64.unit_platform /\
  Binary64.bounded_cosine Binary64.unit_platform /\
  Binary64.bounded_arcsine Binary64.unit_platform /\
  Binary64.sine_within_unit Binary64.unit_platform /\
  Binary64.cosine_within_unit Binary64.unit_platform.
Proof.
  destruct first_order_platform_fits as (_ & _ & C & A).
  split; [repeat constructor |]. split; [| split; [| split; [| split]]].
  - intros x. cbn. rewrite abs_opp.
    destruct (PrimFloat.leb (PrimFloat.abs x) 1); [reflexivity | apply mul_opp_l].
  - exact C.
  - exact A.
  - intros x. cbn.
    destruct (PrimFloat.leb (PrimFloat.abs x) 1) eqn:E; [right; exact E |].
    rewrite is_nan_spec, leb_spec, abs_spec, mul_spec, Prim2SF_zero.
    destruct (Prim2SF x) as [sx | sx | | sx mx ex];
      [right; reflexivity | left; reflexivity | left; reflexivity | right; reflexivity].
  - intros x. right. reflexivity.
Qed.

(** C10.  On real numbers the prediction of a position always returns, and
    its latitude, the arcsine converted to degrees, lies in [-90, 90]; no
    such bound holds for its longitude, which from 180 E goes beyond 180.
    In binary64 the prediction can raise (ValueError, when rounding takes
    the argument of the arcsine out of [-1, 1]), but a latitude that it
    returns is at most 90 in magnitude: for every finite latitude, course,
    speed and time and any longitude, on every platform whose sine and
    cosine are a NaN or at most 1 in magnitude and whose arcsine is a NaN or
    at most the double nearest to PI/2 in magnitude.  With a bounded arcsine
    alone, and for all doubles, a latitude returned is a NaN or at most 90
    in magnitude.  The bound is reached, since the double nearest to PI/2
    converts to 90 exactly. *)
Theorem predicted_latitude_within_90 :
  (forall lat lon crs spd t : R,
     exists plat plon : R,
       predict_position (Exact.Real lat) (Exact.Real lon) (Exact.Real crs)
         (Exact.Real spd) (Exact.Real t) = Ok (Exact.Real plat, Exact.Real plon) /\
       (-90 <= plat <= 90)%R) /\
  (exists plat plon : R,
     predict_position (Exact.Real 0) (Exact.Real 180) (Exact.Real 90)
       (Exact.Real 60) (Exact.Real 10) = Ok (Exact.Real plat, Exact.Real plon) /\
     (180 < plon)%R) /\
  (forall m : Binary64.Libm,
     Binary64.sine_within_unit m ->
     Binary64.cosine_within_unit m ->
     Binary64.bounded_arcsine m ->
     forall lat lon crs spd t plat plon : float,
       PrimFloat.is_finite lat = true -> PrimFloat.is_finite crs = true ->
       PrimFloat.is_finite spd = true -> PrimFloat.is_finite t = true ->
       predict_position (H := Binary64.sem m) lat lon crs spd t = Ok (plat, plon) ->
       PrimFloat.leb (PrimFloat.abs plat) 90%float = true) /\
  (forall m : Binary64.Libm,
     Binary64.bounded_arcsine m ->
     forall lat lon crs spd t plat plon : float,
       predict_position (H := Binary64.sem m) lat lon crs spd t = Ok (plat, plon) ->
       PrimFloat.is_nan plat = true \/
       PrimFloat.leb (PrimFloat.abs plat) 90%float = true) /\
  (forall m : Binary64.Libm,
     @degrees _ (Binary64.sem m) Binary64.pio2 = 90%float /\
     @degrees _ (Binary64.sem m) (- Binary64.pio2)%float = (-90)%float) /\
  Binary64.on_platforms_with (Binary64.annex_F ++ Binary64.overshoot_samples) (fun m =>
    predict_position (H := Binary64.sem m)
      0x1.2222d0e560419p+6%float 0%float 0%float 20%float 3146%float
    = Raise ValueError).
Proof.
  split; [| split; [| split; [| split; [| split]]]].
  - intros lat lon crs spd t. eexists. eexists.
    split; [apply exact_predict_position |].
    apply exact_predicted_latitude_range.
  - exact exact_longitude_past_180.
  - intros m S C A lat lon crs spd t plat plon Flat Fcrs Fspd Ft E.
    exact (binary64_predicted_latitude_bound m S C A lat lon crs spd t plat plon
             Flat Fcrs Fspd Ft E).
  - intros m B lat lon crs spd t plat plon E.
    exact (binary64_predicted_latitude_range m lat lon crs spd t plat plon B E).
  - intros m. split; reflexivity.
  - intros m A. apply Forall_app in A. destruct A as [A S].
    unfold Binary64.agrees, Binary64.overshoot_samples in S.
    repeat match goal with
           | H : Forall _ (_ :: _) |- _ => inversion H; clear H; subst
           end.
    cbn [Binary64.returns] in *.
    at_zero A.
    repeat match goal with
           | H : _ = _ |- _ => rewrite H; clear H; cbn
           end.
    reflexivity.
Qed.

Lemma predicted_latitude_within_90_witness :
  exists plat plon : float,
    predict_position (H := Binary64.sem Binary64.unit_platform)
      45%float 10%float 30%float 12%float 10%float = Ok (plat, plon) /\
    PrimFloat.leb (PrimFloat.abs plat) 90%float = true.
Proof.
  eexists. eexists. split; [vm_compute; reflexivity |].
  destruct unit_platform_fits as (_ & _ & _ & A & S & C).
  eapply (proj1 (proj2 (proj2 predicted_latitude_within_90))
            Binary64.unit_platform S C A
            45%float 10%float 30%float 12%float 10%float);
    reflexivity.
Defined.

(** ** Exact arithmetic: the prediction and the distance together *)

Section ExactGeodesy.
Import Exact.
Local Open Scope R_scope.
Local Abbreviation sqrt := R_sqrt.sqrt (only parsing).

Lemma Ratan2_quadrant (y x : R) : 0 <= y -> 0 <= x -> 0 <= Ratan2 y x <= PI / 2.
Proof.
  intros Y X. pose proof PI_RGT_0 as P. unfold Ratan2.
  destruct (Rlt_dec 0 x) as [Px | Px].
  - pose proof (atan_bound (y / x)) as [_ U].
    assert (Q : 0 <= y / x).
    { unfold Rdiv. apply Rmult_le_pos; [exact Y |].
      apply Rlt_le. apply Rinv_0_lt_compat. exact Px. }
    assert (A : 0 <= atan (y / x)).
    { rewrite <- atan_0. destruct Q as [Q | Q].
      - apply Rlt_le. apply atan_increasing. exact Q.
      - rewrite <- Q. apply Rle_refl. }
    lra.
  - destruct (Rlt_dec x 0) as [Nx | Nx]; [lra |].
    destruct (Rlt_dec 0 y) as [Py | Py]; [lra |].
    destruct (Rlt_dec y 0) as [Ny | Ny]; lra.
Qed.

Lemma Ratan2_half_angle (h : R) :
  0 <= h <= PI / 2 -> Ratan2 (sin h) (cos h) = h.
Proof.
  intros [L U]. pose proof PI_RGT_0 as P.
  destruct L as [L | <-].
  - destruct U as [U | ->].
    + apply Ratan2_of_angle. split; assumption.
    + rewrite sin_PI2, cos_PI2. unfold Ratan2.
      destruct (Rlt_dec 0 0) as [Z | _]; [lra |].
      destruct (Rlt_dec 0 1) as [_ | Z]; [reflexivity | lra].
  - rewrite sin_0, cos_0. apply Ratan2_zero_nonneg. lra.
Qed.

(** The angle of [haversine]: when [a] is the squared sine of half an angle
    between 0 and PI, the arctangent gives half that angle back. *)
Lemma central_angle (a c : R) :
  0 <= c <= PI -> a = Rsqr (sin (c / 2)) ->
  Ratan2 (sqrt a) (sqrt (1 - a)) = c / 2.
Proof.
  intros [L U] ->.
  assert (B : 0 <= c / 2 <= PI / 2) by lra.
  assert (S : 0 <= sin (c / 2)) by (apply sin_ge_0; lra).
  assert (C : 0 <= cos (c / 2)) by (apply cos_ge_0; lra).
  rewrite (sqrt_Rsqr _ S).
  replace (1 - Rsqr (sin (c / 2))) with (Rsqr (cos (c / 2))).
  - rewrite (sqrt_Rsqr _ C). apply Ratan2_half_angle. exact B.
  - pose proof (sin2_cos2 (c / 2)). lra.
Qed.

(** The cosine of the angle of a point, times its distance from the origin,
    is its abscissa. *)
Lemma cos_Ratan2 (y x : R) : cos (Ratan2 y x) * sqrt (x * x + y * y) = x.
Proof.
  pose proof PI_RGT_0 as P. unfold Ratan2.
  assert (N : forall x0 : R, x0 <> 0 ->
            x0 * x0 + y * y = (x0 * x0) * (1 + Rsqr (y / x0))).
  { intros x0 X0. unfold Rsqr. field. exact X0. }
  assert (Q : forall q : R, 0 < sqrt (1 + Rsqr q)).
  { intros q. apply sqrt_lt_R0. pose proof (Rle_0_sqr q). lra. }
  destruct (Rlt_dec 0 x) as [Px | Px].
  - rewrite cos_atan, (N x) by lra.
    rewrite sqrt_mult_alt by apply Rle_0_sqr.
    rewrite sqrt_square by lra.
    field. apply Rgt_not_eq. apply Q.
  - destruct (Rlt_dec x 0) as [Nx | Nx].
    + assert (E : sqrt (x * x + y * y) = - x * sqrt (1 + Rsqr (y / x))).
      { rewrite (N x) by lra.
        rewrite sqrt_mult_alt by apply Rle_0_sqr.
        replace (x * x) with (- x * - x) by ring.
        rewrite sqrt_square by lra. reflexivity. }
      rewrite E.
      destruct (Rle_dec 0 y) as [Py | Py].
      * rewrite neg_cos, cos_atan. field. apply Rgt_not_eq. apply Q.
      * replace (atan (y / x) - PI) with (- (PI - atan (y / x))) by ring.
        rewrite cos_neg, Rtrigo_facts.cos_pi_minus, cos_atan.
        field. apply Rgt_not_eq. apply Q.
    + assert (X0 : x = 0) by lra. subst x.
      destruct (Rlt_dec 0 y) as [Py | Py].
      * rewrite cos_PI2. ring.
      * destruct (Rlt_dec y 0) as [Ny | Ny].
        -- rewrite cos_neg, cos_PI2. ring.
        -- assert (Y0 : y = 0) by lra. subst y.
           replace (0 * 0 + 0 * 0) with 0 by ring. rewrite sqrt_0. ring.
Qed.

(** Spherical trigonometry, as algebra: with [s] the sine of the predicted
    latitude, the two arguments of the arctangent of [predict_position] are
    the components of a vector of length [cos phi * cos phi2]. *)
Lemma course_vector (A B C D E G : R) :
  A * A + B * B = 1 -> C * C + D * D = 1 -> E * E + G * G = 1 ->
  let s := A * D + B * C * G in
  (D - A * s) * (D - A * s) + (E * C * B) * (E * C * B) = (B * B) * (1 - s * s).
Proof.
  intros U V W s. unfold s.
  assert (X : D - A * (A * D + B * C * G) = B * (B * D - A * C * G)).
  { replace (D - A * (A * D + B * C * G))
      with ((1 - A * A) * D - A * B * C * G) by ring.
    replace (1 - A * A) with (B * B) by lra. ring. }
  rewrite X.
  assert (I : (B * D - A * C * G) * (B * D - A * C * G)
              + (A * D + B * C * G) * (A * D + B * C * G)
              = (A * A + B * B) * (D * D + C * C * G * G)) by ring.
  rewrite U in I.
  assert (J : D * D + C * C * G * G + E * E * (C * C) = 1).
  { replace (D * D + C * C * G * G + E * E * (C * C))
      with (D * D + C * C * (E * E + G * G)) by ring.
    rewrite W. lra. }
  replace (1 - (A * D + B * C * G) * (A * D + B * C * G))
    with ((B * D - A * C * G) * (B * D - A * C * G) + E * E * (C * C)) by lra.
  ring.
Qed.

Lemma radians_quadrant (lat : R) :
  -90 <= lat <= 90 -> - (PI / 2) <= lat * (PI / 180) <= PI / 2.
Proof.
  intros [L U]. pose proof PI_RGT_0 as P. split.
  - replace (- (PI / 2)) with (-90 * (PI / 180)) by field.
    apply Rmult_le_compat_r; lra.
  - replace (PI / 2) with (90 * (PI / 180)) by field.
    apply Rmult_le_compat_r; lra.
Qed.

(** The quantity [a] of [haversine] between a position and its prediction
    is the squared sine of half the angle travelled. *)
Lemma hav_of_prediction (lat lon crs delta : R) :
  -90 <= lat <= 90 ->
  let phi := lat * (PI / 180) in
  let theta := crs * (PI / 180) in
  let phi2 := asin (asin_argument phi delta theta) in
  let dlon := Ratan2 (sin theta * sin delta * cos phi) (cos delta - sin phi * sin phi2) in
  hav lat lon (phi2 * (180 / PI)) ((lon * (PI / 180) + dlon) * (180 / PI))
  = Rsqr (sin (delta / 2)).
Proof.
  intros R phi theta phi2 dlon. pose proof PI_RGT_0 as P.
  rewrite hav_product, sin_half_sqr. fold phi.
  replace (phi2 * (180 / PI) * (PI / 180)) with phi2 by (field; lra).
  replace (((lon * (PI / 180) + dlon) * (180 / PI) - lon) * (PI / 180)) with dlon
    by (field; lra).
  pose proof (asin_argument_bound phi delta theta) as SB.
  assert (S2 : sin phi2 = asin_argument phi delta theta) by (apply sin_asin; exact SB).
  assert (C1 : 0 <= cos phi).
  { apply cos_ge_0; apply radians_quadrant in R; fold phi in R; lra. }
  assert (C2 : 0 <= cos phi2).
  { pose proof (asin_bound (asin_argument phi delta theta)) as [L U].
    apply cos_ge_0; fold phi2 in L, U; lra. }
  pose proof (cos_Ratan2 (sin theta * sin delta * cos phi)
                (cos delta - sin phi * sin phi2)) as K.
  fold dlon in K.
  pose proof (course_vector (sin phi) (cos phi) (sin delta) (cos delta)
                (sin theta) (cos theta)
                (sin_cos_unit phi) (sin_cos_unit delta) (sin_cos_unit theta)) as V.
  cbv zeta in V. fold (asin_argument phi delta theta) in V. rewrite <- S2 in V.
  assert (N : sqrt ((cos delta - sin phi * sin phi2) * (cos delta - sin phi * sin phi2)
                    + sin theta * sin delta * cos phi * (sin theta * sin delta * cos phi))
              = cos phi * cos phi2).
  { rewrite V.
    replace (1 - sin phi2 * sin phi2) with (cos phi2 * cos phi2)
      by (pose proof (sin_cos_unit phi2); lra).
    replace (cos phi * cos phi * (cos phi2 * cos phi2))
      with ((cos phi * cos phi2) * (cos phi * cos phi2)) by ring.
    apply sqrt_square. apply Rmult_le_pos; assumption. }
  rewrite N in K.
  replace (sin phi * sin phi2 + cos phi * cos phi2 * cos dlon)
    with (sin phi * sin phi2 + cos dlon * (cos phi * cos phi2)) by ring.
  rewrite K. f_equal. ring.
Qed.

(** X1.  On real numbers, the distance that [haversine] measures from a
    position to the position that [predict_position] predicts from it is the
    distance travelled: for a latitude in [-90, 90] and a travelled arc
    [delta = speed / 60 * time_minutes / 3440.065] between 0 and PI (half a
    turn of the Earth), whatever the course, it is [6371 * delta]
    kilometres. *)
Theorem prediction_lies_at_distance_travelled (lat lon crs spd t : R) :
  -90 <= lat <= 90 ->
  0 <= spd / 60 * t / (3440065 / 1000) <= PI ->
  exists plat plon : R,
    predict_position (Real lat) (Real lon) (Real crs) (Real spd) (Real t)
      = Ok (Real plat, Real plon) /\
    haversine (Real lat) (Real lon) (Real plat) (Real plon)
      = Ok (Real (6371 * (spd / 60 * t / (3440065 / 1000)))).
Proof.
  intros L D. eexists. eexists. split; [apply exact_predict_position |].
  rewrite exact_haversine.
  set (delta := spd / 60 * t / (3440065 / 1000)) in *.
  pose proof (hav_of_prediction lat lon crs delta L) as Hv. cbv zeta in Hv.
  rewrite (central_angle _ delta D Hv).
  do 2 f_equal. field.
Qed.

Lemma prediction_lies_at_distance_travelled_witness :
  exists plat plon : R,
    predict_position (Real 45) (Real 170) (Real 30) (Real 12) (Real 10)
      = Ok (Real plat, Real plon) /\
    haversine (Real 45) (Real 170) (Real plat) (Real plon)
      = Ok (Real (6371 * (12 / 60 * 10 / (3440065 / 1000)))).
Proof.
  apply (prediction_lies_at_distance_travelled 45 170 30 12 10).
  - lra.
  - pose proof PI_RGT_0. pose proof PI2_1. lra.
Defined.

(** X2.  On real numbers [haversine] always returns, and its distance lies
    between 0 and half the circumference of the Earth, [6371 * PI]
    kilometres. *)
Theorem haversine_range_exact (lat1 lon1 lat2 lon2 : R) :
  exists d : R,
    haversine (Real lat1) (Real lon1) (Real lat2) (Real lon2) = Ok (Real d) /\
    0 <= d <= 6371 * PI.
Proof.
  eexists. split; [apply exact_haversine |].
  destruct (hav_range lat1 lon1 lat2 lon2) as [L U].
  pose proof (Ratan2_quadrant (sqrt (hav lat1 lon1 lat2 lon2))
                (sqrt (1 - hav lat1 lon1 lat2 lon2))
                (sqrt_pos _) (sqrt_pos _)) as [A B].
  split; lra.
Qed.

(** X3.  On real numbers [haversine] reads the longitudes modulo a full
    turn: 360 degrees more or less on either longitude leave the distance
    unchanged, so a predicted longitude beyond 180 measures as the
    normalized one would. *)
Theorem haversine_longitude_full_turn (lat1 lon1 lat2 lon2 : R) :
  haversine (Real lat1) (Real lon1) (Real lat2) (Real (lon2 + 360))
    = haversine (Real lat1) (Real lon1) (Real lat2) (Real lon2) /\
  haversine (Real lat1) (Real lon1) (Real lat2) (Real (lon2 - 360))
    = haversine (Real lat1) (Real lon1) (Real lat2) (Real lon2) /\
  haversine (Real lat1) (Real (lon1 + 360)) (Real lat2) (Real lon2)
    = haversine (Real lat1) (Real lon1) (Real lat2) (Real lon2) /\
  haversine (Real lat1) (Real (lon1 - 360)) (Real lat2) (Real lon2)
    = haversine (Real lat1) (Real lon1) (Real lat2) (Real lon2).
Proof.
  pose proof PI_RGT_0 as P.
  assert (T : forall x : R, cos (x + 2 * PI) = cos x).
  { intros x. pose proof (cos_period x 1) as Q. cbn in Q.
    replace (x + 2 * 1 * PI) with (x + 2 * PI) in Q by ring. exact Q. }
  assert (T' : forall x : R, cos (x - 2 * PI) = cos x).
  { intros x. rewrite <- (T (x - 2 * PI)). f_equal. ring. }
  assert (Hp : forall lon2', hav lat1 lon1 lat2 lon2' = hav lat1 lon1 lat2 lon2 ->
               haversine (Real lat1) (Real lon1) (Real lat2) (Real lon2')
               = haversine (Real lat1) (Real lon1) (Real lat2) (Real lon2)).
  { intros lon2' E. rewrite !exact_haversine, E. reflexivity. }
  assert (Hq : forall lon1', hav lat1 lon1' lat2 lon2 = hav lat1 lon1 lat2 lon2 ->
               haversine (Real lat1) (Real lon1') (Real lat2) (Real lon2)
               = haversine (Real lat1) (Real lon1) (Real lat2) (Real lon2)).
  { intros lon1' E. rewrite !exact_haversine, E. reflexivity. }
  repeat split; [apply Hp | apply Hp | apply Hq | apply Hq];
    rewrite !hav_product.
  - replace ((lon2 + 360 - lon1) * (PI / 180))
      with ((lon2 - lon1) * (PI / 180) + 2 * PI) by field.
    rewrite T. reflexivity.
  - replace ((lon2 - 360 - lon1) * (PI / 180))
      with ((lon2 - lon1) * (PI / 180) - 2 * PI) by field.
    rewrite T'. reflexivity.
  - replace ((lon2 - (lon1 + 360)) * (PI / 180))
      with ((lon2 - lon1) * (PI / 180) - 2 * PI) by field.
    rewrite T'. reflexivity.
  - replace ((lon2 - (lon1 - 360)) * (PI / 180))
      with ((lon2 - lon1) * (PI / 180) + 2 * PI) by field.
    rewrite T. reflexivity.
Qed.

(** X4.  On real numbers the course is a bearing from north, clockwise.
    On course 0 the prediction keeps the longitude and adds the travelled
    arc to the latitude, as long as the two latitudes are in [-90, 90]; on
    course 90 from the equator it stays on the equator and adds the
    travelled arc, of a quarter turn at most, to the longitude. *)
Theorem cardinal_courses (lon spd t : R) :
  let arc := spd / 60 * t / (3440065 / 1000) * (180 / PI) in
  (forall lat : R,
     -90 <= lat <= 90 -> -90 <= lat + arc <= 90 ->
     predict_position (Real lat) (Real lon) (Real 0) (Real spd) (Real t)
     = Ok (Real (lat + arc), Real lon)) /\
  (0 <= arc <= 90 ->
   predict_position (Real 0) (Real lon) (Real 90) (Real spd) (Real t)
   = Ok (Real 0, Real (lon + arc))).
Proof.
  intros arc. pose proof PI_RGT_0 as P.
  set (delta := spd / 60 * t / (3440065 / 1000)).
  assert (Ed : arc * (PI / 180) = delta) by (unfold arc; fold delta; field; lra).
  split.
  - intros lat L1 L2. rewrite exact_predict_position. fold delta.
    set (phi := lat * (PI / 180)).
    replace (0 * (PI / 180)) with 0 by ring.
    assert (B1 : - (PI / 2) <= phi <= PI / 2) by (apply radians_quadrant; exact L1).
    assert (B2 : - (PI / 2) <= phi + delta <= PI / 2).
    { rewrite <- Ed. unfold phi.
      replace (lat * (PI / 180) + arc * (PI / 180)) with ((lat + arc) * (PI / 180)) by ring.
      apply radians_quadrant. exact L2. }
    assert (A : asin_argument phi delta 0 = sin (phi + delta)).
    { unfold asin_argument. rewrite cos_0, sin_plus. ring. }
    rewrite A, (asin_sin _ B2), sin_0.
    replace (0 * sin delta * cos phi) with 0 by ring.
    rewrite Ratan2_zero_nonneg.
    + f_equal. f_equal; f_equal.
      * rewrite <- Ed. unfold phi. field. lra.
      * field. lra.
    + replace (cos delta) with (cos ((phi + delta) - phi)) by (f_equal; ring).
      rewrite cos_minus.
      assert (C1 : 0 <= cos phi) by (apply cos_ge_0; lra).
      assert (C2 : 0 <= cos (phi + delta)) by (apply cos_ge_0; lra).
      pose proof (Rmult_le_pos _ _ C2 C1). lra.
  - intros A. rewrite exact_predict_position. fold delta.
    replace (0 * (PI / 180)) with 0 by ring.
    replace (90 * (PI / 180)) with (PI / 2) by (field; lra).
    assert (D : 0 <= delta <= PI / 2).
    { rewrite <- Ed. split.
      - apply Rmult_le_pos; [lra |]. apply Rlt_le. apply Rdiv_lt_0_compat; lra.
      - replace (PI / 2) with (90 * (PI / 180)) by (field; lra).
        apply Rmult_le_compat_r; [| lra].
        apply Rlt_le. apply Rdiv_lt_0_compat; lra. }
    assert (Z : asin_argument 0 delta (PI / 2) = 0).
    { unfold asin_argument. rewrite sin_0, cos_0, cos_PI2. ring. }
    rewrite Z, asin_0, sin_0, cos_0, sin_PI2.
    replace (1 * sin delta * 1) with (sin delta) by ring.
    replace (cos delta - 0 * 0) with (cos delta) by ring.
    rewrite (Ratan2_half_angle delta D).
    f_equal. f_equal; f_equal.
    + ring.
    + rewrite <- Ed. field. lra.
Qed.

End ExactGeodesy.

(** ** Binary64: a position that is missing *)

Section Binary64Missing.
Import Binary64.
Local Open Scope float_scope.
Local Abbreviation nan64 := PrimFloat.nan (only parsing).

Lemma Prim2SF_nan : Prim2SF nan64 = S754_nan.
Proof. reflexivity. Qed.

Lemma sub_nan_l (x : float) : nan64 - x = nan64.
Proof. apply Prim2SF_inj. rewrite sub_spec, Prim2SF_nan. reflexivity. Qed.

Lemma mul_nan_l (x : float) : nan64 * x = nan64.
Proof. apply Prim2SF_inj. rewrite mul_spec, Prim2SF_nan. reflexivity. Qed.

Lemma div_nan_l (x : float) : nan64 / x = nan64.
Proof. apply Prim2SF_inj. rewrite div_spec, Prim2SF_nan. reflexivity. Qed.

Lemma add_nan_l (x : float) : nan64 + x = nan64.
Proof. apply Prim2SF_inj. rewrite add_spec, Prim2SF_nan. reflexivity. Qed.

Lemma leb_nan_l (x : float) : (nan64 <=? x) = false.
Proof. rewrite leb_spec, Prim2SF_nan. reflexivity. Qed.

Lemma leb_nan_r (x : float) : (x <=? nan64) = false.
Proof.
  rewrite leb_spec, Prim2SF_nan. destruct (Prim2SF x) as [sg | sg | | sg mz ez]; reflexivity.
Qed.

Variable m : Libm.
Hypothesis cosine_is_bounded : bounded_cosine m.
Hypothesis nan_goes_through : nan_in_nan_out m.

Lemma half_sine_squared_nan : half_sine_squared m nan64 = Ok nan64.
Proof.
  destruct nan_goes_through as [S _].
  unfold half_sine_squared. rewrite mul_nan_l, div_nan_l.
  unfold math_1. cbv zeta. rewrite S. reflexivity.
Qed.

Lemma haversine_nan_position (lat lon : float) :
  is_finite lat = true ->
  haversine (H := sem m) lat lon nan64 nan64 = Ok nan64.
Proof.
  intros Flat. destruct nan_goes_through as [_ C].
  unfold haversine. rewrite haversine_a_unfold.
  rewrite !sub_nan_l, half_sine_squared_nan. cbn [bind].
  rewrite (math_cos_returns m cosine_is_bounded _ (radians_finite lat Flat)).
  cbn [bind]. rewrite mul_nan_l.
  unfold math_1 at 1. cbv zeta. rewrite C. cbn [bind].
  change (is_nan nan64 && negb (is_nan nan64)) with false. cbv iota.
  change (is_infinity nan64 && is_finite nan64) with false. cbv iota. cbn [bind].
  rewrite add_nan_l. reflexivity.
Qed.

(** X5.  In binary64, missing data never counts as inside the circle.  On
    every platform whose cosine of a finite number is bounded by 1 and whose
    sine and cosine of a NaN are a NaN, a point whose two coordinates are
    missing (NaN, as the rows that the second fetch does not have) is tested
    without an exception and found outside the circle of any radius around a
    position of finite latitude; and with a NaN radius no point is found
    inside. *)
Theorem missing_data_is_outside (plat plon radius_km : float) :
  is_finite plat = true ->
  is_point_within_circle (H := sem m) plat plon radius_km nan64 nan64 = Ok false /\
  (forall lat2 lon2 : float,
     is_point_within_circle (H := sem m) plat plon nan64 lat2 lon2 <> Ok true).
Proof.
  intros Fplat. split.
  - unfold is_point_within_circle.
    rewrite (haversine_nan_position plat plon Fplat). cbn [bind].
    cbn [fle sem]. rewrite leb_nan_l. reflexivity.
  - intros lat2 lon2. unfold is_point_within_circle.
    destruct (haversine plat plon lat2 lon2) as [d | e]; cbn [bind]; [| discriminate].
    cbn [fle sem]. rewrite leb_nan_r. discriminate.
Qed.

End Binary64Missing.

Lemma nan_aware_platform_fits :
  Binary64.bounded_cosine nan_aware_platform /\ nan_in_nan_out nan_aware_platform.
Proof.
  split; [| split; reflexivity].
  intros x Fx. cbn.
  destruct (PrimFloat.is_nan x) eqn:N; [| reflexivity].
  unfold PrimFloat.is_finite in Fx. rewrite N in Fx. discriminate Fx.
Qed.

Lemma missing_data_is_outside_witness :
  is_point_within_circle (H := Binary64.sem nan_aware_platform)
    0%float 60%float 10%float PrimFloat.nan PrimFloat.nan = Ok false /\
  (forall lat2 lon2 : float,
     is_point_within_circle (H := Binary64.sem nan_aware_platform)
       0%float 60%float PrimFloat.nan lat2 lon2 <> Ok true).
Proof.
  apply (missing_data_is_outside nan_aware_platform
           (proj1 nan_aware_platform_fits) (proj2 nan_aware_platform_fits)
           0%float 60%float 10%float).
  reflexivity.
Defined.

(** ** The frame that [get_vessel_data] returns *)

Section Fetching.
Context {F : Type} `{PyFloat F}.

Lemma select_columns_Raise (cols : list (string * list (value F))) (names : list string) :
  (exists name, In name names /\ assoc name cols = None) ->
  select_columns cols names = Raise KeyError.
Proof.
  induction names as [| k rest IH]; intros (name & I & N); [destruct I |].
  cbn [select_columns]. destruct (assoc k cols) as [col |] eqn:E; [| reflexivity].
  destruct I as [-> | I]; [congruence |].
  rewrite IH by (exists name; split; assumption). reflexivity.
Qed.

Lemma select_columns_Ok (cols : list (string * list (value F))) (names : list string) :
  (forall name, In name names -> assoc name cols <> None) ->
  exists picked,
    select_columns cols names = Ok picked /\
    map fst picked = names /\
    forall name, In name names -> assoc name picked = assoc name cols.
Proof.
  induction names as [| k rest IH]; intros A.
  - exists []. repeat split. intros name [].
  - destruct IH as (picked & E & N & P).
    { intros name I. apply A. right. exact I. }
    cbn [select_columns]. destruct (assoc k cols) as [col |] eqn:C.
    + rewrite E. cbn [bind]. exists ((k, col) :: picked). split; [reflexivity |].
      split; [cbn; rewrite N; reflexivity |].
      intros name I. cbn [assoc].
      destruct (String.eqb k name) eqn:K.
      * apply String.eqb_eq in K. subst name. symmetry. exact C.
      * destruct I as [-> | I]; [rewrite String.eqb_refl in K; discriminate |].
        apply P. exact I.
    + exfalso. apply (A k); [left; reflexivity | exact C].
Qed.

(** X6.  When the request succeeds, [get_vessel_data] keeps the seven keys
    and nothing else: if the response has all of them, the frame returned
    has the rows of the response and exactly the seven columns, in the order
    of [keys_to_include], each with the cells the response has under that
    key (any other key of the response is dropped); if the response lacks
    one of them, KeyError is raised, which [get_vessel_data] does not
    catch. *)
Theorem get_vessel_data_keeps_the_seven_keys (response_data : DataFrame F) :
  ((forall key, In key keys_to_include -> assoc key (columns response_data) <> None) ->
   exists df,
     get_vessel_data (Json response_data) = Ok df /\
     nrows df = nrows response_data /\
     map fst (columns df) = keys_to_include /\
     forall key, In key keys_to_include -> getitem df key = getitem response_data key) /\
  ((exists key, In key keys_to_include /\ assoc key (columns response_data) = None) ->
   get_vessel_data (Json response_data) = Raise KeyError).
Proof.
  split.
  - intros A. destruct (select_columns_Ok (columns response_data) keys_to_include A)
      as (picked & E & N & P).
    exists {| nrows := nrows response_data; columns := picked |}.
    cbn [get_vessel_data]. unfold select. rewrite E. cbn [bind].
    repeat split; [exact N |].
    intros key I. unfold getitem. cbn [columns]. rewrite (P key I). reflexivity.
  - intros M. cbn [get_vessel_data]. unfold select.
    rewrite (select_columns_Raise _ _ M). reflexivity.
Qed.

(** X7.  The frame that [get_vessel_data] returns is [empty] only when the
    request succeeded with a response of all seven keys and no row: a
    failed request gives a frame of one row, and a response without columns
    (an empty JSON list) raises KeyError instead. *)
Theorem get_vessel_data_empty (reply : api_reply F) (df : DataFrame F) :
  get_vessel_data reply = Ok df -> empty df = true ->
  exists response_data,
    reply = Json response_data /\ nrows response_data = 0%nat /\
    forall key, In key keys_to_include -> assoc key (columns response_data) <> None.
Proof.
  intros E Em. destruct reply as [e | response_data].
  - cbn in E. apply Ok_inj in E. subst df. discriminate Em.
  - exists response_data. split; [reflexivity |].
    cbn [get_vessel_data] in E. unfold select in E.
    destruct (select_columns (columns response_data) keys_to_include) as [picked |] eqn:S;
      [| discriminate E].
    cbn [bind] in E. apply Ok_inj in E. subst df. split.
    + unfold empty in Em. cbn [nrows columns] in Em.
      apply orb_true_iff in Em. destruct Em as [Em | Em].
      * apply Nat.eqb_eq in Em. exact Em.
      * exfalso. apply Nat.eqb_eq in Em.
        destruct picked as [| c picked]; [| discriminate Em].
        cbn in S.
        repeat match type of S with
               | context [match assoc ?k ?l with _ => _ end] =>
                   destruct (assoc k l); [| discriminate S]
               end.
        discriminate S.
    + intros key I N.
      rewrite (select_columns_Raise (columns response_data) keys_to_include) in S;
        [discriminate S |].
      exists key. split; assumption.
Qed.

End Fetching.

(** ** The batch prediction: errors, and a second run *)

Section BatchEdges.
Context {F : Type} `{PyFloat F}.
Local Open Scope string_scope.

Lemma assoc_row_at (df : DataFrame F) (i : nat) (name : string) :
  assoc name (row_at df i) =
  match assoc name (columns df) with
  | Some col => Some (nth i col (VNum nan))
  | None => None
  end.
Proof.
  unfold row_at. induction (columns df) as [| [k v] rest IH]; cbn; [reflexivity |].
  destruct (String.eqb k name); [reflexivity | exact IH].
Qed.

Lemma row_get_missing (df : DataFrame F) (i : nat) (name : string) :
  assoc name (columns df) = None -> row_get (row_at df i) name = Raise KeyError.
Proof. intros N. unfold row_get. rewrite assoc_row_at, N. reflexivity. Qed.

Lemma row_get_present (df : DataFrame F) (i : nat) (name : string) :
  assoc name (columns df) <> None -> exists v, row_get (row_at df i) name = Ok v.
Proof.
  intros N. unfold row_get. rewrite assoc_row_at.
  destruct (assoc name (columns df)) as [col |]; [| contradiction].
  eexists. reflexivity.
Qed.

Lemma iterrows_first (df : DataFrame F) :
  nrows df <> 0%nat -> exists rest, iterrows df = row_at df 0 :: rest.
Proof.
  intros N. unfold iterrows. destruct (nrows df) as [| n]; [contradiction |].
  cbn. eexists. reflexivity.
Qed.

(** X8.  The errors of [predict_future_positions].  A frame without rows is
    returned with two empty columns added, whatever columns it has.  A frame
    with at least one row raises KeyError when LATITUDE, LONGITUDE, COG or
    SOG is not among its columns, and TypeError when all four are and the
    first row holds a string in one of them (a number sent as text). *)
Theorem predict_future_positions_errors (df : DataFrame F) (time_minutes : F) :
  (nrows df = 0%nat ->
   predict_future_positions df time_minutes = Ok (with_predictions df [] [])) /\
  (nrows df <> 0%nat ->
   (exists name, In name ["LATITUDE"; "LONGITUDE"; "COG"; "SOG"] /\
                 assoc name (columns df) = None) ->
   predict_future_positions df time_minutes = Raise KeyError) /\
  (nrows df <> 0%nat ->
   (forall name, In name ["LATITUDE"; "LONGITUDE"; "COG"; "SOG"] ->
                 assoc name (columns df) <> None) ->
   (exists name s, In name ["LATITUDE"; "LONGITUDE"; "COG"; "SOG"] /\
                   row_get (row_at df 0) name = Ok (VStr s)) ->
   predict_future_positions df time_minutes = Raise TypeError).
Proof.
  split; [| split].
  - intros Z. unfold predict_future_positions, iterrows, setitem_list.
    rewrite Z. cbn. unfold with_predictions. rewrite Z. reflexivity.
  - intros N (name & I & M). unfold predict_future_positions.
    destruct (iterrows_first df N) as (rest & ->).
    cbn [predict_rows]. unfold predict_row.
    destruct (assoc "LATITUDE" (columns df)) eqn:A1;
      [| rewrite (row_get_missing df 0 _ A1); reflexivity].
    destruct (row_get_present df 0 "LATITUDE") as (v1 & ->); [congruence |]. cbn [bind].
    destruct (assoc "LONGITUDE" (columns df)) eqn:A2;
      [| rewrite (row_get_missing df 0 _ A2); reflexivity].
    destruct (row_get_present df 0 "LONGITUDE") as (v2 & ->); [congruence |]. cbn [bind].
    destruct (assoc "COG" (columns df)) eqn:A3;
      [| rewrite (row_get_missing df 0 _ A3); reflexivity].
    destruct (row_get_present df 0 "COG") as (v3 & ->); [congruence |]. cbn [bind].
    destruct (assoc "SOG" (columns df)) eqn:A4;
      [| rewrite (row_get_missing df 0 _ A4); reflexivity].
    exfalso. cbn in I.
    destruct I as [<- | [<- | [<- | [<- | []]]]]; congruence.
  - intros N A (name & s & I & S). unfold predict_future_positions.
    destruct (iterrows_first df N) as (rest & ->).
    cbn [predict_rows]. unfold predict_row.
    destruct (row_get_present df 0 "LATITUDE") as (v1 & E1); [apply A; cbn; tauto |].
    destruct (row_get_present df 0 "LONGITUDE") as (v2 & E2); [apply A; cbn; tauto |].
    destruct (row_get_present df 0 "COG") as (v3 & E3); [apply A; cbn; tauto |].
    destruct (row_get_present df 0 "SOG") as (v4 & E4); [apply A; cbn; tauto |].
    rewrite E1, E2, E3, E4. cbn [bind].
    assert (T : forall v, (exists s', v = VStr s') \/ exists x, as_float v = Ok x).
    { intros [x | s' | b]; [right | left | right]; eexists; reflexivity. }
    cbn in I.
    destruct (T v1) as [(s1 & ->) | (x1 & X1)]; [reflexivity | rewrite X1; cbn [bind]].
    destruct (T v2) as [(s2 & ->) | (x2 & X2)]; [reflexivity | rewrite X2; cbn [bind]].
    destruct (T v3) as [(s3 & ->) | (x3 & X3)]; [reflexivity | rewrite X3; cbn [bind]].
    destruct (T v4) as [(s4 & ->) | (x4 & X4)]; [reflexivity |].
    exfalso.
    destruct I as [<- | [<- | [<- | [<- | []]]]].
    + rewrite E1 in S. apply Ok_inj in S. subst v1. discriminate X1.
    + rewrite E2 in S. apply Ok_inj in S. subst v2. discriminate X2.
    + rewrite E3 in S. apply Ok_inj in S. subst v3. discriminate X3.
    + rewrite E4 in S. apply Ok_inj in S. subst v4. discriminate X4.
Qed.

Lemma set_column_same_cells (cols : list (string * list (value F))) name cells :
  assoc name cols = Some cells -> set_column cols name cells = cols.
Proof.
  induction cols as [| [k v] rest IH]; cbn; [discriminate |].
  destruct (String.eqb k name) eqn:E.
  - intros S. injection S as <-. reflexivity.
  - intros S. rewrite (IH S). reflexivity.
Qed.

(** A prediction reads its row at four labels only. *)
Lemma predict_row_ext (row row' : Row F) (t : F) :
  (forall name, In name ["LATITUDE"; "LONGITUDE"; "COG"; "SOG"] ->
                row_get row' name = row_get row name) ->
  predict_row row' t = predict_row row t.
Proof.
  intros E. unfold predict_row.
  rewrite !E by (cbn; tauto). reflexivity.
Qed.

(** X9.  A second run of [predict_future_positions] changes nothing: on the
    frame that a first run returned (the main program predicts twice from
    the same frame, lines 139 and 165) it returns that very frame, the two
    predicted columns written again in their places with the same cells. *)
Theorem predict_future_positions_twice (df df' : DataFrame F) (time_minutes : F) :
  predict_future_positions df time_minutes = Ok df' ->
  predict_future_positions df' time_minutes = Ok df'.
Proof.
  intros E. apply predict_future_positions_Ok in E.
  destruct E as (lats & lons & L1 & L2 & P & ->).
  destruct (with_predictions_frame df lats lons) as (N & R & _ & _).
  apply predict_future_positions_Ok. exists lats, lons.
  rewrite N. repeat split; try assumption.
  - intros i L. rewrite <- (P i L). apply predict_row_ext.
    intros name I. apply R; cbn in I;
      destruct I as [<- | [<- | [<- | [<- | []]]]]; discriminate.
  - unfold with_predictions. cbn [nrows columns].
    f_equal. symmetry.
    rewrite (set_column_same_cells
               (set_column (set_column (columns df) "PREDICTED_LATITUDE" (map VNum lats))
                  "PREDICTED_LONGITUDE" (map VNum lons))
               "PREDICTED_LATITUDE" (map VNum lats)).
    + apply set_column_same_cells. apply assoc_set_column_same.
    + rewrite assoc_set_column_other by discriminate. apply assoc_set_column_same.
Qed.

End BatchEdges.

(** ** The labels of the frames along the sampling cycle *)

Section Shapes.
Context {F : Type} `{PyFloat F}.
Local Open Scope string_scope.

Lemma assoc_label_in {A : Type} (l : list (string * A)) (name : string) :
  existsb (String.eqb name) (map fst l) =
  match assoc name l with Some _ => true | None => false end.
Proof.
  induction l as [| [k v] rest IH]; cbn; [reflexivity |].
  rewrite String.eqb_sym. destruct (String.eqb k name); [reflexivity | exact IH].
Qed.







Lemma row_get_label (df : DataFrame F) (i : nat) (name : string) :
  existsb (String.eqb name) (labels df) = false ->
  row_get (row_at df i) name = Raise KeyError.
Proof.
  unfold labels. rewrite assoc_label_in. intros E.
  apply row_get_missing. destruct (assoc name (columns df)); [discriminate | reflexivity].
Qed.

Lemma row_get_label_present (df : DataFrame F) (i : nat) (name : string) :
  existsb (String.eqb name) (labels df) = true ->
  exists v, row_get (row_at df i) name = Ok v.
Proof.
  unfold labels. rewrite assoc_label_in. intros E.
  apply row_get_present. destruct (assoc name (columns df)); [discriminate | discriminate].
Qed.



End Shapes.

(** ** What the main program hands to the map *)

Section MainProgram.
Context {F : Type} `{PyFloat F}.
Local Open Scope string_scope.




End MainProgram.


Section MainProgramReturns.
Context {F : Type} `{PyFloat F}.
Local Open Scope string_scope.




End MainProgramReturns.

(** ** The map *)

Section MapFacts.
Context {F : Type} `{PyFloat F}.
Variable folium_accepts : value F * value F -> bool.
Local Open Scope string_scope.

(** What the loop of [visualize_ships] does for one row, on an empty cluster
    and an empty list of features. *)
Lemma visualize_row_alone (row : Row F) (children : list (child F))
    (features : list (Feature F)) :
  visualize_row folium_accepts [] [] row = Ok (children, features) ->
  exists lat lon name vessel_type predicted_lat predicted_lon is_within_radius popup,
    row_get row "LATITUDE" = Ok lat /\
    row_get row "LONGITUDE" = Ok lon /\
    row_get row "NAME" = Ok name /\
    row_get row "VESSEL_TYPE" = Ok vessel_type /\
    row_get row "PREDICTED_LATITUDE" = Ok predicted_lat /\
    row_get row "PREDICTED_LONGITUDE" = Ok predicted_lon /\
    row_get row "WITHIN_RADIUS" = Ok is_within_radius /\
    folium_accepts (lat, lon) = true /\
    folium_accepts (predicted_lat, predicted_lon) = true /\
    children =
      [ MarkerChild {| marker_location := (lat, lon);
                       marker_popup := popup;
                       marker_icon_color :=
                         if truthy is_within_radius then "green" else "orange" |};
        PolyLineChild {| line_locations := ((lat, lon), (predicted_lat, predicted_lon));
                         line_color :=
                           if truthy is_within_radius then "green" else "orange";
                         line_weight := 1;
                         line_opacity := 1 |} ] /\
    features =
      [ {| feature_name := name;
           feature_vessel_type := vessel_type;
           feature_within_radius := if truthy is_within_radius then "Yes" else "No";
           feature_coordinates := (lon, lat) |} ].
Proof.
  unfold visualize_row.
  destruct (row_get row "LATITUDE") as [lat |]; [| discriminate]. cbn [bind].
  destruct (row_get row "LONGITUDE") as [lon |]; [| discriminate]. cbn [bind].
  destruct (row_get row "NAME") as [name |]; [| discriminate]. cbn [bind].
  destruct (row_get row "VESSEL_TYPE") as [vessel_type |]; [| discriminate]. cbn [bind].
  destruct (row_get row "PREDICTED_LATITUDE") as [plat |]; [| discriminate]. cbn [bind].
  destruct (row_get row "PREDICTED_LONGITUDE") as [plon |]; [| discriminate]. cbn [bind].
  destruct (row_get row "WITHIN_RADIUS") as [within |]; [| discriminate]. cbn [bind].
  rewrite orb_negb_r. unfold folium_Marker, folium_PolyLine. cbn [fst snd].
  destruct (folium_accepts (lat, lon)) eqn:A1; [| discriminate]. cbn [bind andb].
  destruct (folium_accepts (plat, plon)) eqn:A2; [| discriminate]. cbn [bind app].
  intros E. apply Ok_inj in E.
  exists lat, lon, name, vessel_type, plat, plon, within.
  eexists. repeat (split; [reflexivity |]).
  split; [exact A1 |]. split; [exact A2 |]. split.
  - change children with (fst (children, features)). rewrite <- E. reflexivity.
  - change features with (snd (children, features)). rewrite <- E. reflexivity.
Qed.

(** The loop only appends: a row adds to the cluster and to the features
    what it adds to empty ones. *)
Lemma visualize_row_appends (marker_cluster : list (child F)) (features : list (Feature F))
    (row : Row F) :
  visualize_row folium_accepts marker_cluster features row =
  match visualize_row folium_accepts [] [] row with
  | Ok (children, new) => Ok ((marker_cluster ++ children)%list, (features ++ new)%list)
  | Raise e => Raise e
  end.
Proof.
  unfold visualize_row.
  destruct (row_get row "LATITUDE") as [lat |]; [| reflexivity]. cbn [bind].
  destruct (row_get row "LONGITUDE") as [lon |]; [| reflexivity]. cbn [bind].
  destruct (row_get row "NAME") as [name |]; [| reflexivity]. cbn [bind].
  destruct (row_get row "VESSEL_TYPE") as [vessel_type |]; [| reflexivity]. cbn [bind].
  destruct (row_get row "PREDICTED_LATITUDE") as [plat |]; [| reflexivity]. cbn [bind].
  destruct (row_get row "PREDICTED_LONGITUDE") as [plon |]; [| reflexivity]. cbn [bind].
  destruct (row_get row "WITHIN_RADIUS") as [within |]; [| reflexivity]. cbn [bind].
  rewrite orb_negb_r.
  destruct (folium_Marker folium_accepts (lat, lon) _ _) as [marker |]; [| reflexivity].
  cbn [bind].
  destruct (folium_PolyLine folium_accepts _ _) as [line |]; [| reflexivity].
  cbn [bind app]. rewrite <- app_assoc. reflexivity.
Qed.

Lemma visualize_rows_Ok (rows : list (Row F)) (marker_cluster children : list (child F))
    (features all : list (Feature F)) :
  visualize_rows folium_accepts marker_cluster features rows = Ok (children, all) ->
  exists drawn : list (list (child F) * list (Feature F)),
    List.length drawn = List.length rows /\
    (forall i, (i < List.length rows)%nat ->
       visualize_row folium_accepts [] [] (nth i rows []) = Ok (nth i drawn ([], []))) /\
    children = (marker_cluster ++ flat_map fst drawn)%list /\
    all = (features ++ flat_map snd drawn)%list.
Proof.
  revert marker_cluster features.
  induction rows as [| row rest IH]; intros marker_cluster features; cbn [visualize_rows].
  - intros E. apply Ok_inj in E. exists []. split; [reflexivity |].
    split; [intros i L; cbn in L; lia |]. cbn. rewrite !app_nil_r. split.
    + change children with (fst (children, all)). rewrite <- E. reflexivity.
    + change all with (snd (children, all)). rewrite <- E. reflexivity.
  - rewrite visualize_row_appends.
    destruct (visualize_row folium_accepts [] [] row) as [[c f] |] eqn:R; [| discriminate].
    cbn [bind]. intros E. destruct (IH _ _ E) as (drawn & L & N & -> & ->).
    exists ((c, f) :: drawn). split; [cbn; rewrite L; reflexivity |]. split.
    + intros [| i] Li; [exact R | apply N; cbn in Li; lia].
    + cbn [flat_map fst snd]. rewrite <- !app_assoc. split; reflexivity.
Qed.

Lemma row_get_raises (row : Row F) (name : string) (e : exn) :
  row_get row name = Raise e -> e = KeyError.
Proof. unfold row_get. destruct (assoc name row); congruence. Qed.

Lemma nth_error_concat_blocks {A : Type} (k : nat) (l : list (list A)) :
  (forall b, In b l -> List.length b = k) ->
  forall i j, (i < List.length l)%nat -> (j < k)%nat ->
    nth_error (List.concat l) (k * i + j) = nth_error (nth i l []) j.
Proof.
  induction l as [| b rest IH]; intros B i j Li Lj; [cbn in Li; lia |].
  assert (Lb : List.length b = k) by (apply B; left; reflexivity).
  cbn [List.concat]. destruct i as [| i].
  - rewrite Nat.mul_0_r, Nat.add_0_l. cbn [nth].
    apply nth_error_app1. lia.
  - cbn [nth]. rewrite nth_error_app2 by lia.
    replace (k * S i + j - List.length b)%nat with (k * i + j)%nat by lia.
    apply IH; [| cbn in Li; lia | exact Lj].
    intros b' I. apply B. right. exact I.
Qed.

Lemma length_concat_blocks {A : Type} (k : nat) (l : list (list A)) :
  (forall b, In b l -> List.length b = k) ->
  List.length (List.concat l) = (k * List.length l)%nat.
Proof.
  induction l as [| b rest IH]; intros B; [cbn; lia |].
  cbn [List.concat List.length]. rewrite length_app, IH, (B b).
  - lia.
  - left. reflexivity.
  - intros b' I. apply B. right. exact I.
Qed.

(** X11.  [visualize_ships] needs every column it reads: once the map is
    made (the default location has its two keys and folium accepts it as
    the centre), on a frame with at least one row that lacks LATITUDE,
    LONGITUDE, NAME, VESSEL_TYPE, PREDICTED_LATITUDE, PREDICTED_LONGITUDE or
    WITHIN_RADIUS it raises KeyError at the first row, before a marker is
    drawn and before the map is saved, whatever folium accepts for the
    ships. *)
Theorem visualize_ships_needs_every_column
    (vessel_df : DataFrame F) (default_location : Row F) (html_path : string)
    (center_lat center_lon : value F) :
  row_get default_location "latitude" = Ok center_lat ->
  row_get default_location "longitude" = Ok center_lon ->
  folium_accepts (center_lat, center_lon) = true ->
  nrows vessel_df <> 0%nat ->
  (exists name,
     In name ["LATITUDE"; "LONGITUDE"; "NAME"; "VESSEL_TYPE";
              "PREDICTED_LATITUDE"; "PREDICTED_LONGITUDE"; "WITHIN_RADIUS"] /\
     label_in name vessel_df = false) ->
  visualize_ships folium_accepts vessel_df default_location html_path = Raise KeyError.
Proof.
  intros E1 E2 A N (name & I & M). unfold visualize_ships, create_map.
  rewrite E1, E2. cbn [bind]. rewrite A. cbn [bind].
  destruct (iterrows_first vessel_df N) as (rest & ->).
  cbn [visualize_rows]. unfold visualize_row. unfold label_in in M.
  repeat match goal with
         | |- context [row_get (row_at vessel_df 0) ?k] =>
             destruct (existsb (String.eqb k) (labels vessel_df)) eqn:?;
             [ let v := fresh "v" in
               destruct (row_get_label_present vessel_df 0 k) as (v & ->);
               [assumption | cbn [bind]]
             | rewrite (row_get_label vessel_df 0 k) by assumption; reflexivity ]
         end.
  exfalso. cbn in I.
  destruct I as [<- | [<- | [<- | [<- | [<- | [<- | [<- | []]]]]]]]; congruence.
Qed.

(** X12.  When [visualize_ships] returns, every row of the frame is on the
    map, whatever its verdict, in the order of the rows: row [i] has its
    marker at place [2 i] of the marker cluster, at the row's position,
    followed by its line from that position to the predicted position, both
    green when the row's WITHIN_RADIUS cell is true (a NaN is) and orange
    when it is not; and it has its feature at place [i] of the search
    layer, with the coordinates in the order longitude, latitude.  The map
    is saved as the file named "html_path", not under the configured
    path. *)
Theorem visualize_ships_draws_every_row
    (vessel_df : DataFrame F) (default_location : Row F) (html_path : string)
    (v : Visualization F) :
  visualize_ships folium_accepts vessel_df default_location html_path = Ok v ->
  saved_as v = "html_path" /\
  List.length (ship_markers (saved_map v)) = (2 * nrows vessel_df)%nat /\
  List.length (ship_data (saved_map v)) = nrows vessel_df /\
  forall i, (i < nrows vessel_df)%nat ->
    exists lat lon name vessel_type predicted_lat predicted_lon is_within_radius popup,
      row_get (row_at vessel_df i) "LATITUDE" = Ok lat /\
      row_get (row_at vessel_df i) "LONGITUDE" = Ok lon /\
      row_get (row_at vessel_df i) "NAME" = Ok name /\
      row_get (row_at vessel_df i) "VESSEL_TYPE" = Ok vessel_type /\
      row_get (row_at vessel_df i) "PREDICTED_LATITUDE" = Ok predicted_lat /\
      row_get (row_at vessel_df i) "PREDICTED_LONGITUDE" = Ok predicted_lon /\
      row_get (row_at vessel_df i) "WITHIN_RADIUS" = Ok is_within_radius /\
      nth_error (ship_markers (saved_map v)) (2 * i) =
        Some (MarkerChild
                {| marker_location := (lat, lon);
                   marker_popup := popup;
                   marker_icon_color :=
                     if truthy is_within_radius then "green" else "orange" |}) /\
      nth_error (ship_markers (saved_map v)) (2 * i + 1) =
        Some (PolyLineChild
                {| line_locations := ((lat, lon), (predicted_lat, predicted_lon));
                   line_color := if truthy is_within_radius then "green" else "orange";
                   line_weight := 1;
                   line_opacity := 1 |}) /\
      nth_error (ship_data (saved_map v)) i =
        Some {| feature_name := name;
                feature_vessel_type := vessel_type;
                feature_within_radius := if truthy is_within_radius then "Yes" else "No";
                feature_coordinates := (lon, lat) |}.
Proof.
  unfold visualize_ships.
  destruct (row_get default_location "latitude") as [center_lat |]; [| discriminate].
  cbn [bind].
  destruct (row_get default_location "longitude") as [center_lon |]; [| discriminate].
  cbn [bind]. unfold create_map.
  destruct (folium_accepts (center_lat, center_lon)); [| discriminate].
  cbn [bind].
  destruct (visualize_rows folium_accepts [] [] (iterrows vessel_df))
    as [[children features] |] eqn:R; [| discriminate].
  cbn [bind]. intros E. apply Ok_inj in E. subst v. cbn [saved_as saved_map ship_markers ship_data].
  destruct (visualize_rows_Ok _ _ _ _ _ R) as (drawn & L & D & -> & ->).
  rewrite iterrows_length in L, D. cbn [app].
  rewrite !flat_map_concat_map.
  assert (S : forall i, (i < nrows vessel_df)%nat ->
            visualize_row folium_accepts [] [] (row_at vessel_df i)
            = Ok (nth i (map fst drawn) [], nth i (map snd drawn) [])).
  { intros i Li. rewrite <- (iterrows_nth vessel_df i Li), (D i Li).
    change (@nil (child F)) with (fst (@nil (child F), @nil (Feature F))) at 2.
    change (@nil (Feature F)) with (snd (@nil (child F), @nil (Feature F))) at 3.
    rewrite !map_nth. destruct (nth i drawn ([], [])). reflexivity. }
  assert (B2 : forall b, In b (map fst drawn) -> List.length b = 2%nat).
  { intros b I. apply (In_nth _ _ []) in I. destruct I as (i & Li & <-).
    rewrite length_map, L in Li.
    destruct (visualize_row_alone _ _ _ (S i Li))
      as (? & ? & ? & ? & ? & ? & ? & ? & _ & _ & _ & _ & _ & _ & _ & _ & _ & -> & _).
    reflexivity. }
  assert (B1 : forall b, In b (map snd drawn) -> List.length b = 1%nat).
  { intros b I. apply (In_nth _ _ []) in I. destruct I as (i & Li & <-).
    rewrite length_map, L in Li.
    destruct (visualize_row_alone _ _ _ (S i Li))
      as (? & ? & ? & ? & ? & ? & ? & ? & _ & _ & _ & _ & _ & _ & _ & _ & _ & _ & ->).
    reflexivity. }
  split; [reflexivity |].
  split; [rewrite (length_concat_blocks 2 _ B2), length_map, L; reflexivity |].
  split; [rewrite (length_concat_blocks 1 _ B1), length_map, L; lia |].
  intros i Li.
  destruct (visualize_row_alone _ _ _ (S i Li))
    as (lat & lon & name & vessel_type & plat & plon & within & popup
        & E1 & E2 & E3 & E4 & E5 & E6 & E7 & _ & _ & Ec & Ef).
  exists lat, lon, name, vessel_type, plat, plon, within, popup.
  repeat (split; [assumption |]).
  split; [| split].
  - replace (2 * i)%nat with (2 * i + 0)%nat by lia.
    rewrite (nth_error_concat_blocks 2 _ B2) by (rewrite ?length_map, ?L; lia).
    rewrite Ec. reflexivity.
  - rewrite (nth_error_concat_blocks 2 _ B2) by (rewrite ?length_map, ?L; lia).
    rewrite Ec. reflexivity.
  - replace i with (1 * i + 0)%nat at 1 by lia.
    rewrite (nth_error_concat_blocks 1 _ B1) by (rewrite ?length_map, ?L; lia).
    rewrite Ef. reflexivity.
Qed.



End MapFacts.

(** ** From the main program to the map *)

Section Pipeline.
Context {F : Type} `{PyFloat F}.
Local Open Scope string_scope.


End Pipeline.

(** ** The CSV log *)

Section CsvFacts.
Context {F : Type} `{PyFloat F}.






End CsvFacts.

(** ** The sampling script *)

Section ScriptFacts.
Context {F : Type} `{PyFloat F}.

Variable net : nat -> api_reply F.
Variables radius_km prediction_time_minutes : F.
Variables interval_minutes total_iterations : Z.

(** A sampling cycle makes one request, and a second one when the first
    gave a frame that is not empty. *)
Lemma retrieval_iteration_calls (calls calls' : nat) (collected : option (DataFrame F)) :
  retrieval_iteration net calls radius_km prediction_time_minutes = Ok (collected, calls') ->
  calls' = (calls + 1 + match collected with Some _ => 1 | None => 0 end)%nat.
Proof.
  unfold retrieval_iteration.
  destruct (get_vessel_data (net calls)) as [vessel_data |]; [| discriminate].
  cbn [bind]. destruct (negb (empty vessel_data)).
  - destruct (predict_future_positions vessel_data prediction_time_minutes) as [p |];
      [| discriminate].
    cbn [bind].
    destruct (get_vessel_data (net (S calls))) as [new_vessel_data |]; [| discriminate].
    cbn [bind].
    match goal with
    | |- context [bind ?c _] => destruct c as [vd |]; [| discriminate]
    end.
    cbn [bind]. intros E. apply Ok_inj in E.
    assert (E1 : collected = Some vd).
    { change collected with (fst (collected, calls')). rewrite <- E. reflexivity. }
    assert (E2 : calls' = S (S calls)).
    { change calls' with (snd (collected, calls')). rewrite <- E. reflexivity. }
    subst. lia.
  - intros E. apply Ok_inj in E.
    assert (E1 : collected = None).
    { change collected with (fst (collected, calls')). rewrite <- E. reflexivity. }
    assert (E2 : calls' = S calls).
    { change calls' with (snd (collected, calls')). rewrite <- E. reflexivity. }
    subst. lia.
Qed.

(** The seconds of waiting that a list of indices brings. *)
Lemma sampling_loop_Ok (indices : list Z) (st st' : script_state F) :
  sampling_loop net radius_km prediction_time_minutes interval_minutes total_iterations
    indices st = Ok st' ->
  exists frames,
    retrieve_vessel_data_periodically net (requests st) radius_km prediction_time_minutes
      (List.length indices) = Ok frames /\
    combined_vessel_data st' = (combined_vessel_data st ++ frames)%list /\
    (List.length frames <= List.length indices)%nat /\
    requests st' = (requests st + List.length indices + List.length frames)%nat /\
    seconds_slept st' =
      (seconds_slept st
       + List.length (filter (fun i => (i <? total_iterations - 1)%Z) indices)
         * Z.to_nat (interval_minutes * 60))%nat /\
    files st' = fold_left (fun fs df => save_to_csv fs df vessel_data_log) frames (files st).
Proof.
  revert st. induction indices as [| i rest IH]; intros st; cbn [sampling_loop].
  - intros E. apply Ok_inj in E. subst st'. exists []. cbn.
    rewrite app_nil_r. repeat split; lia.
  - unfold sampling_iteration.
    destruct (retrieval_iteration net (requests st) radius_km prediction_time_minutes)
      as [[collected calls] |] eqn:R; [| discriminate].
    cbn [bind]. pose proof (retrieval_iteration_calls _ _ _ R) as C.
    match goal with
    | |- context [sleep_each_second _ ?s] => set (mid := s)
    end.
    match goal with
    | |- sampling_loop _ _ _ _ _ rest ?s = _ -> _ => set (nxt := s)
    end.
    intros E. apply IH in E. clear IH.
    destruct E as (frames & E & Ec & Ll & Er & Es & Ef).
    assert (Q : requests nxt = calls /\ files nxt = files mid /\
                combined_vessel_data nxt = combined_vessel_data mid /\
                seconds_slept nxt =
                  (seconds_slept st
                   + (if (i <? total_iterations - 1)%Z then 1 else 0)
                     * Z.to_nat (interval_minutes * 60))%nat).
    { unfold nxt. destruct (i <? total_iterations - 1)%Z;
        cbn [requests files combined_vessel_data seconds_slept sleep_each_second];
        unfold mid; destruct collected;
        cbn [requests files combined_vessel_data seconds_slept];
        repeat split; unfold range; rewrite ?length_map, ?length_seq; lia. }
    destruct Q as (Q1 & Q2 & Q3 & Q4).
    rewrite Q1 in E, Er. rewrite Q2 in Ef. rewrite Q3 in Ec. rewrite Q4 in Es.
    cbn [retrieve_vessel_data_periodically List.length]. rewrite R. cbn [bind].
    rewrite E. cbn [bind filter].
    destruct collected as [vessel_data |]; unfold mid in *;
      cbn [requests seconds_slept files combined_vessel_data] in *.
    + exists (vessel_data :: frames). split; [reflexivity |].
      split; [rewrite Ec, <- app_assoc; reflexivity |].
      split; [cbn; lia |]. split; [cbn [List.length]; lia |].
      split; [| exact Ef].
      rewrite Es. destruct (i <? total_iterations - 1)%Z; cbn [List.length]; lia.
    + exists frames. split; [reflexivity |].
      split; [exact Ec |]. split; [lia |]. split; [lia |].
      split; [| exact Ef].
      rewrite Es. destruct (i <? total_iterations - 1)%Z; cbn [List.length]; lia.
Qed.

Lemma sampling_loop_Raise (indices : list Z) (st : script_state F) (e : exn) :
  sampling_loop net radius_km prediction_time_minutes interval_minutes total_iterations
    indices st = Raise e ->
  retrieve_vessel_data_periodically net (requests st) radius_km prediction_time_minutes
    (List.length indices) = Raise e.
Proof.
  revert st. induction indices as [| i rest IH]; intros st; cbn [sampling_loop];
    [discriminate |].
  unfold sampling_iteration.
  cbn [retrieve_vessel_data_periodically List.length].
  destruct (retrieval_iteration net (requests st) radius_km prediction_time_minutes)
    as [[collected calls] |] eqn:R; cbn [bind];
    [| intros E; injection E as ->; reflexivity].
  match goal with
  | |- sampling_loop _ _ _ _ _ rest ?s = _ -> _ => set (nxt := s)
  end.
  assert (Q : requests nxt = calls).
  { unfold nxt. destruct (i <? total_iterations - 1)%Z; destruct collected; reflexivity. }
  intros E. apply IH in E. rewrite Q in E. rewrite E. reflexivity.
Qed.

End ScriptFacts.

Lemma waits_of_range (n : Z) :
  List.length (filter (fun i => (i <? n - 1)%Z) (range n)) = (Z.to_nat n - 1)%nat.
Proof.
  unfold range.
  assert (G : forall k a, (Z.of_nat (a + k) = n \/ k = 0)%nat ->
            List.length (filter (fun i => (i <? n - 1)%Z) (map Z.of_nat (seq a k)))
            = (k - 1)%nat).
  { induction k as [| k IH]; intros a A; [reflexivity |].
    cbn [seq map filter]. destruct A as [A | A]; [| discriminate A].
    destruct k as [| k].
    - replace (Z.of_nat a <? n - 1)%Z with false; [reflexivity |].
      symmetry. apply Z.ltb_ge. lia.
    - replace (Z.of_nat a <? n - 1)%Z with true by (symmetry; apply Z.ltb_lt; lia).
      cbn [List.length]. rewrite IH; [lia |]. left. lia. }
  rewrite G; [reflexivity |].
  destruct (Z_le_gt_dec n 0) as [L | L].
  - right. lia.
  - left. lia.
Qed.

Section ScriptTheorems.
Context {F : Type} `{PyFloat F}.
Variable folium_accepts : value F * value F -> bool.
Variable net : nat -> api_reply F.
Variables radius_km prediction_time_minutes : F.
Variable default_location : Row F.
Variable html_path : string.
Variable fs : file_system F.
Variables interval_minutes total_duration_minutes : Z.

(** What a run that returns has gone through. *)
Lemma script_returns (st : script_state F) (made : option (Visualization F)) :
  retrieve_vessel_data_periodically_effects folium_accepts net radius_km
    prediction_time_minutes default_location html_path fs
    interval_minutes total_duration_minutes = Returns (st, made) ->
  interval_minutes <> 0%Z /\
  sampling_loop net radius_km prediction_time_minutes interval_minutes
    (total_duration_minutes / interval_minutes)
    (range (total_duration_minutes / interval_minutes))
    {| requests := 0; seconds_slept := 0; files := fs; combined_vessel_data := [] |}
  = Ok st /\
  match combined_vessel_data st with
  | [] => made = None
  | _ :: _ =>
      exists v, made = Some v /\
        visualize_ships folium_accepts (concat (combined_vessel_data st))
          default_location html_path = Ok v
  end.
Proof.
  unfold retrieve_vessel_data_periodically_effects.
  destruct (Z.eqb_spec interval_minutes 0) as [Z0 | Z0]; [discriminate |].
  cbv zeta.
  destruct (sampling_loop _ _ _ _ _ _ _) as [st0 |] eqn:L; [| discriminate].
  destruct (combined_vessel_data st0) as [| df rest] eqn:Cv.
  - intros E.
    assert (E1 : st0 = st).
    { change (match Returns (st0, @None (Visualization F)) with
              | Returns a => fst a | _ => st0 end = st).
      rewrite E. reflexivity. }
    assert (E2 : made = None).
    { change (made = match Returns (st0, @None (Visualization F)) with
                     | Returns a => snd a | _ => None end).
      rewrite E. reflexivity. }
    subst st0. rewrite Cv. repeat split; assumption.
  - destruct (visualize_ships _ _ _ _) as [v |] eqn:V; [| discriminate].
    intros E.
    assert (E1 : st0 = st).
    { change (match Returns (st0, Some v) with
              | Returns a => fst a | _ => st0 end = st).
      rewrite E. reflexivity. }
    assert (E2 : made = Some v).
    { change (made = match Returns (st0, Some v) with
                     | Returns a => snd a | _ => None end).
      rewrite E. reflexivity. }
    subst st0. rewrite Cv. split; [assumption |]. split; [reflexivity |].
    exists v. split; [exact E2 | exact V].
Qed.

(** X15.  What a run of the sampling script costs.  With
    [n = total_duration_minutes // interval_minutes] iterations (none when
    the quotient is negative), a run that returns has kept at most [n]
    frames, has made one request per iteration and one more for each frame
    kept (between [n] and [2 n] in all), and has slept
    [interval_minutes * 60] seconds after each iteration but the last:
    [(n - 1)] times; a map is made exactly when a frame was kept. *)
Theorem sampling_script_requests_and_sleep
    (st : script_state F) (made : option (Visualization F)) :
  retrieve_vessel_data_periodically_effects folium_accepts net radius_km
    prediction_time_minutes default_location html_path fs
    interval_minutes total_duration_minutes = Returns (st, made) ->
  let n := Z.to_nat (total_duration_minutes / interval_minutes) in
  (List.length (combined_vessel_data st) <= n)%nat /\
  requests st = (n + List.length (combined_vessel_data st))%nat /\
  seconds_slept st = ((n - 1) * Z.to_nat (interval_minutes * 60))%nat /\
  (made = None <-> combined_vessel_data st = []).
Proof.
  intros E n. destruct (script_returns st made E) as (_ & L & M).
  apply sampling_loop_Ok in L.
  destruct L as (frames & _ & Ec & Ll & Er & Es & _).
  cbn [requests seconds_slept combined_vessel_data app] in Ec, Er, Es.
  rewrite waits_of_range in Es.
  unfold range in Ll, Er. rewrite length_map, length_seq in Ll, Er.
  fold n in Ll, Er, Es. rewrite Ec.
  split; [exact Ll |]. split; [exact Er |]. split; [exact Es |].
  rewrite Ec in M. destruct frames as [| df rest].
  - split; [reflexivity | intros _; exact M].
  - destruct M as (v & -> & _). split; discriminate.
Qed.

(** X16.  What a run of the sampling script keeps.  The frames kept by a
    run that returns are those of the sampling cycles, in their order; each
    was saved to the log "data/vessel_data_log.csv" as it came, whatever
    path the configuration names; and the map, when there is one, is the
    map of their concatenation. *)
Theorem sampling_script_frames_and_log
    (st : script_state F) (made : option (Visualization F)) :
  retrieve_vessel_data_periodically_effects folium_accepts net radius_km
    prediction_time_minutes default_location html_path fs
    interval_minutes total_duration_minutes = Returns (st, made) ->
  retrieve_vessel_data_periodically net 0 radius_km prediction_time_minutes
    (Z.to_nat (total_duration_minutes / interval_minutes))
  = Ok (combined_vessel_data st) /\
  files st =
    fold_left (fun fs df => save_to_csv fs df "data/vessel_data_log.csv")
      (combined_vessel_data st) fs /\
  (forall v, made = Some v ->
     visualize_ships folium_accepts (concat (combined_vessel_data st))
       default_location html_path = Ok v).
Proof.
  intros E. destruct (script_returns st made E) as (_ & L & M).
  apply sampling_loop_Ok in L.
  destruct L as (frames & R & Ec & _ & _ & _ & Ef).
  cbn [requests files combined_vessel_data app] in R, Ec, Ef.
  unfold range in R. rewrite length_map, length_seq in R.
  rewrite Ec. split; [exact R |]. split; [exact Ef |].
  intros v Mv. rewrite Ec in M. destruct frames as [| df rest].
  - rewrite M in Mv. discriminate Mv.
  - destruct M as (v' & Mv' & V). rewrite Mv' in Mv.
    assert (v' = v).
    { change (match Some v' with Some x => x | None => v' end = v).
      rewrite Mv. reflexivity. }
    subst v'. exact V.
Qed.

(** X17.  The edges of the schedule.  With an interval of 0 minutes the
    script raises ZeroDivisionError before any request.  With a total
    duration shorter than the interval (or of the other sign) there is no
    iteration: the script returns without a request, a wait, a file
    written or a map.  When it makes iterations and one sampling cycle
    raises, the script raises that exception. *)
Theorem sampling_script_edges :
  (interval_minutes = 0%Z ->
   retrieve_vessel_data_periodically_effects folium_accepts net radius_km
     prediction_time_minutes default_location html_path fs
     interval_minutes total_duration_minutes = RaisesZeroDivisionError) /\
  (interval_minutes <> 0%Z ->
   (total_duration_minutes / interval_minutes <= 0)%Z ->
   retrieve_vessel_data_periodically_effects folium_accepts net radius_km
     prediction_time_minutes default_location html_path fs
     interval_minutes total_duration_minutes =
   Returns ({| requests := 0; seconds_slept := 0; files := fs;
               combined_vessel_data := [] |}, None)) /\
  (interval_minutes <> 0%Z ->
   forall e,
     retrieve_vessel_data_periodically net 0 radius_km prediction_time_minutes
       (Z.to_nat (total_duration_minutes / interval_minutes)) = Raise e ->
     retrieve_vessel_data_periodically_effects folium_accepts net radius_km
       prediction_time_minutes default_location html_path fs
       interval_minutes total_duration_minutes = Raises e).
Proof.
  unfold retrieve_vessel_data_periodically_effects. split; [| split].
  - intros ->. reflexivity.
  - intros N L. destruct (Z.eqb_spec interval_minutes 0) as [Z0 | _]; [contradiction |].
    cbv zeta. unfold range.
    replace (Z.to_nat (total_duration_minutes / interval_minutes)) with 0%nat by lia.
    reflexivity.
  - intros N e R. destruct (Z.eqb_spec interval_minutes 0) as [Z0 | _]; [contradiction |].
    cbv zeta.
    destruct (sampling_loop _ _ _ _ _ _ _) as [st |] eqn:L.
    + apply sampling_loop_Ok in L. destruct L as (frames & R' & _).
      cbn [requests] in R'. unfold range in R'. rewrite length_map, length_seq in R'.
      rewrite R in R'. discriminate R'.
    + apply sampling_loop_Raise in L.
      cbn [requests] in L. unfold range in L. rewrite length_map, length_seq in L.
      rewrite R in L. apply (f_equal (fun r => match r with Raise x => x | Ok _ => e end)) in L.
      rewrite L. reflexivity.
Qed.

End ScriptTheorems.

(** ** The verdict and the radius *)

Section Radius.
Local Open Scope R_scope.

Lemma SFleb_trans (x y z : spec_float) :
  SFleb x y = true -> SFleb y z = true -> SFleb x z = true.
Proof.
  unfold SFleb, SFcompare.
  destruct x as [sx | sx | | sx mx ex], y as [sy | sy | | sy my ey],
           z as [sz | sz | | sz mz ez];
    try destruct sx; try destruct sy; try destruct sz;
    try reflexivity; try discriminate;
    change (Pos.compare_cont Eq) with Pos.compare;
    destruct (Z.compare_spec ex ey); try discriminate;
    destruct (Z.compare_spec ey ez); try discriminate;
    destruct (Z.compare_spec ex ez); try reflexivity; try lia;
    try (destruct (Pos.compare_spec mx my); try discriminate;
         destruct (Pos.compare_spec my mz); try discriminate;
         destruct (Pos.compare_spec mx mz); try reflexivity; try discriminate; lia).
Qed.

Lemma leb_trans (x y z : float) :
  PrimFloat.leb x y = true -> PrimFloat.leb y z = true -> PrimFloat.leb x z = true.
Proof. rewrite !leb_spec. apply SFleb_trans. Qed.

Lemma xle_trans (x y z : Exact.xreal) :
  Exact.xle x y = true -> Exact.xle y z = true -> Exact.xle x z = true.
Proof.
  destruct x as [x |], y as [y |], z as [z |]; cbn; try discriminate.
  destruct (Rle_dec x y) as [A | A]; [| discriminate].
  destruct (Rle_dec y z) as [B | B]; [| discriminate].
  destruct (Rle_dec x z) as [C | C]; [reflexivity | exfalso; lra].
Qed.

(** The verdict on any semantics whose comparison is transitive. *)
Lemma within_larger_circle {F : Type} `{PyFloat F}
    (center_lat center_lon radius_km larger point_lat point_lon : F) :
  (forall x y z : F, fle x y = true -> fle y z = true -> fle x z = true) ->
  is_point_within_circle center_lat center_lon radius_km point_lat point_lon = Ok true ->
  fle radius_km larger = true ->
  is_point_within_circle center_lat center_lon larger point_lat point_lon = Ok true.
Proof.
  intros T. unfold is_point_within_circle.
  destruct (haversine center_lat center_lon point_lat point_lon) as [d |]; [| discriminate].
  cbn [bind]. intros E L. apply Ok_inj in E. rewrite (T d radius_km larger E L).
  reflexivity.
Qed.

(** X18.  The verdict grows with the radius.  A point found within a
    circle is found within every larger circle around the same centre: in
    binary64 for all doubles on every platform, and on real numbers.  On
    real numbers, moreover, no point is within a circle of negative radius,
    and every point is within a circle of radius [6371 * PI] kilometres or
    more. *)
Theorem verdict_grows_with_radius :
  (forall (m : Binary64.Libm) (center_lat center_lon radius_km larger point_lat point_lon : float),
     is_point_within_circle (H := Binary64.sem m)
       center_lat center_lon radius_km point_lat point_lon = Ok true ->
     PrimFloat.leb radius_km larger = true ->
     is_point_within_circle (H := Binary64.sem m)
       center_lat center_lon larger point_lat point_lon = Ok true) /\
  (forall center_lat center_lon radius_km larger point_lat point_lon : Exact.xreal,
     is_point_within_circle center_lat center_lon radius_km point_lat point_lon = Ok true ->
     Exact.xle radius_km larger = true ->
     is_point_within_circle center_lat center_lon larger point_lat point_lon = Ok true) /\
  (forall center_lat center_lon radius_km point_lat point_lon : R,
     (radius_km < 0 ->
      is_point_within_circle (Exact.Real center_lat) (Exact.Real center_lon)
        (Exact.Real radius_km) (Exact.Real point_lat) (Exact.Real point_lon) = Ok false) /\
     (6371 * PI <= radius_km ->
      is_point_within_circle (Exact.Real center_lat) (Exact.Real center_lon)
        (Exact.Real radius_km) (Exact.Real point_lat) (Exact.Real point_lon) = Ok true)).
Proof.
  split; [| split].
  - intros m center_lat center_lon radius_km larger point_lat point_lon.
    apply (within_larger_circle (H := Binary64.sem m)). exact leb_trans.
  - intros center_lat center_lon radius_km larger point_lat point_lon.
    apply (within_larger_circle (H := Exact.sem)). exact xle_trans.
  - intros center_lat center_lon radius_km point_lat point_lon.
    unfold is_point_within_circle. rewrite exact_haversine. cbn [bind].
    destruct (hav_range center_lat center_lon point_lat point_lon) as [L U].
    pose proof (Ratan2_quadrant
                  (R_sqrt.sqrt (Exact.hav center_lat center_lon point_lat point_lon))
                  (R_sqrt.sqrt (1 - Exact.hav center_lat center_lon point_lat point_lon))
                  (sqrt_pos _) (sqrt_pos _)) as [A B].
    cbn [fle Exact.sem Exact.xle]. split; intros Rr.
    + destruct (Rle_dec _ radius_km) as [C | C]; [exfalso; lra | reflexivity].
    + destruct (Rle_dec _ radius_km) as [C | C]; [reflexivity | exfalso; lra].
Qed.

End Radius.

(** ** The theorems at work on sample data *)

Section OnTheFirstOrderPlatform.
#[local] Instance first_order_sem : PyFloat float :=
  Binary64.sem Binary64.first_order_platform.
Local Open Scope string_scope.

Lemma get_vessel_data_empty_witness :
  exists response_data : DataFrame float,
    Json (frame_of []) = Json response_data /\ nrows response_data = 0%nat /\
    forall key, In key keys_to_include -> assoc key (columns response_data) <> None.
Proof.
  apply (get_vessel_data_empty (Json (frame_of [])) (frame_of [])); reflexivity.
Defined.

Lemma predict_future_positions_twice_witness :
  predict_future_positions
    (with_predictions Examples.first_fetch [0; 0]%float [0; 0x1.dffffffffffffp+5]%float)
    10%float
  = Ok (with_predictions Examples.first_fetch [0; 0]%float [0; 0x1.dffffffffffffp+5]%float).
Proof.
  apply (predict_future_positions_twice Examples.first_fetch _ 10%float).
  vm_compute. reflexivity.
Defined.


Lemma visualize_ships_needs_every_column_witness :
  visualize_ships Samples.accepts_all Examples.first_fetch Samples.default_location
    "visualizations/ships_visualization.html" = Raise KeyError.
Proof.
  apply (visualize_ships_needs_every_column Samples.accepts_all Examples.first_fetch
           Samples.default_location "visualizations/ships_visualization.html"
           (VNum 0%float) (VNum 0%float)).
  - reflexivity.
  - reflexivity.
  - reflexivity.
  - discriminate.
  - exists "WITHIN_RADIUS". split; [cbn; tauto | reflexivity].
Defined.

Lemma visualize_ships_draws_every_row_witness :
  exists v,
    visualize_ships Samples.accepts_all Samples.tracked Samples.default_location
      "visualizations/ships_visualization.html" = Ok v /\
    saved_as v = "html_path" /\
    List.length (ship_markers (saved_map v)) = 2%nat /\
    List.length (ship_data (saved_map v)) = 1%nat.
Proof.
  eexists. split; [reflexivity |].
  destruct (visualize_ships_draws_every_row Samples.accepts_all Samples.tracked
              Samples.default_location "visualizations/ships_visualization.html" _ eq_refl)
    as (A & B & C & _).
  split; [exact A |]. split; [exact B | exact C].
Defined.


Lemma sampling_script_requests_and_sleep_witness :
  exists st made,
    retrieve_vessel_data_periodically_effects Samples.accepts_all Samples.steady_feed
      10%float 10%float Samples.default_location
      "visualizations/ships_visualization.html" [] 2 6 = Returns (st, made) /\
    (List.length (combined_vessel_data st) <= 3)%nat /\
    requests st = (3 + List.length (combined_vessel_data st))%nat /\
    seconds_slept st = 240%nat /\
    (made = None <-> combined_vessel_data st = []).
Proof.
  eexists. eexists. split; [vm_compute; reflexivity |].
  apply (sampling_script_requests_and_sleep Samples.accepts_all Samples.steady_feed
           10%float 10%float Samples.default_location
           "visualizations/ships_visualization.html" [] 2 6).
  vm_compute. reflexivity.
Defined.

Lemma sampling_script_frames_and_log_witness :
  exists st made,
    retrieve_vessel_data_periodically_effects Samples.accepts_all Samples.steady_feed
      10%float 10%float Samples.default_location
      "visualizations/ships_visualization.html" [] 2 6 = Returns (st, made) /\
    retrieve_vessel_data_periodically Samples.steady_feed 0 10%float 10%float 3
      = Ok (combined_vessel_data st) /\
    files st =
      fold_left (fun fs df => save_to_csv fs df "data/vessel_data_log.csv")
        (combined_vessel_data st) [] /\
    (forall v, made = Some v ->
       visualize_ships Samples.accepts_all (concat (combined_vessel_data st))
         Samples.default_location "visualizations/ships_visualization.html" = Ok v).
Proof.
  eexists. eexists. split; [vm_compute; reflexivity |].
  apply (sampling_script_frames_and_log Samples.accepts_all Samples.steady_feed
           10%float 10%float Samples.default_location
           "visualizations/ships_visualization.html" [] 2 6).
  vm_compute. reflexivity.
Defined.

End OnTheFirstOrderPlatform.
